(** * RDF datastore facade and MUD entity model

    A shallow embedding of [utils.ts], [RDFDatastore.ts], [mud/ontology.ts],
    [mud/MudWorld.ts] and [mud/CommandProcessor.ts].

    - JavaScript strings are [string]: one [ascii] per code unit, so the
      model covers code units below 256.
    - RDF terms are a tagged value with the [value] property of the
      library's term objects.
    - The third-party N3 [Store] is not part of the repository.  It is an
      interface, [N3Store], holding the operations the facade calls
      together with the set contract they obey; the order in which a
      query lists its results is left open.  [ListStore] is an executable
      instance.
    - The N3 [Parser] is not part of the repository either.  A parser is
      taken as the sequence of calls it makes back for a text, and
      [ParserRun] states the protocol of these calls.
    - Mutating methods take the object and return the updated object. *)

From Stdlib Require Import List String Ascii Bool Arith Lia DecimalString.
From Stdlib Require DecimalNat.
From stdpp Require Import gmap strings.
Import ListNotations.

Local Open Scope string_scope.

(** ** JavaScript string primitives *)

Module Js.

Definition ch (n : nat) : string := String (ascii_of_nat n) EmptyString.

(** Line feed and the double quote, used by message templates. *)
Definition nl : string := ch 10.
Definition dq : string := ch 34.

(** [\s] and [trim] whitespace, restricted to code units below 256. *)
Definition is_ws (c : ascii) : bool :=
  let n := nat_of_ascii c in
  (((9 <=? n) && (n <=? 13)) || (n =? 32) || (n =? 160))%nat.

Fixpoint all_ws (s : string) : bool :=
  match s with
  | EmptyString => true
  | String c s' => is_ws c && all_ws s'
  end.

Fixpoint trimStart (s : string) : string :=
  match s with
  | EmptyString => EmptyString
  | String c s' => if is_ws c then trimStart s' else s
  end.

Fixpoint trimEnd (s : string) : string :=
  match s with
  | EmptyString => EmptyString
  | String c s' =>
      match trimEnd s' with
      | EmptyString => if is_ws c then EmptyString else String c EmptyString
      | r => String c r
      end
  end.

(** [s.trim()] *)
Definition trim (s : string) : string := trimEnd (trimStart s).

Definition starts_ws (s : string) : bool :=
  match s with
  | EmptyString => false
  | String c _ => is_ws c
  end.

(** [s.split(/\s+/)]: a maximal run of whitespace is one separator. *)
Fixpoint split_ws (s : string) : list string :=
  match s with
  | EmptyString => [EmptyString]
  | String c s' =>
      if is_ws c then
        if starts_ws s' then split_ws s' else EmptyString :: split_ws s'
      else
        match split_ws s' with
        | h :: t => String c h :: t
        | [] => [String c EmptyString]
        end
  end.

(** [s.split(sep)] for a separator of one character. *)
Fixpoint split (sep : ascii) (s : string) : list string :=
  match s with
  | EmptyString => [EmptyString]
  | String c s' =>
      if Ascii.eqb c sep then EmptyString :: split sep s'
      else
        match split sep s' with
        | h :: t => String c h :: t
        | [] => [String c EmptyString]
        end
  end.

(** [a.pop()] read for its result: [None] is [undefined]. *)
Fixpoint pop (l : list string) : option string :=
  match l with
  | [] => None
  | [x] => Some x
  | _ :: t => pop t
  end.

(** [x || d] on a possibly undefined string: the empty string is falsy. *)
Definition or_else {A} (x : option string) (inj : string -> A) (d : A) : A :=
  match x with
  | Some (String c s) => inj (String c s)
  | _ => d
  end.

Definition lower (c : ascii) : ascii :=
  let n := nat_of_ascii c in
  if (((65 <=? n) && (n <=? 90))
      || ((192 <=? n) && (n <=? 222) && negb (n =? 215)))%nat
  then ascii_of_nat (n + 32) else c.

(** [s.toLowerCase()] *)
Fixpoint toLowerCase (s : string) : string :=
  match s with
  | EmptyString => EmptyString
  | String c s' => String (lower c) (toLowerCase s')
  end.

(** [s.includes(sub)] *)
Fixpoint includes (s sub : string) : bool :=
  String.prefix sub s ||
  match s with
  | EmptyString => false
  | String _ s' => includes s' sub
  end.

(** [a.join(sep)] *)
Fixpoint join (sep : string) (l : list string) : string :=
  match l with
  | [] => EmptyString
  | [x] => x
  | x :: t => x +:+ sep +:+ join sep t
  end.

(** [s.repeat(n)] *)
Fixpoint repeat (s : string) (n : nat) : string :=
  match n with
  | O => EmptyString
  | S k => s +:+ repeat s k
  end.

(** [n.toString()] for a counter. *)
Definition num (n : nat) : string := NilZero.string_of_uint (Nat.to_uint n).

(** A template slot [${x}] for a value that may be [null]. *)
Definition show (x : option string) : string :=
  match x with
  | Some s => s
  | None => "null"
  end.

(** [undefined] in a slot whose declared type is [string]. *)
Definition undefined : option string := None.

(** [s.value] for a string [s]: a string has no property of that name, and
    reading it gives [undefined]. *)
Definition string_value (s : string) : option string := undefined.

(** [Boolean.prototype.toString] *)
Definition bool_str (b : bool) : string := if b then "true" else "false".

(** [new Set()] filled with [add] in iteration order. *)
Definition set_add {A} (eqd : forall x y : A, {x = y} + {x <> y})
    (acc : list A) (x : A) : list A :=
  if in_dec eqd x acc then acc else (acc ++ [x])%list.

Definition to_set {A} (eqd : forall x y : A, {x = y} + {x <> y})
    (l : list A) : list A :=
  fold_left (set_add eqd) l [].

End Js.

(** ** RDF terms and quads (the library's data model) *)

Inductive Term : Type :=
| NamedNode (iri : string)
| BlankNode (label : string)
| Literal (lexical : string) (language : string) (datatype : string)
| DefaultGraph.

(** The [value] property of a term object. *)
Definition value (t : Term) : string :=
  match t with
  | NamedNode iri => iri
  | BlankNode label => label
  | Literal lexical _ _ => lexical
  | DefaultGraph => EmptyString
  end.

(** A term is an object, and every object is truthy. *)
Definition truthy (t : Term) : bool := true.

Record Quad : Type := mkQuad {
  subject : Term;
  predicate : Term;
  object : Term;
  graph : Term
}.

Definition Term_eq_dec (a b : Term) : {a = b} + {a <> b}.
Proof. decide equality; apply string_dec. Defined.

Definition Quad_eq_dec (a b : Quad) : {a = b} + {a <> b}.
Proof. decide equality; apply Term_eq_dec. Defined.

Definition Term2_eq_dec (a b : Term * Term) : {a = b} + {a <> b}.
Proof. decide equality; apply Term_eq_dec. Defined.

Definition Term3_eq_dec (a b : Term * Term * Term) : {a = b} + {a <> b}.
Proof. decide equality; [apply Term_eq_dec | apply Term2_eq_dec]. Defined.

Definition term_eqb (a b : Term) : bool :=
  if Term_eq_dec a b then true else false.

Definition quad_eqb (a b : Quad) : bool :=
  if Quad_eq_dec a b then true else false.

(** [DataFactory.quad(s, p, o, g)]: a missing graph is the default graph. *)
Definition quad (s p o : Term) (g : option Term) : Quad :=
  mkQuad s p o (match g with Some t => t | None => DefaultGraph end).

(** One position of [getQuads]: [None] is [null], a wildcard. *)
Definition matches_term (pat : option Term) (t : Term) : bool :=
  match pat with
  | None => true
  | Some u => term_eqb u t
  end.

Definition matches (s p o g : option Term) (q : Quad) : bool :=
  matches_term s (subject q) && matches_term p (predicate q)
  && matches_term o (object q) && matches_term g (graph q).

(** ** The N3 store as an interface

    [holds] is [store.has(quad)], [getQuads] is [store.getQuads(s, p, o, g)],
    which for four wildcards is also what iterating the store yields, and
    [count] is [store.size].  The contract is that of a set of quads:
    a query lists each matching quad once, in an order the interface does
    not fix; adding a quad already present and removing an absent one
    leave the store as it is; and adding or removing a quad that a query
    does not match leaves the listing of that query as it is. *)

Class N3Store : Type := {
  Store : Type;
  emptyStore : Store;
  addQuad : Quad -> Store -> Store;
  removeQuad : Quad -> Store -> Store;
  holds : Store -> Quad -> bool;
  getQuads : option Term -> option Term -> option Term -> option Term ->
             Store -> list Quad;
  count : Store -> nat;
  holds_empty : forall q, holds emptyStore q = false;
  holds_addQuad : forall st q q',
    holds (addQuad q st) q' = quad_eqb q q' || holds st q';
  holds_removeQuad : forall st q q',
    holds (removeQuad q st) q' = negb (quad_eqb q q') && holds st q';
  addQuad_present : forall st q, holds st q = true -> addQuad q st = st;
  removeQuad_absent : forall st q, holds st q = false -> removeQuad q st = st;
  getQuads_NoDup : forall st s p o g, List.NoDup (getQuads s p o g st);
  getQuads_spec : forall st s p o g q,
    In q (getQuads s p o g st) <-> holds st q = true /\ matches s p o g q = true;
  getQuads_addQuad_other : forall st s p o g q,
    matches s p o g q = false ->
    getQuads s p o g (addQuad q st) = getQuads s p o g st;
  getQuads_removeQuad_other : forall st s p o g q,
    matches s p o g q = false ->
    getQuads s p o g (removeQuad q st) = getQuads s p o g st;
  count_spec : forall st, count st = length (getQuads None None None None st)
}.

(** ** An executable store: quads in insertion order *)

Module ListStoreImpl.

Definition t : Type := list Quad.

Definition has (st : t) (q : Quad) : bool := existsb (quad_eqb q) st.

Definition add (q : Quad) (st : t) : t :=
  if has st q then st else (st ++ [q])%list.

Definition remove (q : Quad) (st : t) : t :=
  if has st q then List.filter (fun x => negb (quad_eqb q x)) st else st.

Definition get (s p o g : option Term) (st : t) : list Quad :=
  List.filter (matches s p o g) (nodup Quad_eq_dec st).

Definition size (st : t) : nat := length (nodup Quad_eq_dec st).

End ListStoreImpl.

(** ** utils.ts: the term factory *)

Module utils.

Definition xsd : string := "http://www.w3.org/2001/XMLSchema#".
Definition rdf : string := "http://www.w3.org/1999/02/22-rdf-syntax-ns#".
Definition rdfs : string := "http://www.w3.org/2000/01/rdf-schema#".

Definition createNamedNode (uri : string) : Term := NamedNode uri.

(** [DataFactory.literal(value, languageOrDatatype)]: a string argument
    is a language tag, a named node a datatype, none a plain string. *)
Definition literal (v : string) (languageOrDatatype : option (string + Term))
  : Term :=
  match languageOrDatatype with
  | Some (inl lang) =>
      Literal v (Js.toLowerCase lang) (rdf +:+ "langString")
  | Some (inr dt) =>
      if String.eqb (value dt) EmptyString then Literal v EmptyString (xsd +:+ "string")
      else Literal v EmptyString (value dt)
  | None => Literal v EmptyString (xsd +:+ "string")
  end.

Definition createLiteral (v : string)
    (languageOrDatatype : option (string + Term)) : Term :=
  match languageOrDatatype with
  | Some (inl lang) => literal v (Some (inl lang))
  | Some (inr dt) => literal v (Some (inr dt))
  | None => literal v None
  end.

Definition createTypedLiteral (v datatype : string) : Term :=
  literal v (Some (inr (NamedNode datatype))).

Definition createBooleanLiteral (b : bool) : Term :=
  createTypedLiteral (Js.bool_str b) "http://www.w3.org/2001/XMLSchema#boolean".

Definition ns (namespace localName : string) : Term :=
  NamedNode (namespace +:+ localName).

End utils.

(** ** types.ts *)

Record QueryPattern : Type := mkPattern {
  pat_subject : option Term;
  pat_predicate : option Term;
  pat_object : option Term;
  pat_graph : option Term
}.

Record DatastoreStats : Type := mkStats {
  tripleCount : nat;
  subjectCount : nat;
  predicateCount : nat;
  graphCount : nat
}.

(** What the N3 parser hands to its callback [(error, quad, prefixes)];
    [None] is a null or missing argument.  The prefixes are the parser's
    own table, which maps each declared prefix to the text of its IRI: the
    values are strings when the program runs, whatever type the callback
    declares for them. *)
Record ParseEvent : Type := mkEvent {
  ev_error : option string;
  ev_quad : option Quad;
  ev_prefixes : option (gmap string string)
}.

(** The promise built by [parseFromString]. *)
Inductive Promise : Type :=
| Pending
| Resolved
| Rejected (error : string).

(** Only the first [resolve] or [reject] settles a promise. *)
Definition resolve (p : Promise) : Promise :=
  match p with
  | Pending => Resolved
  | _ => p
  end.

Definition reject (e : string) (p : Promise) : Promise :=
  match p with
  | Pending => Rejected e
  | _ => p
  end.

(** ** RDFDatastore.ts *)

Module RDFDatastore.
Section Facade.
Context {N3 : N3Store}.

(** [prefixes] is declared [Record<string, string>]; a slot holds what
    [setPrefix] was handed, which is [undefined] ([None]) when the caller
    read it from a property that is not there. *)
Record t : Type := mk {
  store : Store;
  prefixes : gmap string (option string)
}.

(** [new RDFDatastore(quads)] *)
Definition new (initial : list Quad) : t :=
  {| store := fold_left (fun st q => addQuad q st) initial emptyStore;
     prefixes := <["xsd" := Some utils.xsd]> (<["rdfs" := Some utils.rdfs]>
                   (<["rdf" := Some utils.rdf]> ∅)) |}.

Definition addTriple (d : t) (s p o : Term) (g : option Term) : t :=
  let q := match g with
           | Some gr => quad s p o (Some gr)
           | None => quad s p o None
           end in
  {| store := addQuad q d.(store); prefixes := d.(prefixes) |}.

Definition addQuads (d : t) (qs : list Quad) : t :=
  {| store := fold_left (fun st q => addQuad q st) qs d.(store);
     prefixes := d.(prefixes) |}.

Definition removeTriple (d : t) (s p o : Term) (g : option Term) : t :=
  let q := match g with
           | Some gr => quad s p o (Some gr)
           | None => quad s p o None
           end in
  {| store := removeQuad q d.(store); prefixes := d.(prefixes) |}.

(** [match(pattern)]; a term is truthy, so [x || null] is [x]. *)
Definition match_ (d : t) (pattern : QueryPattern) : list Quad :=
  getQuads pattern.(pat_subject) pattern.(pat_predicate) pattern.(pat_object)
        pattern.(pat_graph) d.(store).

Definition removeMatches (d : t) (pattern : QueryPattern) : t :=
  let found := match_ d pattern in
  {| store := fold_left (fun st q => removeQuad q st) found d.(store);
     prefixes := d.(prefixes) |}.

(** Iterating the store. *)
Definition iterate (d : t) : list Quad := getQuads None None None None d.(store).

(** [getSubjects] and [getPredicates] build a [Set] of term objects, and a
    [Set] tells objects apart by identity, not by content.  The store
    makes the objects anew as it is read: walking its index by graph, then
    subject, then predicate, it makes one subject object for each subject
    of a graph and one predicate object for each predicate of a subject of
    a graph, and the quads below share them.  The lists hold one term for
    each object of the set. *)
Definition getSubjects (d : t) : list Term :=
  map snd (Js.to_set Term2_eq_dec
             (map (fun q => (graph q, subject q)) (iterate d))).

Definition getPredicates (d : t) : list Term :=
  map snd (Js.to_set Term3_eq_dec
             (map (fun q => (graph q, subject q, predicate q)) (iterate d))).

Definition getObjects (d : t) (s p : Term) (g : option Term) : list Term :=
  map object (match_ d (mkPattern (Some s) (Some p) None g)).

Definition has (d : t) (s p o : Term) (g : option Term) : bool :=
  let q := match g with
           | Some gr => quad s p o (Some gr)
           | None => quad s p o None
           end in
  holds d.(store) q.

Definition size (d : t) : nat := count d.(store).

Definition clear (d : t) : t :=
  {| store := fold_left (fun st q => removeQuad q st)
                (getQuads None None None None d.(store)) d.(store);
     prefixes := d.(prefixes) |}.

(** The loop of [getStats]: [if (quad.graph) graphs.add(quad.graph.value)]. *)
Definition graphNames (qs : list Quad) : list string :=
  fold_left (fun graphs q =>
               if truthy (graph q)
               then Js.set_add string_dec graphs (value (graph q))
               else graphs) qs [].

Definition getStats (d : t) : DatastoreStats :=
  let subjects := getSubjects d in
  let predicates := getPredicates d in
  let graphs := graphNames (iterate d) in
  {| tripleCount := count d.(store);
     subjectCount := length subjects;
     predicateCount := length predicates;
     graphCount := length graphs |}.

Definition setPrefix (d : t) (prefix : string) (uri : option string) : t :=
  {| store := d.(store); prefixes := <[prefix := uri]> d.(prefixes) |}.

Definition getPrefixes (d : t) : gmap string (option string) := d.(prefixes).

(** The state the parse callback closes over: the datastore, the local
    [quads] buffer and the promise. *)
Record ParseState : Type := mkParse {
  ps_this : t;
  ps_quads : list Quad;
  ps_promise : Promise
}.

(** The callback given to [parser.parse].  At the end of the input it
    registers [uri.value] for every entry [[prefix, uri]] of the parser's
    table; [uri] is a string there. *)
Definition onParse (ps : ParseState) (ev : ParseEvent) : ParseState :=
  match ev.(ev_error) with
  | Some e =>
      mkParse ps.(ps_this) ps.(ps_quads) (reject e ps.(ps_promise))
  | None =>
      match ev.(ev_quad) with
      | Some q =>
          mkParse ps.(ps_this) (ps.(ps_quads) ++ [q])%list ps.(ps_promise)
      | None =>
          let d1 := addQuads ps.(ps_this) ps.(ps_quads) in
          let d2 := match ev.(ev_prefixes) with
                    | Some pf =>
                        fold_left
                          (fun d e => setPrefix d (fst e) (Js.string_value (snd e)))
                          (map_to_list pf) d1
                    | None => d1
                    end in
          mkParse d2 ps.(ps_quads) (resolve ps.(ps_promise))
      end
  end.

(** [parseFromString(data, format)], over the sequence of callbacks the
    parser makes for that text; the result is the datastore and the
    promise once the parser has stopped.  Every call makes a parser of its
    own, and the library labels the blank nodes of each parse with a
    prefix it has not used before, so what a text decodes to depends on
    [nth], the number of parses made before this one. *)
Definition parseFromString (parser : nat -> string -> string -> list ParseEvent)
    (nth : nat) (d : t) (data : string) (format : option string) : t * Promise :=
  let fmt := match format with Some f => f | None => "turtle" end in
  let ps := fold_left onParse (parser nth data fmt) (mkParse d [] Pending) in
  (ps.(ps_this), ps.(ps_promise)).

Definition exportQuads (d : t) : list Quad :=
  getQuads None None None None d.(store).

Definition getStore (d : t) : Store := d.(store).

End Facade.
End RDFDatastore.

(** ** mud/ontology.ts *)

Inductive ExitDirection : Type := north | south | east | west | up | down.

Definition ExitDirection_eq_dec (a b : ExitDirection) : {a = b} + {a <> b}.
Proof. decide equality. Defined.

(** A direction is a string in the source. *)
Definition direction_name (d : ExitDirection) : string :=
  match d with
  | north => "north"
  | south => "south"
  | east => "east"
  | west => "west"
  | up => "up"
  | down => "down"
  end.

Definition exitDirections : list ExitDirection :=
  [north; south; east; west; up; down].

Definition MUD_NS : string := "http://example.org/mud#".

Definition mudTerm (localName : string) : Term :=
  utils.createNamedNode (MUD_NS +:+ localName).

Module mudVocab.

Definition Room : Term := mudTerm "Room".
Definition Item : Term := mudTerm "Item".
Definition Player : Term := mudTerm "Player".
Definition name : Term := mudTerm "name".
Definition description : Term := mudTerm "description".
Definition location : Term := mudTerm "location".
Definition contains : Term := mudTerm "contains".
Definition portable : Term := mudTerm "portable".
Definition inventory : Term := mudTerm "inventory".

(** [mudVocab[direction]] *)
Definition exit (d : ExitDirection) : Term := mudTerm (direction_name d).

End mudVocab.

Module rdfTypes.

Definition type : Term := utils.ns utils.rdf "type".

End rdfTypes.

(** ** mud/MudWorld.ts *)

Module MudWorld.
Section World.
Context {N3 : N3Store}.

Record t : Type := mk {
  store : RDFDatastore.t;
  entityCounter : nat
}.

Definition new : t :=
  {| store := RDFDatastore.setPrefix (RDFDatastore.new []) "mud" (Some MUD_NS);
     entityCounter := 0 |}.

Definition with_store (w : t) (d : RDFDatastore.t) : t :=
  {| store := d; entityCounter := w.(entityCounter) |}.

Definition generateId (w : t) (type : string) : t * string :=
  let n := S w.(entityCounter) in
  ({| store := w.(store); entityCounter := n |}, type +:+ "-" +:+ Js.num n).

Definition entityUri (id : string) : Term :=
  utils.createNamedNode ("http://example.org/game/" +:+ id).

(** [uri.split('/').pop()] *)
Definition lastSegment (uri : string) : option string :=
  Js.pop (Js.split "/"%char uri).

Definition createRoom (w : t) (name description : string) : t * string :=
  let (w1, id) := generateId w "room" in
  let room := entityUri id in
  let d1 := RDFDatastore.addTriple w1.(store) room rdfTypes.type mudVocab.Room None in
  let d2 := RDFDatastore.addTriple d1 room mudVocab.name
              (utils.createLiteral name None) None in
  let d3 := RDFDatastore.addTriple d2 room mudVocab.description
              (utils.createLiteral description None) None in
  (with_store w1 d3, id).

Definition connectRooms (w : t) (fromRoomId : string)
    (direction : ExitDirection) (toRoomId : string) : t :=
  let fromRoom := entityUri fromRoomId in
  let toRoom := entityUri toRoomId in
  let exitPredicate := mudVocab.exit direction in
  with_store w (RDFDatastore.addTriple w.(store) fromRoom exitPredicate toRoom None).

Definition createItem (w : t) (name description : string)
    (portable : option bool) : t * string :=
  let portable := match portable with Some b => b | None => true end in
  let (w1, id) := generateId w "item" in
  let item := entityUri id in
  let d1 := RDFDatastore.addTriple w1.(store) item rdfTypes.type mudVocab.Item None in
  let d2 := RDFDatastore.addTriple d1 item mudVocab.name
              (utils.createLiteral name None) None in
  let d3 := RDFDatastore.addTriple d2 item mudVocab.description
              (utils.createLiteral description None) None in
  let d4 := RDFDatastore.addTriple d3 item mudVocab.portable
              (utils.createBooleanLiteral portable) None in
  (with_store w1 d4, id).

Definition placeItem (w : t) (itemId roomId : string) : t :=
  let item := entityUri itemId in
  let room := entityUri roomId in
  let d1 := RDFDatastore.addTriple w.(store) item mudVocab.location room None in
  let d2 := RDFDatastore.addTriple d1 room mudVocab.contains item None in
  with_store w d2.

Definition createPlayer (w : t) (name startingRoomId : string) : t * string :=
  let (w1, id) := generateId w "player" in
  let player := entityUri id in
  let room := entityUri startingRoomId in
  let d1 := RDFDatastore.addTriple w1.(store) player rdfTypes.type mudVocab.Player None in
  let d2 := RDFDatastore.addTriple d1 player mudVocab.name
              (utils.createLiteral name None) None in
  let d3 := RDFDatastore.addTriple d2 player mudVocab.location room None in
  (with_store w1 d3, id).

(** [xs.length > 0 ? xs[0].value : null] *)
Definition firstValue (xs : list Term) : option string :=
  match xs with
  | x :: _ => Some (value x)
  | [] => None
  end.

Definition getRoomName (w : t) (roomId : string) : option string :=
  let room := entityUri roomId in
  let names := RDFDatastore.getObjects w.(store) room mudVocab.name None in
  firstValue names.

Definition getRoomDescription (w : t) (roomId : string) : option string :=
  let room := entityUri roomId in
  let descriptions :=
    RDFDatastore.getObjects w.(store) room mudVocab.description None in
  firstValue descriptions.

(** The [Map] of exits, in the order its keys were set. *)
Definition getRoomExits (w : t) (roomId : string)
  : list (ExitDirection * string) :=
  let room := entityUri roomId in
  fold_left
    (fun exits direction =>
       let exitRooms :=
         RDFDatastore.getObjects w.(store) room (mudVocab.exit direction) None in
       match exitRooms with
       | target :: _ =>
           let targetUri := value target in
           let targetId := Js.or_else (lastSegment targetUri) (fun s => s) EmptyString in
           (exits ++ [(direction, targetId)])%list
       | [] => exits
       end)
    [north; south; east; west; up; down] [].

(** [exits.get(direction)] *)
Fixpoint exits_get (exits : list (ExitDirection * string))
    (direction : ExitDirection) : option string :=
  match exits with
  | [] => None
  | (d, target) :: rest =>
      if ExitDirection_eq_dec d direction then Some target
      else exits_get rest direction
  end.

(** [nodes.map(node => node.value.split('/').pop() || '')] *)
Definition nodeIds (nodes : list Term) : list string :=
  map (fun node => Js.or_else (lastSegment (value node)) (fun s => s) EmptyString) nodes.

Definition getRoomItems (w : t) (roomId : string) : list string :=
  let room := entityUri roomId in
  let itemNodes := RDFDatastore.getObjects w.(store) room mudVocab.contains None in
  nodeIds itemNodes.

Definition getItemName (w : t) (itemId : string) : option string :=
  let item := entityUri itemId in
  let names := RDFDatastore.getObjects w.(store) item mudVocab.name None in
  firstValue names.

Definition getItemDescription (w : t) (itemId : string) : option string :=
  let item := entityUri itemId in
  let descriptions :=
    RDFDatastore.getObjects w.(store) item mudVocab.description None in
  firstValue descriptions.

Definition isItemPortable (w : t) (itemId : string) : bool :=
  let item := entityUri itemId in
  let portable := RDFDatastore.getObjects w.(store) item mudVocab.portable None in
  match portable with
  | x :: _ => String.eqb (value x) "true"
  | [] => false
  end.

Definition getPlayerLocation (w : t) (playerId : string) : option string :=
  let player := entityUri playerId in
  let locations := RDFDatastore.getObjects w.(store) player mudVocab.location None in
  match locations with
  | x :: _ =>
      let uri := value x in
      Js.or_else (lastSegment uri) Some None
  | [] => None
  end.

Definition movePlayer (w : t) (playerId roomId : string) : t :=
  let player := entityUri playerId in
  let newRoom := entityUri roomId in
  let oldLocations :=
    RDFDatastore.getObjects w.(store) player mudVocab.location None in
  let d1 := fold_left
              (fun d oldLocation =>
                 RDFDatastore.removeTriple d player mudVocab.location oldLocation None)
              oldLocations w.(store) in
  with_store w (RDFDatastore.addTriple d1 player mudVocab.location newRoom None).

Definition addToInventory (w : t) (playerId itemId : string) : t :=
  let player := entityUri playerId in
  let item := entityUri itemId in
  let locations := RDFDatastore.getObjects w.(store) item mudVocab.location None in
  let d1 := fold_left
              (fun d location =>
                 let d' := RDFDatastore.removeTriple d item mudVocab.location
                             location None in
                 RDFDatastore.removeTriple d' location mudVocab.contains item None)
              locations w.(store) in
  let d2 := RDFDatastore.addTriple d1 player mudVocab.inventory item None in
  let d3 := RDFDatastore.addTriple d2 item mudVocab.location player None in
  with_store w d3.

Definition removeFromInventory (w : t) (playerId itemId : string) : t :=
  let player := entityUri playerId in
  let item := entityUri itemId in
  let d1 := RDFDatastore.removeTriple w.(store) player mudVocab.inventory item None in
  let d2 := RDFDatastore.removeTriple d1 item mudVocab.location player None in
  with_store w d2.

Definition getPlayerInventory (w : t) (playerId : string) : list string :=
  let player := entityUri playerId in
  let items := RDFDatastore.getObjects w.(store) player mudVocab.inventory None in
  nodeIds items.

Definition dropItem (w : t) (playerId itemId : string) : t :=
  match getPlayerLocation w playerId with
  | None => w
  | Some EmptyString => w
  | Some playerLocation =>
      let w1 := removeFromInventory w playerId itemId in
      placeItem w1 itemId playerLocation
  end.

Definition getStore (w : t) : RDFDatastore.t := w.(store).

End World.
End MudWorld.

(** ** mud/CommandProcessor.ts *)

Record CommandResult : Type := mkResult {
  success : bool;
  message : string
}.

(** The handler classes of the file, which are all the handlers the file
    itself registers: the classes and the [Command] interface are not
    exported.  A [DirectionCommand] carries its name and direction; its
    [goCommand] is the one [GoCommand]. *)
Inductive Command : Type :=
| LookCommand
| GoCommand
| DirectionCommand (name : string) (direction : ExitDirection)
| TakeCommand
| DropCommand
| InventoryCommand
| HelpCommand.

Definition Command_eq_dec (a b : Command) : {a = b} + {a <> b}.
Proof. decide equality; [apply ExitDirection_eq_dec | apply string_dec]. Defined.

Definition command_name (c : Command) : string :=
  match c with
  | LookCommand => "look"
  | GoCommand => "go"
  | DirectionCommand name _ => name
  | TakeCommand => "take"
  | DropCommand => "drop"
  | InventoryCommand => "inventory"
  | HelpCommand => "help"
  end.

Definition command_aliases (c : Command) : list string :=
  match c with
  | LookCommand => ["l"]
  | GoCommand => []
  | DirectionCommand _ _ => []
  | TakeCommand => ["get"; "pickup"]
  | DropCommand => []
  | InventoryCommand => ["inv"; "i"]
  | HelpCommand => ["?"; "commands"]
  end.

Definition command_description (c : Command) : string :=
  match c with
  | LookCommand => "Look around the current room"
  | GoCommand => "Move in a direction (go <direction>)"
  | DirectionCommand _ direction => "Move " +:+ direction_name direction
  | TakeCommand => "Pick up an item (take <item>)"
  | DropCommand => "Drop an item from your inventory (drop <item>)"
  | InventoryCommand => "Show your inventory"
  | HelpCommand => "Show this help message"
  end.

(** [Map.prototype.set] on a map kept in insertion order. *)
Fixpoint map_set {V} (m : list (string * V)) (k : string) (v : V)
  : list (string * V) :=
  match m with
  | [] => [(k, v)]
  | (k', v') :: rest =>
      if String.eqb k' k then (k', v) :: rest else (k', v') :: map_set rest k v
  end.

(** [Map.prototype.get] *)
Fixpoint map_get {V} (m : list (string * V)) (k : string) : option V :=
  match m with
  | [] => None
  | (k', v) :: rest => if String.eqb k' k then Some v else map_get rest k
  end.

(** The own keys of [directionMap] in [GoCommand.execute]. *)
Definition directionMap (k : string) : option ExitDirection :=
  if String.eqb k "n" then Some north
  else if String.eqb k "s" then Some south
  else if String.eqb k "e" then Some east
  else if String.eqb k "w" then Some west
  else if String.eqb k "u" then Some up
  else if String.eqb k "d" then Some down
  else if String.eqb k "north" then Some north
  else if String.eqb k "south" then Some south
  else if String.eqb k "east" then Some east
  else if String.eqb k "west" then Some west
  else if String.eqb k "up" then Some up
  else if String.eqb k "down" then Some down
  else None.

(** [directionMap] is an object literal, and [directionMap[direction]]
    also finds what every object inherits.  Of the inherited names the two
    written in lower case are [constructor] and [__proto__]; their values
    are objects, which are truthy, and this is how a template prints
    them. *)
Definition inheritedProperty (k : string) : option string :=
  if String.eqb k "constructor" then Some "function Object() { [native code] }"
  else if String.eqb k "__proto__" then Some "[object Object]"
  else None.

(** What [processCommand] decides before any handler runs. *)
Inductive Dispatch : Type :=
| NoInput
| UnknownCommand (commandName : string)
| Handler (command : Command) (args : list string).

Module CommandProcessor.
Section Processor.
Context {N3 : N3Store}.

(** The [commands] map of a processor. *)
Definition t : Type := list (string * Command).

Definition registerCommand (commands : t) (command : Command) : t :=
  fold_left (fun m alias => map_set m (Js.toLowerCase alias) command)
            (command_aliases command)
            (map_set commands (Js.toLowerCase (command_name command)) command).

Definition registerDefaultCommands (commands : t) : t :=
  let c1 := registerCommand commands LookCommand in
  let c2 := registerCommand c1 GoCommand in
  let directions :=
    [("n", north); ("s", south); ("e", east); ("w", west); ("u", up);
     ("d", down); ("north", north); ("south", south); ("east", east);
     ("west", west); ("up", up); ("down", down)] in
  let c3 := fold_left
              (fun m ad => registerCommand m (DirectionCommand (fst ad) (snd ad)))
              directions c2 in
  let c4 := registerCommand c3 TakeCommand in
  let c5 := registerCommand c4 DropCommand in
  let c6 := registerCommand c5 InventoryCommand in
  registerCommand c6 HelpCommand.

Definition new : t := registerDefaultCommands [].

(** The distinct handlers, in the order of the map's values. *)
Definition getCommands (commands : t) : list Command :=
  Js.to_set Command_eq_dec (map snd commands).

Definition fail (m : string) : CommandResult := mkResult false m.
Definition ok (m : string) : CommandResult := mkResult true m.

(** The list part shared by [look] and [inventory]. *)
Definition listItems (w : MudWorld.t) (items : list string) (m : string)
  : string :=
  fold_left
    (fun acc itemId =>
       acc +:+ Js.nl +:+ "  - " +:+ Js.show (MudWorld.getItemName w itemId))
    items m.

Definition LookCommand_execute (w : MudWorld.t) (playerId : string)
    (args : list string) : CommandResult :=
  match MudWorld.getPlayerLocation w playerId with
  | None | Some EmptyString => fail "You are nowhere!"
  | Some roomId =>
      let roomName := MudWorld.getRoomName w roomId in
      let roomDesc := MudWorld.getRoomDescription w roomId in
      let exits := MudWorld.getRoomExits w roomId in
      let items := MudWorld.getRoomItems w roomId in
      let underline :=
        Js.repeat "=" (match roomName with
                       | Some n => String.length n
                       | None => 0
                       end) in
      let m0 := Js.nl +:+ Js.show roomName +:+ Js.nl +:+ underline +:+ Js.nl
                +:+ Js.show roomDesc +:+ Js.nl in
      let m1 := match exits with
                | _ :: _ =>
                    m0 +:+ Js.nl +:+ "Exits: "
                    +:+ Js.join ", " (map (fun e => direction_name (fst e)) exits)
                | [] => m0 +:+ Js.nl +:+ "There are no obvious exits."
                end in
      let m2 := match items with
                | _ :: _ => listItems w items (m1 +:+ Js.nl +:+ Js.nl +:+ "You see:")
                | [] => m1
                end in
      ok m2
  end.

Definition moveInDirection (w : MudWorld.t) (playerId : string)
    (direction : ExitDirection) : MudWorld.t * CommandResult :=
  match MudWorld.getPlayerLocation w playerId with
  | None | Some EmptyString => (w, fail "You are nowhere!")
  | Some currentRoomId =>
      let exits := MudWorld.getRoomExits w currentRoomId in
      match MudWorld.exits_get exits direction with
      | None | Some EmptyString =>
          (w, fail ("You can't go " +:+ direction_name direction +:+ " from here."))
      | Some targetRoomId =>
          let w1 := MudWorld.movePlayer w playerId targetRoomId in
          let lookResult := LookCommand_execute w1 playerId [] in
          (w1, ok ("You go " +:+ direction_name direction +:+ "." +:+ Js.nl
                   +:+ lookResult.(message)))
      end
  end.

Definition GoCommand_execute (w : MudWorld.t) (playerId : string)
    (args : list string) : MudWorld.t * CommandResult :=
  match MudWorld.getPlayerLocation w playerId with
  | None | Some EmptyString => (w, fail "You are nowhere!")
  | Some _ =>
      match args with
      | [] =>
          (w, fail "Go where? Please specify a direction (north, south, east, west, up, down).")
      | a :: _ =>
          let direction := Js.toLowerCase a in
          match directionMap direction with
          | Some fullDirection => moveInDirection w playerId fullDirection
          | None =>
              match inheritedProperty direction with
              | Some shown =>
                  (* [moveInDirection] with a value that is no key of the
                     map of exits *)
                  (w, fail ("You can't go " +:+ shown +:+ " from here."))
              | None =>
                  (w, fail ("Invalid direction: " +:+ direction
                            +:+ ". Use north, south, east, west, up, or down."))
              end
          end
      end
  end.

(** The search loop of [take] and [drop]: the first listed item whose
    name, lower-cased, includes the search text. *)
Definition nameMatches (w : MudWorld.t) (itemNameSearch itemId : string) : bool :=
  match MudWorld.getItemName w itemId with
  | Some itemName => Js.includes (Js.toLowerCase itemName) itemNameSearch
  | None => false
  end.

Fixpoint findItem (w : MudWorld.t) (itemNameSearch : string)
    (items : list string) : option string :=
  match items with
  | [] => None
  | itemId :: rest =>
      if nameMatches w itemNameSearch itemId then Some itemId
      else findItem w itemNameSearch rest
  end.

Definition TakeCommand_execute (w : MudWorld.t) (playerId : string)
    (args : list string) : MudWorld.t * CommandResult :=
  match args with
  | [] => (w, fail "Take what? Please specify an item.")
  | _ :: _ =>
      let itemNameSearch := Js.toLowerCase (Js.join " " args) in
      match MudWorld.getPlayerLocation w playerId with
      | None | Some EmptyString => (w, fail "You are nowhere!")
      | Some roomId =>
          let items := MudWorld.getRoomItems w roomId in
          match findItem w itemNameSearch items with
          | None | Some EmptyString =>
              (w, fail ("There is no " +:+ Js.dq +:+ Js.join " " args +:+ Js.dq
                        +:+ " here."))
          | Some foundItemId =>
              if negb (MudWorld.isItemPortable w foundItemId)
              then (w, fail "You can't take that.")
              else
                let itemName := MudWorld.getItemName w foundItemId in
                let w1 := MudWorld.addToInventory w playerId foundItemId in
                (w1, ok ("You take the " +:+ Js.show itemName +:+ "."))
          end
      end
  end.

Definition DropCommand_execute (w : MudWorld.t) (playerId : string)
    (args : list string) : MudWorld.t * CommandResult :=
  match args with
  | [] => (w, fail "Drop what? Please specify an item.")
  | _ :: _ =>
      let itemNameSearch := Js.toLowerCase (Js.join " " args) in
      let inventory := MudWorld.getPlayerInventory w playerId in
      match findItem w itemNameSearch inventory with
      | None | Some EmptyString =>
          (w, fail ("You don't have " +:+ Js.dq +:+ Js.join " " args +:+ Js.dq
                    +:+ " in your inventory."))
      | Some foundItemId =>
          let itemName := MudWorld.getItemName w foundItemId in
          let w1 := MudWorld.dropItem w playerId foundItemId in
          (w1, ok ("You drop the " +:+ Js.show itemName +:+ "."))
      end
  end.

Definition InventoryCommand_execute (w : MudWorld.t) (playerId : string)
    (args : list string) : CommandResult :=
  let inventory := MudWorld.getPlayerInventory w playerId in
  match inventory with
  | [] => ok "Your inventory is empty."
  | _ :: _ => ok (listItems w inventory "You are carrying:")
  end.

Definition HelpCommand_execute (commands : t) : CommandResult :=
  let m :=
    fold_left
      (fun acc command =>
         let line0 := "  " +:+ command_name command in
         let line1 := match command_aliases command with
                      | _ :: _ =>
                          line0 +:+ " (" +:+ Js.join ", " (command_aliases command)
                          +:+ ")"
                      | [] => line0
                      end in
         let line2 := line1 +:+ " - " +:+ command_description command in
         acc +:+ line2 +:+ Js.nl)
      (getCommands commands) ("Available commands:" +:+ Js.nl) in
  ok m.

(** [command.execute(world, playerId, args)], by handler class. *)
Definition execute (commands : t) (command : Command) (w : MudWorld.t)
    (playerId : string) (args : list string) : MudWorld.t * CommandResult :=
  match command with
  | LookCommand => (w, LookCommand_execute w playerId args)
  | GoCommand => GoCommand_execute w playerId args
  | DirectionCommand _ direction => moveInDirection w playerId direction
  | TakeCommand => TakeCommand_execute w playerId args
  | DropCommand => DropCommand_execute w playerId args
  | InventoryCommand => (w, InventoryCommand_execute w playerId args)
  | HelpCommand => (w, HelpCommand_execute commands)
  end.

(** The part of [processCommand] before the handler is called. *)
Definition dispatch (commands : t) (input : string) : Dispatch :=
  let trimmed := Js.trim input in
  match trimmed with
  | EmptyString => NoInput
  | _ =>
      let parts := Js.split_ws trimmed in
      let commandName := Js.toLowerCase (hd EmptyString parts) in
      let args := tl parts in
      match map_get commands commandName with
      | None => UnknownCommand commandName
      | Some command => Handler command args
      end
  end.

Definition processCommand (commands : t) (w : MudWorld.t) (playerId : string)
    (input : string) : MudWorld.t * CommandResult :=
  match dispatch commands input with
  | NoInput => (w, fail "Please enter a command.")
  | UnknownCommand commandName =>
      (w, fail ("Unknown command: " +:+ commandName
                +:+ ". Type 'help' for a list of commands."))
  | Handler command args => execute commands command w playerId args
  end.

End Processor.
End CommandProcessor.

(** ** Well-formed identifiers and stores

    An entity identifier as [generateId] builds it has at least one
    character and no [/]; the entity model writes every statement to the
    default graph. *)

Fixpoint no_slash (s : string) : bool :=
  match s with
  | EmptyString => true
  | String c s' => negb (Ascii.eqb c "/"%char) && no_slash s'
  end.

Definition valid_id (id : string) : bool :=
  negb (String.eqb id EmptyString) && no_slash id.

Definition in_default_graph (q : Quad) : bool := term_eqb (graph q) DefaultGraph.

Definition triples_only {N3 : N3Store} (d : RDFDatastore.t) : bool :=
  forallb in_default_graph (RDFDatastore.iterate d).

(** A node naming an entity: the game base path followed by a well-formed
    identifier. *)
Definition is_entity_node (o : Term) : bool :=
  match o with
  | NamedNode iri =>
      match MudWorld.lastSegment iri with
      | Some id =>
          valid_id id && String.eqb iri ("http://example.org/game/" +:+ id)
      | None => false
      end
  | _ => false
  end.

(** The parser's side of the callback protocol: one call per decoded
    quad, then a single last call that carries either an error or, at the
    end of the input, the prefixes.  [ParserRun evs qs last] reads the
    decoded quads and the last call off a sequence of calls. *)
Inductive ParserRun :
  list ParseEvent -> list Quad -> string + option (gmap string string) -> Prop :=
| run_error e q pf : ParserRun [mkEvent (Some e) q pf] [] (inl e)
| run_end pf : ParserRun [mkEvent None None pf] [] (inr pf)
| run_quad q pf evs qs last :
    ParserRun evs qs last ->
    ParserRun (mkEvent None (Some q) pf :: evs) (q :: qs) last.

(** The worlds the entity model can build with its own methods. *)
Inductive Built {N3 : N3Store} : MudWorld.t -> Prop :=
| built_new : Built MudWorld.new
| built_createRoom w name description :
    Built w -> Built (fst (MudWorld.createRoom w name description))
| built_connectRooms w fromRoomId direction toRoomId :
    Built w -> Built (MudWorld.connectRooms w fromRoomId direction toRoomId)
| built_createItem w name description portable :
    Built w -> Built (fst (MudWorld.createItem w name description portable))
| built_placeItem w itemId roomId :
    Built w -> Built (MudWorld.placeItem w itemId roomId)
| built_createPlayer w name startingRoomId :
    Built w -> Built (fst (MudWorld.createPlayer w name startingRoomId))
| built_movePlayer w playerId roomId :
    Built w -> Built (MudWorld.movePlayer w playerId roomId)
| built_addToInventory w playerId itemId :
    Built w -> Built (MudWorld.addToInventory w playerId itemId)
| built_removeFromInventory w playerId itemId :
    Built w -> Built (MudWorld.removeFromInventory w playerId itemId)
| built_dropItem w playerId itemId :
    Built w -> Built (MudWorld.dropItem w playerId itemId).

(** * Properties *)

(** ** Equality tests *)

Lemma term_eqb_eq (a b : Term) : term_eqb a b = true <-> a = b.
Proof. unfold term_eqb. destruct (Term_eq_dec a b); split; congruence. Qed.

Lemma quad_eqb_eq (a b : Quad) : quad_eqb a b = true <-> a = b.
Proof. unfold quad_eqb. destruct (Quad_eq_dec a b); split; congruence. Qed.

Lemma quad_eqb_refl (a : Quad) : quad_eqb a a = true.
Proof. now apply quad_eqb_eq. Qed.

Lemma quad_eqb_neq (a b : Quad) : quad_eqb a b = false <-> a <> b.
Proof. unfold quad_eqb. destruct (Quad_eq_dec a b); split; congruence. Qed.

Lemma quad_eqb_sym (a b : Quad) : quad_eqb a b = quad_eqb b a.
Proof.
  unfold quad_eqb.
  destruct (Quad_eq_dec a b), (Quad_eq_dec b a); congruence.
Qed.

Lemma bool_iff (a b : bool) : (a = true <-> b = true) -> a = b.
Proof. destruct a, b; intuition congruence. Qed.

Lemma matches_all (q : Quad) : matches None None None None q = true.
Proof. reflexivity. Qed.

Lemma matches_sp (s p : Term) (q : Quad) :
  matches (Some s) (Some p) None None q = true <->
  subject q = s /\ predicate q = p.
Proof.
  unfold matches; simpl. rewrite !andb_true_r, andb_true_iff, !term_eqb_eq.
  intuition congruence.
Qed.

(** ** The list store meets the contract *)

Module ListStoreFacts.
Import ListStoreImpl.

Lemma has_In (st : t) (q : Quad) : has st q = true <-> In q st.
Proof.
  unfold has. rewrite existsb_exists. split.
  - intros (x & Hx & Heq). apply quad_eqb_eq in Heq. now subst.
  - intros Hq. exists q. split; [assumption | apply quad_eqb_refl].
Qed.

Lemma has_false (st : t) (q : Quad) : has st q = false <-> ~ In q st.
Proof.
  rewrite <- has_In. destruct (has st q); split; congruence.
Qed.

Lemma has_add (st : t) (q q' : Quad) :
  has (add q st) q' = quad_eqb q q' || has st q'.
Proof.
  apply bool_iff. rewrite orb_true_iff, quad_eqb_eq, !has_In.
  unfold add. destruct (has st q) eqn:Hq.
  - apply has_In in Hq. split; [tauto | intros [<- | H]; assumption].
  - rewrite in_app_iff. simpl. intuition congruence.
Qed.

Lemma has_remove (st : t) (q q' : Quad) :
  has (remove q st) q' = negb (quad_eqb q q') && has st q'.
Proof.
  apply bool_iff. rewrite andb_true_iff, negb_true_iff, quad_eqb_neq, !has_In.
  unfold remove. destruct (has st q) eqn:Hq.
  - rewrite filter_In, negb_true_iff, quad_eqb_neq. tauto.
  - apply has_false in Hq. split; [| tauto].
    intros H. split; [intros -> | ]; tauto.
Qed.

Lemma add_present (st : t) (q : Quad) : has st q = true -> add q st = st.
Proof. intros H. unfold add. now rewrite H. Qed.

Lemma remove_absent (st : t) (q : Quad) : has st q = false -> remove q st = st.
Proof. intros H. unfold remove. now rewrite H. Qed.

Lemma get_NoDup (st : t) s p o g : List.NoDup (get s p o g st).
Proof. unfold get. apply List.NoDup_filter, NoDup_nodup. Qed.

Lemma get_spec (st : t) s p o g q :
  In q (get s p o g st) <-> has st q = true /\ matches s p o g q = true.
Proof. unfold get. now rewrite filter_In, nodup_In, has_In. Qed.

Lemma nodup_snoc (st : t) (q : Quad) :
  ~ In q st -> nodup Quad_eq_dec (st ++ [q])%list = (nodup Quad_eq_dec st ++ [q])%list.
Proof.
  induction st as [| a st IH]; intros Hq; simpl; [reflexivity |].
  assert (Ha : a <> q) by (intros ->; apply Hq; now left).
  assert (Hq' : ~ In q st) by (intros H; apply Hq; now right).
  destruct (in_dec Quad_eq_dec a (st ++ [q])%list) as [i | n],
           (in_dec Quad_eq_dec a st) as [i' | n'].
  - now apply IH.
  - exfalso. apply in_app_iff in i as [i | [i | []]]; [tauto | congruence].
  - exfalso. apply n, in_app_iff. now left.
  - simpl. now rewrite IH.
Qed.

Lemma nodup_filter (f : Quad -> bool) (st : t) :
  nodup Quad_eq_dec (List.filter f st) = List.filter f (nodup Quad_eq_dec st).
Proof.
  induction st as [| a st IH]; simpl; [reflexivity |].
  destruct (f a) eqn:Fa; simpl.
  - destruct (in_dec Quad_eq_dec a (List.filter f st)) as [i | n],
             (in_dec Quad_eq_dec a st) as [i' | n']; simpl.
    + assumption.
    + exfalso. apply filter_In in i. tauto.
    + exfalso. apply n, filter_In. tauto.
    + now rewrite Fa, IH.
  - destruct (in_dec Quad_eq_dec a st) as [i' | n']; simpl;
      [| rewrite Fa]; assumption.
Qed.

Lemma filter_filter_agree (f g : Quad -> bool) (l : list Quad) :
  (forall x, In x l -> f x = true -> g x = true) ->
  List.filter f (List.filter g l) = List.filter f l.
Proof.
  induction l as [| a l IH]; intros H; simpl; [reflexivity |].
  destruct (g a) eqn:Ga; simpl.
  - destruct (f a); rewrite IH; auto; intros; apply H; auto; now right.
  - destruct (f a) eqn:Fa.
    + rewrite (H a) in Ga; [discriminate | now left | assumption].
    + apply IH. intros; apply H; auto; now right.
Qed.

Lemma get_add_other (st : t) s p o g q :
  matches s p o g q = false -> get s p o g (add q st) = get s p o g st.
Proof.
  intros Hm. unfold get, add. destruct (has st q) eqn:Hq; [reflexivity |].
  apply has_false in Hq. rewrite (nodup_snoc _ _ Hq), List.filter_app. simpl.
  rewrite Hm. apply app_nil_r.
Qed.

Lemma get_remove_other (st : t) s p o g q :
  matches s p o g q = false -> get s p o g (remove q st) = get s p o g st.
Proof.
  intros Hm. unfold get, remove. destruct (has st q) eqn:Hq; [| reflexivity].
  rewrite nodup_filter. apply filter_filter_agree.
  intros x _ Hx. apply negb_true_iff, quad_eqb_neq. intros ->. congruence.
Qed.

Lemma filter_true {A} (l : list A) : List.filter (fun _ => true) l = l.
Proof. induction l; simpl; congruence. Qed.

Lemma size_spec (st : t) : size st = length (get None None None None st).
Proof.
  unfold size, get.
  replace (matches None None None None) with (fun _ : Quad => true) by reflexivity.
  now rewrite filter_true.
Qed.

End ListStoreFacts.

Definition ListStore : N3Store :=
  {| Store := ListStoreImpl.t;
     emptyStore := [];
     addQuad := ListStoreImpl.add;
     removeQuad := ListStoreImpl.remove;
     holds := ListStoreImpl.has;
     getQuads := ListStoreImpl.get;
     count := ListStoreImpl.size;
     holds_empty := fun _ => eq_refl;
     holds_addQuad := ListStoreFacts.has_add;
     holds_removeQuad := ListStoreFacts.has_remove;
     addQuad_present := ListStoreFacts.add_present;
     removeQuad_absent := ListStoreFacts.remove_absent;
     getQuads_NoDup := ListStoreFacts.get_NoDup;
     getQuads_spec := ListStoreFacts.get_spec;
     getQuads_addQuad_other := ListStoreFacts.get_add_other;
     getQuads_removeQuad_other := ListStoreFacts.get_remove_other;
     count_spec := ListStoreFacts.size_spec |}.

(** ** Reasoning about any store that meets the contract *)

Section StoreFacts.
Context {N3 : N3Store}.

Lemma holds_iterate (d : RDFDatastore.t) (q : Quad) :
  In q (RDFDatastore.iterate d) <-> holds (RDFDatastore.store d) q = true.
Proof.
  unfold RDFDatastore.iterate. rewrite getQuads_spec, matches_all. tauto.
Qed.

Lemma quad_opt (s p o : Term) (g : option Term) :
  match g with
  | Some gr => quad s p o (Some gr)
  | None => quad s p o None
  end = quad s p o g.
Proof. now destruct g. Qed.

Lemma holds_addTriple (d : RDFDatastore.t) s p o g q :
  holds (RDFDatastore.store (RDFDatastore.addTriple d s p o g)) q
  = quad_eqb (quad s p o g) q || holds (RDFDatastore.store d) q.
Proof. unfold RDFDatastore.addTriple; simpl. now rewrite quad_opt, holds_addQuad. Qed.

Lemma holds_removeTriple (d : RDFDatastore.t) s p o g q :
  holds (RDFDatastore.store (RDFDatastore.removeTriple d s p o g)) q
  = negb (quad_eqb (quad s p o g) q) && holds (RDFDatastore.store d) q.
Proof.
  unfold RDFDatastore.removeTriple; simpl. now rewrite quad_opt, holds_removeQuad.
Qed.

Lemma holds_addTriple_iff (d : RDFDatastore.t) s p o g q :
  holds (RDFDatastore.store (RDFDatastore.addTriple d s p o g)) q = true <->
  q = quad s p o g \/ holds (RDFDatastore.store d) q = true.
Proof.
  rewrite holds_addTriple, orb_true_iff, quad_eqb_eq. intuition congruence.
Qed.

Lemma holds_removeTriple_iff (d : RDFDatastore.t) s p o g q :
  holds (RDFDatastore.store (RDFDatastore.removeTriple d s p o g)) q = true <->
  q <> quad s p o g /\ holds (RDFDatastore.store d) q = true.
Proof.
  rewrite holds_removeTriple, andb_true_iff, negb_true_iff, quad_eqb_neq.
  intuition congruence.
Qed.

Lemma holds_fold_addQuad (qs : list Quad) (st : Store) (q : Quad) :
  holds (fold_left (fun st q => addQuad q st) qs st) q = true <->
  In q qs \/ holds st q = true.
Proof.
  revert st. induction qs as [| x qs IH]; intros st; simpl.
  - tauto.
  - rewrite IH, holds_addQuad, orb_true_iff, quad_eqb_eq. intuition congruence.
Qed.

Lemma holds_fold_removeQuad (qs : list Quad) (st : Store) (q : Quad) :
  holds (fold_left (fun st q => removeQuad q st) qs st) q = true <->
  ~ In q qs /\ holds st q = true.
Proof.
  revert st. induction qs as [| x qs IH]; intros st; simpl.
  - tauto.
  - rewrite IH, holds_removeQuad, andb_true_iff, negb_true_iff, quad_eqb_neq.
    intuition congruence.
Qed.

(** An object is listed by [getObjects] without a graph exactly when the
    statement is held in some graph. *)
Lemma In_getObjects (d : RDFDatastore.t) (s p o : Term) :
  In o (RDFDatastore.getObjects d s p None) <->
  exists g, holds (RDFDatastore.store d) (mkQuad s p o g) = true.
Proof.
  unfold RDFDatastore.getObjects, RDFDatastore.match_; simpl.
  rewrite in_map_iff. split.
  - intros (q & <- & Hq). apply getQuads_spec in Hq as [Hh Hm].
    apply matches_sp in Hm as [<- <-]. exists (graph q). now destruct q.
  - intros [g Hg]. exists (mkQuad s p o g). split; [reflexivity |].
    apply getQuads_spec. split; [assumption | now apply matches_sp].
Qed.

Lemma triples_only_graph (d : RDFDatastore.t) (q : Quad) :
  triples_only d = true -> holds (RDFDatastore.store d) q = true ->
  graph q = DefaultGraph.
Proof.
  unfold triples_only. rewrite forallb_forall. intros Hall Hq.
  apply holds_iterate in Hq. apply Hall in Hq. now apply term_eqb_eq in Hq.
Qed.

Lemma In_getObjects_triple (d : RDFDatastore.t) (s p o : Term) :
  triples_only d = true ->
  (In o (RDFDatastore.getObjects d s p None) <->
   RDFDatastore.has d s p o None = true).
Proof.
  intros Ht. rewrite In_getObjects. unfold RDFDatastore.has, quad. split.
  - intros [g Hg]. pose proof (triples_only_graph _ _ Ht Hg) as E.
    simpl in E. now subst g.
  - intros H. now exists DefaultGraph.
Qed.

(** A duplicate-free list whose members all equal [a] is [[a]]. *)
Lemma NoDup_all_eq {A} (l : list A) (a : A) :
  List.NoDup l -> In a l -> (forall x, In x l -> x = a) -> l = [a].
Proof.
  intros Hnd Hin Hall. destruct l as [| x l]; [contradiction |].
  assert (x = a) by (apply Hall; now left). subst x.
  destruct l as [| y l]; [reflexivity |].
  assert (y = a) by (apply Hall; right; now left). subst y.
  inversion Hnd as [| ? ? Hn _]. exfalso. apply Hn. now left.
Qed.

(** When a single statement matches, [getObjects] is its object alone. *)
Lemma getObjects_single (d : RDFDatastore.t) (s p o : Term) (g : Term) :
  holds (RDFDatastore.store d) (mkQuad s p o g) = true ->
  (forall o' g', holds (RDFDatastore.store d) (mkQuad s p o' g') = true ->
                 o' = o /\ g' = g) ->
  RDFDatastore.getObjects d s p None = [o].
Proof.
  intros Hq Hu. unfold RDFDatastore.getObjects, RDFDatastore.match_; simpl.
  rewrite (NoDup_all_eq _ (mkQuad s p o g)); [reflexivity | apply getQuads_NoDup | |].
  - apply getQuads_spec. split; [assumption | now apply matches_sp].
  - intros x Hx. apply getQuads_spec in Hx as [Hh Hm].
    apply matches_sp in Hm as [Es Ep]. destruct x as [xs xp xo xg]; simpl in *.
    subst xs xp. destruct (Hu _ _ Hh) as [-> ->]. reflexivity.
Qed.

Lemma getObjects_nil (d : RDFDatastore.t) (s p : Term) :
  RDFDatastore.getObjects d s p None = [] <->
  forall o g, holds (RDFDatastore.store d) (mkQuad s p o g) = false.
Proof.
  split.
  - intros E o g. destruct (holds _ _) eqn:H; [| reflexivity].
    assert (In o (RDFDatastore.getObjects d s p None))
      by (apply In_getObjects; eauto).
    rewrite E in H0. contradiction.
  - intros H. destruct (RDFDatastore.getObjects d s p None) as [| o l] eqn:E;
      [reflexivity |].
    assert (In o (RDFDatastore.getObjects d s p None)) by (rewrite E; now left).
    apply In_getObjects in H0 as [g Hg]. rewrite H in Hg. discriminate.
Qed.

Lemma matches_sp_false (s p s' p' o : Term) (g : option Term) :
  s' <> s \/ p' <> p ->
  matches (Some s') (Some p') None None (quad s p o g) = false.
Proof.
  intros H. destruct (matches _ _ _ _ _) eqn:E; [| reflexivity].
  apply matches_sp in E as [E1 E2]. simpl in E1, E2. intuition congruence.
Qed.

(** Statements about another subject or predicate do not disturb a
    listing of objects. *)
Lemma getObjects_addTriple_other (d : RDFDatastore.t) s p o g s' p' :
  s' <> s \/ p' <> p ->
  RDFDatastore.getObjects (RDFDatastore.addTriple d s p o g) s' p' None
  = RDFDatastore.getObjects d s' p' None.
Proof.
  intros H. unfold RDFDatastore.getObjects, RDFDatastore.match_,
    RDFDatastore.addTriple; simpl.
  rewrite quad_opt, getQuads_addQuad_other; [reflexivity |].
  now apply matches_sp_false.
Qed.

Lemma getObjects_removeTriple_other (d : RDFDatastore.t) s p o g s' p' :
  s' <> s \/ p' <> p ->
  RDFDatastore.getObjects (RDFDatastore.removeTriple d s p o g) s' p' None
  = RDFDatastore.getObjects d s' p' None.
Proof.
  intros H. unfold RDFDatastore.getObjects, RDFDatastore.match_,
    RDFDatastore.removeTriple; simpl.
  rewrite quad_opt, getQuads_removeQuad_other; [reflexivity |].
  now apply matches_sp_false.
Qed.

Lemma triples_only_intro (d : RDFDatastore.t) :
  (forall q, holds (RDFDatastore.store d) q = true -> graph q = DefaultGraph) ->
  triples_only d = true.
Proof.
  intros H. unfold triples_only. apply forallb_forall. intros q Hq.
  apply holds_iterate in Hq. apply term_eqb_eq. auto.
Qed.

Lemma triples_only_addTriple (d : RDFDatastore.t) s p o :
  triples_only d = true ->
  triples_only (RDFDatastore.addTriple d s p o None) = true.
Proof.
  intros Ht. apply triples_only_intro. intros q Hq.
  apply holds_addTriple_iff in Hq as [-> | Hq]; [reflexivity |].
  now apply (triples_only_graph d).
Qed.

Lemma triples_only_removeTriple (d : RDFDatastore.t) s p o g :
  triples_only d = true ->
  triples_only (RDFDatastore.removeTriple d s p o g) = true.
Proof.
  intros Ht. apply triples_only_intro. intros q Hq.
  apply holds_removeTriple_iff in Hq as [_ Hq].
  now apply (triples_only_graph d).
Qed.

End StoreFacts.

(** ** String facts *)

Section StringFacts.

Lemma split_no_sep (s : string) :
  no_slash s = true -> Js.split "/"%char s = [s].
Proof.
  induction s as [| c s IH]; simpl; [reflexivity |].
  rewrite andb_true_iff, negb_true_iff. intros [Hc Hs].
  now rewrite Hc, IH.
Qed.

(** The last path segment of an entity URI is the identifier. *)
Lemma lastSegment_entityUri (id : string) :
  no_slash id = true ->
  MudWorld.lastSegment (value (MudWorld.entityUri id)) = Some id.
Proof.
  intros H. unfold MudWorld.lastSegment, MudWorld.entityUri. simpl.
  change (EmptyString +:+ id) with id.
  rewrite (split_no_sep _ H). reflexivity.
Qed.

Lemma valid_id_no_slash (id : string) : valid_id id = true -> no_slash id = true.
Proof. unfold valid_id. rewrite andb_true_iff. tauto. Qed.

Lemma valid_id_nonempty (id : string) :
  valid_id id = true -> exists c s, id = String c s.
Proof.
  unfold valid_id. destruct id as [| c s]; simpl; [discriminate | eauto].
Qed.

Lemma or_else_valid {A} (id : string) (inj : string -> A) (d : A) :
  valid_id id = true -> Js.or_else (Some id) inj d = inj id.
Proof. intros H. apply valid_id_nonempty in H as (c & s & ->). reflexivity. Qed.

Lemma entityUri_inj (a b : string) :
  MudWorld.entityUri a = MudWorld.entityUri b -> a = b.
Proof.
  unfold MudWorld.entityUri. simpl. intros H. injection H as H. exact H.
Qed.

Lemma nodeIds_entityUri (id : string) (nodes : list Term) :
  valid_id id = true -> In (MudWorld.entityUri id) nodes ->
  In id (MudWorld.nodeIds nodes).
Proof.
  intros Hv Hin. unfold MudWorld.nodeIds. apply in_map_iff.
  exists (MudWorld.entityUri id). split; [| assumption].
  rewrite (lastSegment_entityUri _ (valid_id_no_slash _ Hv)).
  now apply or_else_valid.
Qed.

Lemma trimStart_all_ws (s : string) :
  Js.all_ws s = true -> Js.trimStart s = EmptyString.
Proof.
  induction s as [| c s IH]; simpl; [reflexivity |].
  rewrite andb_true_iff. intros [Hc Hs]. now rewrite Hc, IH.
Qed.

Lemma trim_all_ws (s : string) : Js.all_ws s = true -> Js.trim s = EmptyString.
Proof. intros H. unfold Js.trim. now rewrite trimStart_all_ws. Qed.

Lemma no_slash_app (a b : string) :
  no_slash (a +:+ b) = no_slash a && no_slash b.
Proof.
  induction a as [| c a IH]; simpl; [reflexivity |].
  now rewrite IH, andb_assoc.
Qed.

Lemma no_slash_digits (d : Decimal.uint) :
  no_slash (NilEmpty.string_of_uint d) = true.
Proof. induction d; simpl; auto. Qed.

Lemma no_slash_num (n : nat) : no_slash (Js.num n) = true.
Proof.
  unfold Js.num, NilZero.string_of_uint.
  destruct (Nat.to_uint n) eqn:E; try reflexivity;
    rewrite <- E; apply no_slash_digits.
Qed.

(** The identifiers [generateId] hands out are well formed. *)
Lemma generateId_valid {N3 : N3Store} (w : MudWorld.t) (type : string) :
  no_slash type = true -> valid_id (snd (MudWorld.generateId w type)) = true.
Proof.
  intros H. unfold MudWorld.generateId, valid_id; simpl.
  rewrite !no_slash_app, H, no_slash_num. simpl.
  destruct type; reflexivity.
Qed.

End StringFacts.

(** ** The datastore facade *)

Module RDFDatastoreFacts.
Section Facts.
Context {N3 : N3Store}.

(** C9: adding a statement twice gives the store that adding it once gives,
    so [size] is the same after the second add; [has] is true right after
    [add] and false right after [remove]. *)
Theorem addTriple_idempotent (d : RDFDatastore.t) (s p o : Term)
    (g : option Term) :
  let once := RDFDatastore.addTriple d s p o g in
  let twice := RDFDatastore.addTriple once s p o g in
  twice = once /\
  RDFDatastore.size twice = RDFDatastore.size once /\
  RDFDatastore.has once s p o g = true /\
  RDFDatastore.has (RDFDatastore.removeTriple d s p o g) s p o g = false.
Proof.
  intros once twice.
  assert (Hin : RDFDatastore.has once s p o g = true).
  { unfold RDFDatastore.has, once. rewrite quad_opt, holds_addTriple.
    now rewrite quad_eqb_refl. }
  assert (E : twice = once).
  { unfold twice, RDFDatastore.addTriple at 1.
    unfold RDFDatastore.has in Hin. rewrite quad_opt in *.
    rewrite addQuad_present by exact Hin. now destruct once. }
  split; [exact E |]. split; [now rewrite E |]. split; [exact Hin |].
  unfold RDFDatastore.has. rewrite quad_opt, holds_removeTriple.
  now rewrite quad_eqb_refl.
Qed.

(** Merging the declared prefixes, entry by entry. *)
Definition mergePrefixes (d : RDFDatastore.t) (l : list (string * string))
  : RDFDatastore.t :=
  fold_left
    (fun d e => RDFDatastore.setPrefix d (fst e) (Js.string_value (snd e))) l d.

Lemma mergePrefixes_store (l : list (string * string)) (d : RDFDatastore.t) :
  RDFDatastore.store (mergePrefixes d l) = RDFDatastore.store d.
Proof.
  revert d. induction l as [| e l IH]; intros d; simpl; [reflexivity |].
  unfold mergePrefixes in *. simpl. now rewrite IH.
Qed.

Lemma mergePrefixes_other (l : list (string * string)) (d : RDFDatastore.t)
    (k : string) :
  k ∉ l.*1 ->
  RDFDatastore.prefixes (mergePrefixes d l) !! k = RDFDatastore.prefixes d !! k.
Proof.
  revert d. induction l as [| [k' u] l IH]; intros d Hk; [reflexivity |].
  rewrite fmap_cons, not_elem_of_cons in Hk. destruct Hk as [Hne Hk].
  unfold mergePrefixes in *. simpl. rewrite IH by exact Hk. simpl.
  now rewrite lookup_insert_ne.
Qed.

Lemma mergePrefixes_declared (l : list (string * string)) (d : RDFDatastore.t)
    (k uri : string) :
  NoDup l.*1 -> (k, uri) ∈ l ->
  RDFDatastore.prefixes (mergePrefixes d l) !! k = Some Js.undefined.
Proof.
  revert d. induction l as [| [k' u] l IH]; intros d Hnd Hin.
  - now apply elem_of_nil in Hin.
  - rewrite fmap_cons in Hnd. apply NoDup_cons in Hnd as [Hfresh Hnd].
    apply elem_of_cons in Hin as [[= <- <-] | Hin].
    + unfold mergePrefixes. simpl.
      fold (mergePrefixes (RDFDatastore.setPrefix d k (Js.string_value uri)) l).
      rewrite mergePrefixes_other by exact Hfresh. simpl.
      apply lookup_insert_eq.
    + unfold mergePrefixes in *. simpl. now apply IH.
Qed.

(** What the end-of-input call commits. *)
Definition commit (d : RDFDatastore.t) (qs : list Quad)
    (pf : option (gmap string string)) : RDFDatastore.t :=
  match pf with
  | Some m => mergePrefixes (RDFDatastore.addQuads d qs) (map_to_list m)
  | None => RDFDatastore.addQuads d qs
  end.

Lemma onParse_run (evs : list ParseEvent) (qs : list Quad)
    (last : string + option (gmap string string)) :
  ParserRun evs qs last ->
  forall (d : RDFDatastore.t) (buf : list Quad),
    fold_left RDFDatastore.onParse evs (RDFDatastore.mkParse d buf Pending) =
    match last with
    | inl e => RDFDatastore.mkParse d (buf ++ qs)%list (Rejected e)
    | inr pf =>
        RDFDatastore.mkParse (commit d (buf ++ qs)%list pf) (buf ++ qs)%list Resolved
    end.
Proof.
  induction 1 as [e q pf | pf | q pf evs qs last _ IH]; intros d buf.
  - simpl. now rewrite app_nil_r.
  - simpl. rewrite app_nil_r. unfold RDFDatastore.onParse, commit; simpl.
    destruct pf; reflexivity.
  - cbn [fold_left]. unfold RDFDatastore.onParse at 2. simpl.
    rewrite IH. now rewrite <- app_assoc.
Qed.

(** C2 (what the code does): the parser calls back once per quad and then
    once with an error or with the end of the input.  If the run ends in
    an error the promise is rejected and the datastore, statements and
    prefixes, is the one before the call.  If it ends well the promise is
    resolved and the statements are the earlier ones together with every
    decoded one; but every declared prefix is registered with [undefined]
    and not with its IRI, also where the table held an IRI under that
    prefix before, because the callback reads [uri.value] from a string.
    The other entries of the table are kept. *)
Theorem parseFromString_commits
    (parser : nat -> string -> string -> list ParseEvent) (nth : nat)
    (d : RDFDatastore.t) (data : string) (format : option string)
    (qs : list Quad) (last : string + option (gmap string string)) :
  ParserRun (parser nth data (match format with Some f => f | None => "turtle" end))
            qs last ->
  let (d', promise) := RDFDatastore.parseFromString parser nth d data format in
  match last with
  | inl e => promise = Rejected e /\ d' = d
  | inr pf =>
      promise = Resolved /\
      (forall q, holds (RDFDatastore.store d') q = true <->
                 In q qs \/ holds (RDFDatastore.store d) q = true) /\
      (forall k uri, default ∅ pf !! k = Some uri ->
                     RDFDatastore.getPrefixes d' !! k = Some Js.undefined) /\
      (forall k, default ∅ pf !! k = None ->
                 RDFDatastore.getPrefixes d' !! k = RDFDatastore.getPrefixes d !! k)
  end.
Proof.
  intros Hrun. unfold RDFDatastore.parseFromString.
  rewrite (onParse_run _ _ _ Hrun). destruct last as [e | pf]; simpl.
  - auto.
  - split; [reflexivity |]. split; [| split].
    + intros q. unfold commit.
      destruct pf as [m |]; [rewrite mergePrefixes_store |];
        unfold RDFDatastore.addQuads; simpl; apply holds_fold_addQuad.
    + intros k uri E. unfold RDFDatastore.getPrefixes, commit.
      destruct pf as [m |]; simpl in E; [| now rewrite lookup_empty in E].
      apply (mergePrefixes_declared _ _ k uri).
      * apply NoDup_fst_map_to_list.
      * now apply elem_of_map_to_list.
    + intros k Hk. unfold RDFDatastore.getPrefixes, commit.
      destruct pf as [m |]; [| reflexivity]. simpl in Hk.
      rewrite mergePrefixes_other; [reflexivity |].
      intros Hin. apply list_elem_of_fmap in Hin as ([k' u] & -> & Hin).
      apply elem_of_map_to_list in Hin. simpl in Hk. congruence.
Qed.

Lemma graphNames_default_step (qs : list Quad) :
  (forall q, In q qs -> graph q = DefaultGraph) ->
  fold_left (fun graphs q =>
               if truthy (graph q)
               then Js.set_add string_dec graphs (value (graph q))
               else graphs) qs [EmptyString] = [EmptyString].
Proof.
  induction qs as [| q qs IH]; intros H; simpl; [reflexivity |].
  rewrite (H q) by now left. simpl. apply IH. intros; apply H; now right.
Qed.

Lemma graphNames_default (qs : list Quad) :
  qs <> [] -> (forall q, In q qs -> graph q = DefaultGraph) ->
  RDFDatastore.graphNames qs = [EmptyString].
Proof.
  intros Hne H. destruct qs as [| q qs]; [contradiction |].
  unfold RDFDatastore.graphNames. simpl. rewrite (H q) by now left. simpl.
  apply graphNames_default_step. intros; apply H; now right.
Qed.

(** C4 (what the code does): the graph of a statement read back from the
    store is always a term object, so the test [if (quad.graph)] never
    fails and the default graph is counted under its empty name: for a
    store that is not empty and whose statements all lack an explicit
    graph, [getStats] reports [graphCount] 1 and not 0. *)
Theorem getStats_counts_default_graph (d : RDFDatastore.t) :
  triples_only d = true ->
  RDFDatastore.size d <> 0 ->
  graphCount (RDFDatastore.getStats d) = 1 /\
  tripleCount (RDFDatastore.getStats d) = RDFDatastore.size d.
Proof.
  intros Ht Hsize. split; [| reflexivity].
  unfold RDFDatastore.getStats; simpl. rewrite graphNames_default; [reflexivity | |].
  - unfold RDFDatastore.size in Hsize. rewrite count_spec in Hsize.
    unfold RDFDatastore.iterate. intros E. now rewrite E in Hsize.
  - intros q Hq. apply holds_iterate in Hq. now apply (triples_only_graph d).
Qed.

End Facts.
End RDFDatastoreFacts.

(** ** The entity model *)

Module MudWorldFacts.
Section Facts.
Context {N3 : N3Store}.

Local Abbreviation held w q :=
  (holds (RDFDatastore.store (MudWorld.store w)) q = true).

(** The loop of [movePlayer]. *)
Lemma holds_remove_locations (player : Term) (ls : list Term)
    (d : RDFDatastore.t) (q : Quad) :
  holds (RDFDatastore.store
           (fold_left
              (fun d oldLocation =>
                 RDFDatastore.removeTriple d player mudVocab.location oldLocation None)
              ls d)) q = true <->
  holds (RDFDatastore.store d) q = true /\
  forall l, In l ls -> q <> quad player mudVocab.location l None.
Proof.
  revert d. induction ls as [| x ls IH]; intros d; simpl.
  - intuition.
  - rewrite IH, holds_removeTriple_iff. split.
    + intros [[Hne Hh] Hall]. split; [assumption |].
      intros l [<- | Hl]; auto.
    + intros [Hh Hall]. repeat split; auto.
Qed.

Lemma holds_movePlayer (w : MudWorld.t) (playerId roomId : string) (q : Quad) :
  held (MudWorld.movePlayer w playerId roomId) q <->
  q = quad (MudWorld.entityUri playerId) mudVocab.location
        (MudWorld.entityUri roomId) None \/
  (held w q /\
   forall l,
     In l (RDFDatastore.getObjects (MudWorld.store w) (MudWorld.entityUri playerId)
             mudVocab.location None) ->
     q <> quad (MudWorld.entityUri playerId) mudVocab.location l None).
Proof.
  unfold MudWorld.movePlayer, MudWorld.with_store. cbn [MudWorld.store].
  now rewrite holds_addTriple_iff, holds_remove_locations.
Qed.

(** C6: [movePlayer] removes every location statement of the player, however
    many there are, and inserts the one to the given room: afterwards the
    player's only location statement is the new one, the location query
    lists exactly one object, [getPlayerLocation] returns the room
    identifier, and no other statement of the store has changed.  The world
    is one the entity model writes (default graph only) and the room
    identifier is well formed. *)
Theorem movePlayer_single_location (w : MudWorld.t) (playerId roomId : string) :
  triples_only (MudWorld.store w) = true ->
  valid_id roomId = true ->
  let w' := MudWorld.movePlayer w playerId roomId in
  let player := MudWorld.entityUri playerId in
  (forall o g, held w' (mkQuad player mudVocab.location o g) <->
               o = MudWorld.entityUri roomId /\ g = DefaultGraph) /\
  RDFDatastore.getObjects (MudWorld.store w') player mudVocab.location None
    = [MudWorld.entityUri roomId] /\
  length (RDFDatastore.match_ (MudWorld.store w')
            (mkPattern (Some player) (Some mudVocab.location) None None)) = 1 /\
  MudWorld.getPlayerLocation w' playerId = Some roomId /\
  (forall q, subject q <> player \/ predicate q <> mudVocab.location ->
             holds (RDFDatastore.store (MudWorld.store w')) q
             = holds (RDFDatastore.store (MudWorld.store w)) q).
Proof.
  intros Ht Hv w' player.
  assert (Hloc : forall o g, held w' (mkQuad player mudVocab.location o g) <->
                             o = MudWorld.entityUri roomId /\ g = DefaultGraph).
  { intros o g. unfold w'. rewrite holds_movePlayer. fold player. split.
    - intros [E | [Hh Hall]].
      + unfold quad in E. injection E as -> ->. auto.
      + exfalso. pose proof (triples_only_graph _ _ Ht Hh) as Eg. simpl in Eg.
        subst g. apply (Hall o); [| reflexivity].
        apply In_getObjects. now exists DefaultGraph.
    - intros [-> ->]. now left. }
  assert (Hobjs : RDFDatastore.getObjects (MudWorld.store w') player
                    mudVocab.location None = [MudWorld.entityUri roomId]).
  { apply getObjects_single with (g := DefaultGraph).
    - now apply Hloc.
    - intros o' g' H. now apply Hloc. }
  split; [exact Hloc |]. split; [exact Hobjs |]. split; [| split].
  - unfold RDFDatastore.getObjects in Hobjs.
    apply (f_equal (@length Term)) in Hobjs. now rewrite length_map in Hobjs.
  - unfold MudWorld.getPlayerLocation. fold player w'. rewrite Hobjs.
    rewrite (lastSegment_entityUri _ (valid_id_no_slash _ Hv)).
    now apply or_else_valid.
  - intros q Hq. apply bool_iff. unfold w'.
    rewrite holds_movePlayer. fold player. split.
    + intros [-> | [Hh _]]; [| assumption]. simpl in Hq. tauto.
    + intros Hh. right. split; [assumption |].
      intros l _ ->. simpl in Hq. tauto.
Qed.

(** The loop of [addToInventory]. *)
Lemma holds_remove_holders (item : Term) (ls : list Term)
    (d : RDFDatastore.t) (q : Quad) :
  holds (RDFDatastore.store
           (fold_left
              (fun d location =>
                 let d' := RDFDatastore.removeTriple d item mudVocab.location
                             location None in
                 RDFDatastore.removeTriple d' location mudVocab.contains item None)
              ls d)) q = true <->
  holds (RDFDatastore.store d) q = true /\
  forall l, In l ls ->
            q <> quad item mudVocab.location l None /\
            q <> quad l mudVocab.contains item None.
Proof.
  revert d. induction ls as [| x ls IH]; intros d; simpl.
  - intuition.
  - rewrite IH, !holds_removeTriple_iff. split.
    + intros [(Hc & Hl & Hh) Hall]. split; [assumption |].
      intros l [<- | Hl']; auto.
    + intros [Hh Hall]. destruct (Hall x (or_introl eq_refl)). auto.
Qed.

Lemma holds_addToInventory (w : MudWorld.t) (playerId itemId : string) (q : Quad) :
  held (MudWorld.addToInventory w playerId itemId) q <->
  q = quad (MudWorld.entityUri itemId) mudVocab.location
        (MudWorld.entityUri playerId) None \/
  q = quad (MudWorld.entityUri playerId) mudVocab.inventory
        (MudWorld.entityUri itemId) None \/
  (held w q /\
   forall l,
     In l (RDFDatastore.getObjects (MudWorld.store w) (MudWorld.entityUri itemId)
             mudVocab.location None) ->
     q <> quad (MudWorld.entityUri itemId) mudVocab.location l None /\
     q <> quad l mudVocab.contains (MudWorld.entityUri itemId) None).
Proof.
  unfold MudWorld.addToInventory, MudWorld.with_store. cbn [MudWorld.store].
  now rewrite !holds_addTriple_iff, holds_remove_holders.
Qed.

Lemma triples_only_addToInventory (w : MudWorld.t) (playerId itemId : string) :
  triples_only (MudWorld.store w) = true ->
  triples_only (MudWorld.store (MudWorld.addToInventory w playerId itemId)) = true.
Proof.
  intros Ht. apply triples_only_intro. intros q Hq.
  apply holds_addToInventory in Hq as [-> | [-> | [Hq _]]]; try reflexivity.
  now apply (triples_only_graph (MudWorld.store w)).
Qed.

Lemma triples_only_new : triples_only (MudWorld.store MudWorld.new) = true.
Proof.
  apply triples_only_intro. intros q Hq. simpl in Hq.
  rewrite holds_empty in Hq. discriminate.
Qed.

Lemma triples_only_movePlayer (w : MudWorld.t) (playerId roomId : string) :
  triples_only (MudWorld.store w) = true ->
  triples_only (MudWorld.store (MudWorld.movePlayer w playerId roomId)) = true.
Proof.
  intros Ht. apply triples_only_intro. intros q Hq.
  apply holds_movePlayer in Hq as [-> | [Hq _]]; [reflexivity |].
  now apply (triples_only_graph (MudWorld.store w)).
Qed.

Lemma triples_only_placeItem (w : MudWorld.t) (itemId roomId : string) :
  triples_only (MudWorld.store w) = true ->
  triples_only (MudWorld.store (MudWorld.placeItem w itemId roomId)) = true.
Proof.
  intros Ht. unfold MudWorld.placeItem, MudWorld.with_store. cbn [MudWorld.store].
  now repeat apply triples_only_addTriple.
Qed.

Lemma triples_only_removeFromInventory (w : MudWorld.t) (playerId itemId : string) :
  triples_only (MudWorld.store w) = true ->
  triples_only (MudWorld.store (MudWorld.removeFromInventory w playerId itemId))
  = true.
Proof.
  intros Ht. unfold MudWorld.removeFromInventory, MudWorld.with_store.
  cbn [MudWorld.store]. now repeat apply triples_only_removeTriple.
Qed.

Lemma triples_only_dropItem (w : MudWorld.t) (playerId itemId : string) :
  triples_only (MudWorld.store w) = true ->
  triples_only (MudWorld.store (MudWorld.dropItem w playerId itemId)) = true.
Proof.
  intros Ht. unfold MudWorld.dropItem.
  destruct (MudWorld.getPlayerLocation w playerId) as [[| c s] |];
    try assumption.
  now apply triples_only_placeItem, triples_only_removeFromInventory.
Qed.

(** Every world the entity model builds keeps its statements in the
    default graph. *)
Lemma Built_triples_only (w : MudWorld.t) :
  Built w -> triples_only (MudWorld.store w) = true.
Proof.
  induction 1.
  - apply triples_only_new.
  - unfold MudWorld.createRoom, MudWorld.generateId, MudWorld.with_store.
    cbn [fst MudWorld.store]. now repeat apply triples_only_addTriple.
  - unfold MudWorld.connectRooms, MudWorld.with_store. cbn [MudWorld.store].
    now apply triples_only_addTriple.
  - unfold MudWorld.createItem, MudWorld.generateId, MudWorld.with_store.
    cbn [fst MudWorld.store]. now repeat apply triples_only_addTriple.
  - now apply triples_only_placeItem.
  - unfold MudWorld.createPlayer, MudWorld.generateId, MudWorld.with_store.
    cbn [fst MudWorld.store]. now repeat apply triples_only_addTriple.
  - now apply triples_only_movePlayer.
  - now apply triples_only_addToInventory.
  - now apply triples_only_removeFromInventory.
  - now apply triples_only_dropItem.
Qed.

Lemma holders_dec (item : Term) (ls : list Term) (q : Quad) :
  (forall l, In l ls ->
             q <> quad item mudVocab.location l None /\
             q <> quad l mudVocab.contains item None) \/
  (exists l, In l ls /\
             (q = quad item mudVocab.location l None \/
              q = quad l mudVocab.contains item None)).
Proof.
  induction ls as [| x ls [IH | (l & Hl & IH)]].
  - left. intros l [].
  - destruct (Quad_eq_dec q (quad item mudVocab.location x None)) as [E | N1];
      [right; exists x; split; [now left | now left] |].
    destruct (Quad_eq_dec q (quad x mudVocab.contains item None)) as [E | N2];
      [right; exists x; split; [now left | now right] |].
    left. intros l [<- | Hl]; auto.
  - right. exists l. split; [now right | exact IH].
Qed.

(** C1 (amended): [addToInventory] removes every location statement of the
    item and, for each previous holder, the holder's [contains] statement
    for the item, and removes nothing else; it then holds the inventory
    statement (player, item) and the location statement (item, player),
    which is the item's only location statement, and has inserted nothing
    else. *)
Theorem addToInventory_moves_item (w : MudWorld.t) (playerId itemId : string) :
  triples_only (MudWorld.store w) = true ->
  let w' := MudWorld.addToInventory w playerId itemId in
  let player := MudWorld.entityUri playerId in
  let item := MudWorld.entityUri itemId in
  let holders :=
    RDFDatastore.getObjects (MudWorld.store w) item mudVocab.location None in
  (forall o g, held w' (mkQuad item mudVocab.location o g) <->
               o = player /\ g = DefaultGraph) /\
  (forall h g, In h holders ->
               holds (RDFDatastore.store (MudWorld.store w'))
                     (mkQuad h mudVocab.contains item g) = false) /\
  RDFDatastore.has (MudWorld.store w') player mudVocab.inventory item None = true /\
  (forall q, held w' q ->
             held w q \/ q = quad player mudVocab.inventory item None \/
             q = quad item mudVocab.location player None) /\
  (forall q, held w q ->
             held w' q \/
             exists h, In h holders /\
                       (q = quad item mudVocab.location h None \/
                        q = quad h mudVocab.contains item None)).
Proof.
  intros Ht w' player item holders.
  pose proof (triples_only_addToInventory w playerId itemId Ht) as Ht'.
  fold w' in Ht'.
  split; [| split; [| split; [| split]]].
  - intros o g. unfold w'. rewrite holds_addToInventory.
    fold player item holders. split.
    + intros [E | [E | [Hh Hall]]].
      * unfold quad in E. injection E as -> ->. auto.
      * unfold quad in E. discriminate E.
      * exfalso. pose proof (triples_only_graph _ _ Ht Hh) as Eg. simpl in Eg.
        subst g. destruct (Hall o) as [Hne _]; [| now apply Hne].
        apply In_getObjects. now exists DefaultGraph.
    + intros [-> ->]. now left.
  - intros h g Hh. destruct (holds _ _) eqn:E; [exfalso | reflexivity].
    pose proof (triples_only_graph _ _ Ht' E) as Eg. simpl in Eg. subst g.
    unfold w' in E. apply holds_addToInventory in E.
    fold player item holders in E. destruct E as [E | [E | [_ Hall]]].
    + unfold quad in E. discriminate E.
    + unfold quad in E. discriminate E.
    + destruct (Hall h Hh) as [_ Hne]. now apply Hne.
  - unfold RDFDatastore.has, w'. apply holds_addToInventory. right. now left.
  - intros q Hq. unfold w' in Hq. apply holds_addToInventory in Hq.
    fold player item in Hq. destruct Hq as [-> | [-> | [Hq _]]]; auto.
  - intros q Hq. destruct (holders_dec item holders q) as [Hkeep | Hgone].
    + left. unfold w'. apply holds_addToInventory. right. right. auto.
    + right. exact Hgone.
Qed.

(** A statement that says that someone else carries the item is not
    touched by [addToInventory]. *)
Lemma addToInventory_keeps_other_inventory (w : MudWorld.t)
    (playerId itemId : string) (h : Term) :
  RDFDatastore.has (MudWorld.store w) h mudVocab.inventory
    (MudWorld.entityUri itemId) None = true ->
  RDFDatastore.has (MudWorld.store (MudWorld.addToInventory w playerId itemId))
    h mudVocab.inventory (MudWorld.entityUri itemId) None = true.
Proof.
  unfold RDFDatastore.has. intros H. apply holds_addToInventory.
  right. right. split; [exact H |].
  intros l _. split; intros E; discriminate E.
Qed.

(** C10: for a player without a location statement [dropItem] does nothing:
    the world, and with it the player's inventory, is as before. *)
Theorem dropItem_without_location (w : MudWorld.t) (playerId itemId : string) :
  RDFDatastore.getObjects (MudWorld.store w) (MudWorld.entityUri playerId)
    mudVocab.location None = [] ->
  MudWorld.dropItem w playerId itemId = w /\
  MudWorld.getPlayerInventory (MudWorld.dropItem w playerId itemId) playerId
  = MudWorld.getPlayerInventory w playerId.
Proof.
  intros H.
  assert (E : MudWorld.dropItem w playerId itemId = w).
  { unfold MudWorld.dropItem, MudWorld.getPlayerLocation. now rewrite H. }
  now rewrite E.
Qed.

(** C3 (amended): when no statement matches its query, each of
    [getRoomName], [getRoomDescription], [getItemName], [getItemDescription]
    and [getPlayerLocation] returns [null]; [isItemPortable] returns [false],
    the value it also gives for an item that is not portable. *)
Theorem getters_not_found (w : MudWorld.t) (id : string) :
  let none p :=
    RDFDatastore.getObjects (MudWorld.store w) (MudWorld.entityUri id) p None = [] in
  (none mudVocab.name ->
   MudWorld.getRoomName w id = None /\ MudWorld.getItemName w id = None) /\
  (none mudVocab.description ->
   MudWorld.getRoomDescription w id = None /\
   MudWorld.getItemDescription w id = None) /\
  (none mudVocab.location -> MudWorld.getPlayerLocation w id = None) /\
  (none mudVocab.portable -> MudWorld.isItemPortable w id = false).
Proof.
  unfold MudWorld.getRoomName, MudWorld.getItemName, MudWorld.getRoomDescription,
    MudWorld.getItemDescription, MudWorld.getPlayerLocation,
    MudWorld.isItemPortable.
  cbv zeta. split; [| split; [| split]]; intros H; rewrite H; auto.
Qed.

Lemma exit_inj (d d' : ExitDirection) : mudVocab.exit d = mudVocab.exit d' -> d = d'.
Proof. destruct d, d'; intros H; try reflexivity; discriminate H. Qed.

(** What [exits.get(direction)] reads off the map built by [getRoomExits]. *)
Lemma exits_get_getRoomExits (w : MudWorld.t) (roomId : string) (d : ExitDirection) :
  MudWorld.exits_get (MudWorld.getRoomExits w roomId) d =
  match RDFDatastore.getObjects (MudWorld.store w) (MudWorld.entityUri roomId)
          (mudVocab.exit d) None with
  | target :: _ =>
      Some (Js.or_else (MudWorld.lastSegment (value target)) (fun s => s) EmptyString)
  | [] => None
  end.
Proof.
  unfold MudWorld.getRoomExits. cbn [fold_left].
  destruct d;
    repeat match goal with
           | |- context [RDFDatastore.getObjects ?a ?b ?c ?e] =>
               destruct (RDFDatastore.getObjects a b c e)
           end; reflexivity.
Qed.

Lemma exits_get_In (exits : list (ExitDirection * string)) d target :
  MudWorld.exits_get exits d = Some target -> In (d, target) exits.
Proof.
  induction exits as [| [d' t'] rest IH]; simpl; [discriminate |].
  destruct (ExitDirection_eq_dec d' d) as [-> | _].
  - intros [= ->]. now left.
  - intros H. right. auto.
Qed.

(** Connecting along an exit that is already there changes nothing. *)
Lemma connectRooms_existing (w : MudWorld.t) fromRoomId direction toRoomId :
  held w (quad (MudWorld.entityUri fromRoomId) (mudVocab.exit direction)
            (MudWorld.entityUri toRoomId) None) ->
  MudWorld.connectRooms w fromRoomId direction toRoomId = w.
Proof.
  intros H. unfold MudWorld.connectRooms, MudWorld.with_store,
    RDFDatastore.addTriple. rewrite addQuad_present by exact H.
  destruct w as [[st pf] n]. reflexivity.
Qed.

(** Two exits from one room in one direction cannot both be the one that
    [getRoomExits] reports, whatever order the store lists them in:
    connecting along either changes nothing. *)
Lemma connectRooms_two_targets (w : MudWorld.t) (a b c : string)
    (direction : ExitDirection) :
  b <> c ->
  held w (quad (MudWorld.entityUri a) (mudVocab.exit direction)
            (MudWorld.entityUri b) None) ->
  held w (quad (MudWorld.entityUri a) (mudVocab.exit direction)
            (MudWorld.entityUri c) None) ->
  ~ (MudWorld.exits_get
       (MudWorld.getRoomExits (MudWorld.connectRooms w a direction b) a) direction
     = Some b /\
     MudWorld.exits_get
       (MudWorld.getRoomExits (MudWorld.connectRooms w a direction c) a) direction
     = Some c).
Proof.
  intros Hne Hb Hc [Eb Ec].
  rewrite (connectRooms_existing _ _ _ _ Hb) in Eb.
  rewrite (connectRooms_existing _ _ _ _ Hc) in Ec. congruence.
Qed.

(** C7 (amended): if room A has no exit in a direction yet, then after
    [connectRooms(A, direction, B)] the map of [getRoomExits(A)] holds the
    pair (direction, B); the call changes no other entry of any room's
    exits, so it gives B no exit back to A. *)
Theorem connectRooms_one_way (w : MudWorld.t) (fromRoomId toRoomId : string)
    (direction : ExitDirection) :
  valid_id toRoomId = true ->
  RDFDatastore.getObjects (MudWorld.store w) (MudWorld.entityUri fromRoomId)
    (mudVocab.exit direction) None = [] ->
  let w' := MudWorld.connectRooms w fromRoomId direction toRoomId in
  MudWorld.exits_get (MudWorld.getRoomExits w' fromRoomId) direction
    = Some toRoomId /\
  In (direction, toRoomId) (MudWorld.getRoomExits w' fromRoomId) /\
  (forall roomId d, roomId <> fromRoomId \/ d <> direction ->
     MudWorld.exits_get (MudWorld.getRoomExits w' roomId) d
     = MudWorld.exits_get (MudWorld.getRoomExits w roomId) d).
Proof.
  intros Hv Hnone w'. rewrite getObjects_nil in Hnone.
  assert (Hget : MudWorld.exits_get (MudWorld.getRoomExits w' fromRoomId) direction
                 = Some toRoomId).
  { rewrite exits_get_getRoomExits.
    rewrite (getObjects_single _ _ _ (MudWorld.entityUri toRoomId) DefaultGraph).
    - rewrite (lastSegment_entityUri _ (valid_id_no_slash _ Hv)).
      now rewrite or_else_valid.
    - unfold w', MudWorld.connectRooms, MudWorld.with_store. cbn [MudWorld.store].
      apply holds_addTriple_iff. now left.
    - intros o' g'. unfold w', MudWorld.connectRooms, MudWorld.with_store.
      cbn [MudWorld.store]. rewrite holds_addTriple_iff. intros [E | H].
      + unfold quad in E. injection E as -> ->. auto.
      + rewrite Hnone in H. discriminate. }
  split; [exact Hget |]. split; [now apply exits_get_In |].
  intros roomId d Hne. rewrite !exits_get_getRoomExits.
  unfold w', MudWorld.connectRooms, MudWorld.with_store. cbn [MudWorld.store].
  rewrite getObjects_addTriple_other; [reflexivity |].
  destruct Hne as [Hr | Hd].
  - left. intros E. apply Hr. now apply entityUri_inj.
  - right. intros E. apply Hd. now apply exit_inj.
Qed.

End Facts.
End MudWorldFacts.

(** ** The command dispatcher *)

Module CommandProcessorFacts.
Section Facts.
Context {N3 : N3Store}.

Local Abbreviation held w q :=
  (holds (RDFDatastore.store (MudWorld.store w)) q = true).

Lemma is_entity_node_spec (o : Term) :
  is_entity_node o = true ->
  exists id, valid_id id = true /\ o = MudWorld.entityUri id.
Proof.
  destruct o as [iri | | |]; simpl; try discriminate.
  destruct (MudWorld.lastSegment iri) as [id |]; [| discriminate].
  rewrite andb_true_iff, String.eqb_eq. intros [Hv ->]. now exists id.
Qed.

Lemma getPlayerLocation_nonempty (w : MudWorld.t) (playerId roomId : string) :
  MudWorld.getPlayerLocation w playerId = Some roomId ->
  exists c s, roomId = String c s.
Proof.
  unfold MudWorld.getPlayerLocation.
  destruct (RDFDatastore.getObjects _ _ _ _) as [| x l]; [discriminate |].
  destruct (MudWorld.lastSegment (value x)) as [[| c s] |]; simpl;
    try discriminate.
  intros [= <-]. eauto.
Qed.

Lemma findItem_In (w : MudWorld.t) (search : string) (items : list string)
    (itemId : string) :
  CommandProcessor.findItem w search items = Some itemId ->
  In itemId items /\ CommandProcessor.nameMatches w search itemId = true.
Proof.
  induction items as [| x items IH]; simpl; [discriminate |].
  destruct (CommandProcessor.nameMatches w search x) eqn:E.
  - intros [= <-]. auto.
  - intros H. destruct (IH H). auto.
Qed.

(** The default registry sends [take], [get] and [pickup], in any letter
    case, to the take handler with the remaining words. *)
Lemma processCommand_take (w : MudWorld.t) (playerId input verb : string)
    (args : list string) :
  Js.split_ws (Js.trim input) = verb :: args ->
  In (Js.toLowerCase verb) ["take"; "get"; "pickup"] ->
  CommandProcessor.processCommand CommandProcessor.new w playerId input
  = CommandProcessor.TakeCommand_execute w playerId args.
Proof.
  intros Hs Hv. unfold CommandProcessor.processCommand, CommandProcessor.dispatch.
  destruct (Js.trim input) as [| c t] eqn:Et.
  - simpl in Hs. injection Hs as <- <-. simpl in Hv.
    destruct Hv as [H | [H | [H | []]]]; discriminate H.
  - rewrite Hs. cbn [hd tl].
    destruct Hv as [<- | [<- | [<- | []]]]; reflexivity.
Qed.

(** An item listed for a room of entity nodes is a well-formed identifier
    whose node the room contains. *)
Lemma room_item_node (w : MudWorld.t) (roomId itemId : string) :
  forallb is_entity_node
    (RDFDatastore.getObjects (MudWorld.store w) (MudWorld.entityUri roomId)
       mudVocab.contains None) = true ->
  In itemId (MudWorld.getRoomItems w roomId) ->
  valid_id itemId = true /\
  In (MudWorld.entityUri itemId)
     (RDFDatastore.getObjects (MudWorld.store w) (MudWorld.entityUri roomId)
        mudVocab.contains None).
Proof.
  intros Hwf Hin. unfold MudWorld.getRoomItems, MudWorld.nodeIds in Hin.
  apply in_map_iff in Hin as (o & Ho & Hin).
  rewrite forallb_forall in Hwf.
  destruct (is_entity_node_spec _ (Hwf _ Hin)) as (id & Hv & ->).
  rewrite (lastSegment_entityUri _ (valid_id_no_slash _ Hv)) in Ho.
  rewrite or_else_valid in Ho by exact Hv. subst id. auto.
Qed.

(** C5 (amended): the actor stands in a room that contains an item, and the
    item is the one the words after [take] select: the first listed item
    whose name includes them, whatever other items of the room match as
    well.  If that item is portable the command succeeds, the item leaves
    [getRoomItems] of the room and is in [getPlayerInventory] of the
    actor; if it is not portable the command fails and the world, with both
    listings, is unchanged.  The room's contents are entity nodes of a world
    the entity model writes, and the item's location is the room. *)
Theorem take_item (w : MudWorld.t) (playerId input verb : string)
    (args : list string) (roomId itemId : string) :
  Js.split_ws (Js.trim input) = verb :: args ->
  In (Js.toLowerCase verb) ["take"; "get"; "pickup"] ->
  args <> [] ->
  triples_only (MudWorld.store w) = true ->
  MudWorld.getPlayerLocation w playerId = Some roomId ->
  forallb is_entity_node
    (RDFDatastore.getObjects (MudWorld.store w) (MudWorld.entityUri roomId)
       mudVocab.contains None) = true ->
  CommandProcessor.findItem w (Js.toLowerCase (Js.join " " args))
    (MudWorld.getRoomItems w roomId) = Some itemId ->
  RDFDatastore.has (MudWorld.store w) (MudWorld.entityUri itemId)
    mudVocab.location (MudWorld.entityUri roomId) None = true ->
  let out := CommandProcessor.processCommand CommandProcessor.new w playerId input in
  In itemId (MudWorld.getRoomItems w roomId) /\
  if MudWorld.isItemPortable w itemId then
    success (snd out) = true /\
    ~ In itemId (MudWorld.getRoomItems (fst out) roomId) /\
    In itemId (MudWorld.getPlayerInventory (fst out) playerId)
  else
    success (snd out) = false /\
    fst out = w /\
    MudWorld.getRoomItems (fst out) roomId = MudWorld.getRoomItems w roomId /\
    MudWorld.getPlayerInventory (fst out) playerId
    = MudWorld.getPlayerInventory w playerId.
Proof.
  intros Hs Hverb Hargs Ht Hloc Hwf Hfind Hplaced out.
  destruct (findItem_In _ _ _ _ Hfind) as [Hin _].
  split; [exact Hin |].
  destruct (room_item_node _ _ _ Hwf Hin) as [Hv Hnode].
  destruct (getPlayerLocation_nonempty _ _ _ Hloc) as (rc & rs & Er).
  destruct (valid_id_nonempty _ Hv) as (ic & it & Ei).
  assert (Eout : out =
    if negb (MudWorld.isItemPortable w itemId)
    then (w, CommandProcessor.fail "You can't take that.")
    else (MudWorld.addToInventory w playerId itemId,
          CommandProcessor.ok ("You take the "
                               +:+ Js.show (MudWorld.getItemName w itemId) +:+ "."))).
  { unfold out. rewrite (processCommand_take _ _ _ _ _ Hs Hverb).
    unfold CommandProcessor.TakeCommand_execute.
    destruct args as [| a args]; [contradiction |].
    rewrite Hloc. rewrite Er. rewrite <- Er. rewrite Hfind.
    rewrite Ei. rewrite <- Ei. reflexivity. }
  rewrite Eout. destruct (MudWorld.isItemPortable w itemId); cbn [negb fst snd].
  - split; [reflexivity |]. split.
    + intros Hafter.
      unfold MudWorld.getRoomItems, MudWorld.nodeIds in Hafter.
      apply in_map_iff in Hafter as (o & Ho & Hoin).
      apply In_getObjects in Hoin as [g Hg].
      assert (Hold : held w (mkQuad (MudWorld.entityUri roomId)
                               mudVocab.contains o g)).
      { apply MudWorldFacts.holds_addToInventory in Hg
          as [E | [E | [Hh _]]]; [discriminate E | discriminate E | exact Hh]. }
      assert (Honode : In o (RDFDatastore.getObjects (MudWorld.store w)
                               (MudWorld.entityUri roomId) mudVocab.contains None))
        by (apply In_getObjects; eauto).
      rewrite forallb_forall in Hwf.
      destruct (is_entity_node_spec _ (Hwf _ Honode)) as (id & Hid & ->).
      rewrite (lastSegment_entityUri _ (valid_id_no_slash _ Hid)) in Ho.
      rewrite or_else_valid in Ho by exact Hid. subst id.
      pose proof (triples_only_graph _ _ Ht Hold) as Eg. simpl in Eg. subst g.
      apply MudWorldFacts.holds_addToInventory in Hg
        as [E | [E | [_ Hall]]]; [discriminate E | discriminate E |].
      destruct (Hall (MudWorld.entityUri roomId)) as [_ Hne];
        [| now apply Hne].
      apply In_getObjects. exists DefaultGraph. exact Hplaced.
    + apply nodeIds_entityUri; [exact Hv |].
      apply In_getObjects. exists DefaultGraph.
      apply MudWorldFacts.holds_addToInventory. right. now left.
  - repeat split; reflexivity.
Qed.

(** C8: a command line that is empty or holds only whitespace is answered
    with the failure [Please enter a command.]: whatever the registry holds,
    no handler is selected and the world is returned as it was. *)
Theorem processCommand_blank (commands : CommandProcessor.t) (w : MudWorld.t)
    (playerId input : string) :
  Js.all_ws input = true ->
  CommandProcessor.dispatch commands input = NoInput /\
  CommandProcessor.processCommand commands w playerId input
  = (w, mkResult false "Please enter a command.").
Proof.
  intros H. unfold CommandProcessor.processCommand, CommandProcessor.dispatch.
  rewrite (trim_all_ws _ H). split; reflexivity.
Qed.

End Facts.
End CommandProcessorFacts.

(** * Worked examples on the list store *)

Module Examples.

#[local] Existing Instance ListStore.

(** The fixture of the command tests: two rooms joined north and south and
    a player in the first. *)
Definition fixture : MudWorld.t :=
  let (w1, room1) := MudWorld.createRoom MudWorld.new "Starting Room"
                       "You are in a starting room." in
  let (w2, room2) := MudWorld.createRoom w1 "Next Room" "You are in the next room." in
  let w3 := MudWorld.connectRooms w2 room1 north room2 in
  let w4 := MudWorld.connectRooms w3 room2 south room1 in
  fst (MudWorld.createPlayer w4 "Test Player" room1).

(** The fixture with a portable item and a rock that is not, both in the
    first room. *)
Definition furnished : MudWorld.t :=
  let (w1, item) := MudWorld.createItem fixture "Test Item" "A portable test item"
                      (Some true) in
  let w2 := MudWorld.placeItem w1 item "room-1" in
  let (w3, rock) := MudWorld.createItem w2 "Heavy Rock" "Too heavy" (Some false) in
  MudWorld.placeItem w3 rock "room-1".

(** The player of the fixture with a second, stale location statement. *)
Definition twoPlaces : MudWorld.t :=
  MudWorld.with_store fixture
    (RDFDatastore.addTriple (MudWorld.store fixture) (MudWorld.entityUri "player-3")
       mudVocab.location (MudWorld.entityUri "room-2") None).

(** Two players in one room; the first carries an item. *)
Definition carried : MudWorld.t :=
  let (w1, room) := MudWorld.createRoom MudWorld.new "Hall" "A hall." in
  let (w2, p1) := MudWorld.createPlayer w1 "Ann" room in
  let (w3, p2) := MudWorld.createPlayer w2 "Bob" room in
  let (w4, item) := MudWorld.createItem w3 "coin" "A coin." None in
  MudWorld.addToInventory w4 p1 item.

(** Three rooms; the first already has a north exit to the second. *)
Definition crossroads : MudWorld.t :=
  let (w1, a) := MudWorld.createRoom MudWorld.new "A" "Room A." in
  let (w2, c) := MudWorld.createRoom w1 "C" "Room C." in
  let (w3, b) := MudWorld.createRoom w2 "B" "Room B." in
  MudWorld.connectRooms w3 a north c.

(** An item carried by an identifier that has no location statement. *)
Definition adrift : MudWorld.t :=
  MudWorld.addToInventory MudWorld.new "player-9" "item-1".

(** A rock alone in the world. *)
Definition rockOnly : MudWorld.t :=
  fst (MudWorld.createItem MudWorld.new "Heavy Rock" "Too heavy" (Some false)).

(** A parser run that decodes one statement and then meets a syntax error. *)
Definition brokenRun (nth : nat) (data format : string) : list ParseEvent :=
  [mkEvent None
     (Some (quad (NamedNode "http://example.org/person2")
                 (NamedNode "http://xmlns.com/foaf/0.1/name")
                 (utils.createLiteral "Bob" None) None))
     None;
   mkEvent (Some "Unexpected end of input") None None].

(** A parser run that decodes one statement and one prefix declaration. *)
Definition knows : Quad :=
  quad (NamedNode "http://example.org/person1")
       (NamedNode "http://example.org/knows")
       (NamedNode "http://example.org/person2") None.

Definition goodRun (nth : nat) (data format : string) : list ParseEvent :=
  [mkEvent None (Some knows) None;
   mkEvent None None (Some {[ "ex" := "http://example.org/" ]})].

Example ids_of_fixture :
  MudWorld.getPlayerLocation furnished "player-3" = Some "room-1" /\
  MudWorld.getRoomItems furnished "room-1" = ["item-4"; "item-5"] /\
  MudWorld.getRoomExits fixture "room-1" = [(north, "room-2")] /\
  MudWorld.getRoomExits fixture "room-2" = [(south, "room-1")].
Proof. vm_compute. repeat split. Qed.

Example take_rock_fails :
  CommandProcessor.processCommand CommandProcessor.new furnished "player-3"
    "take heavy rock"
  = (furnished, mkResult false "You can't take that.").
Proof. vm_compute. reflexivity. Qed.

Example go_north_moves :
  let out := CommandProcessor.processCommand CommandProcessor.new fixture
               "player-3" "  Go   NORTH " in
  success (snd out) = true /\
  MudWorld.getPlayerLocation (fst out) "player-3" = Some "room-2".
Proof. vm_compute. split; reflexivity. Qed.


(** A key and a keyhole in one room: both names include the word [key],
    and [take key] selects the key, which is listed first. *)
Definition keyRoom : MudWorld.t :=
  let (w1, key) := MudWorld.createItem fixture "key" "A small key." (Some true) in
  let (w2, hole) := MudWorld.createItem w1 "keyhole" "A keyhole." (Some false) in
  MudWorld.placeItem (MudWorld.placeItem w2 key "room-1") hole "room-1".

Example take_selects_first_match :
  let out := CommandProcessor.processCommand CommandProcessor.new keyRoom
               "player-3" "take key" in
  MudWorld.getRoomItems keyRoom "room-1" = ["item-4"; "item-5"] /\
  success (snd out) = true /\
  MudWorld.getRoomItems (fst out) "room-1" = ["item-5"] /\
  MudWorld.getPlayerInventory (fst out) "player-3" = ["item-4"].
Proof. vm_compute. repeat split. Qed.

(** The drop test of the repository: the item goes from the inventory to
    the room the player is in. *)
Example drop_puts_item_in_room :
  let (w1, item) := MudWorld.createItem fixture "Test Item" "A portable test item"
                      (Some true) in
  let w2 := MudWorld.addToInventory w1 "player-3" item in
  let out := CommandProcessor.processCommand CommandProcessor.new w2 "player-3"
               "drop test item" in
  snd out = mkResult true "You drop the Test Item." /\
  MudWorld.getPlayerInventory (fst out) "player-3" = [] /\
  MudWorld.getRoomItems (fst out) "room-1" = [item].
Proof. vm_compute. repeat split. Qed.

Example go_east_fails :
  CommandProcessor.processCommand CommandProcessor.new fixture "player-3" "go east"
  = (fixture, mkResult false "You can't go east from here.").
Proof. vm_compute. reflexivity. Qed.

(** The statistics test of the repository: two subject objects, and
    three predicate objects for its two predicates, one for each subject
    that has the predicate. *)
Example stats_of_three_statements :
  let person1 := utils.createNamedNode "http://example.org/person1" in
  let person2 := utils.createNamedNode "http://example.org/person2" in
  let nameP := utils.ns "http://xmlns.com/foaf/0.1/" "name" in
  let ageP := utils.createNamedNode "http://example.org/age" in
  let d0 := RDFDatastore.new [] in
  let d1 := RDFDatastore.addTriple d0 person1 nameP
              (utils.createLiteral "Alice" None) None in
  let d2 := RDFDatastore.addTriple d1 person1 ageP
              (utils.createTypedLiteral "30"
                 "http://www.w3.org/2001/XMLSchema#integer") None in
  let d3 := RDFDatastore.addTriple d2 person2 nameP
              (utils.createLiteral "Bob" None) None in
  RDFDatastore.getStats d3 = mkStats 3 2 3 1 /\
  RDFDatastore.size (RDFDatastore.removeMatches d3
                       (mkPattern None (Some nameP) None None)) = 1.
Proof. vm_compute. split; reflexivity. Qed.


(** Adding a statement the fixture already holds. *)
Example add_twice_same_size :
  let d := MudWorld.store fixture in
  let s := MudWorld.entityUri "room-1" in
  RDFDatastore.size (RDFDatastore.addTriple d s mudVocab.name
                       (utils.createLiteral "Starting Room" None) None)
  = RDFDatastore.size d.
Proof. vm_compute. reflexivity. Qed.

(** A player held in two places is left in exactly one by [movePlayer]. *)
Lemma movePlayer_single_location_witness :
  triples_only (MudWorld.store twoPlaces) = true /\
  valid_id "room-2" = true /\
  length (RDFDatastore.getObjects (MudWorld.store twoPlaces)
            (MudWorld.entityUri "player-3") mudVocab.location None) = 2 /\
  RDFDatastore.getObjects
    (MudWorld.store (MudWorld.movePlayer twoPlaces "player-3" "room-2"))
    (MudWorld.entityUri "player-3") mudVocab.location None
  = [MudWorld.entityUri "room-2"] /\
  MudWorld.getPlayerLocation (MudWorld.movePlayer twoPlaces "player-3" "room-2")
    "player-3" = Some "room-2".
Proof.
  assert (Ht : triples_only (MudWorld.store twoPlaces) = true)
    by (vm_compute; reflexivity).
  assert (Hv : valid_id "room-2" = true) by reflexivity.
  pose proof (MudWorldFacts.movePlayer_single_location
                twoPlaces "player-3" "room-2" Ht Hv) as H.
  cbv zeta in H. destruct H as (_ & Hobjs & _ & Hloc & _).
  split; [exact Ht |]. split; [exact Hv |].
  split; [vm_compute; reflexivity |]. split; [exact Hobjs | exact Hloc].
Defined.

(** Taking the item from the room it lies in. *)
Lemma addToInventory_moves_item_witness :
  triples_only (MudWorld.store furnished) = true /\
  let w' := MudWorld.addToInventory furnished "player-3" "item-4" in
  RDFDatastore.has (MudWorld.store w') (MudWorld.entityUri "player-3")
    mudVocab.inventory (MudWorld.entityUri "item-4") None = true /\
  RDFDatastore.has (MudWorld.store w') (MudWorld.entityUri "room-1")
    mudVocab.contains (MudWorld.entityUri "item-4") None = false.
Proof.
  assert (Ht : triples_only (MudWorld.store furnished) = true)
    by (vm_compute; reflexivity).
  pose proof (MudWorldFacts.addToInventory_moves_item
                furnished "player-3" "item-4" Ht) as H.
  cbv zeta in H. destruct H as (_ & Hholders & Hinv & _).
  split; [exact Ht |]. cbv zeta. split; [exact Hinv |].
  apply (Hholders (MudWorld.entityUri "room-1") DefaultGraph).
  vm_compute. left. reflexivity.
Defined.

(** C1 (as stated) fails: the first player holds the item (location and
    inventory statements); after the second player's [addToInventory] the
    first player still has the inventory statement for the item, and still
    lists it. *)
Lemma addToInventory_previous_player_keeps_item :
  let w' := MudWorld.addToInventory carried "player-3" "item-4" in
  In (MudWorld.entityUri "player-2")
     (RDFDatastore.getObjects (MudWorld.store carried) (MudWorld.entityUri "item-4")
        mudVocab.location None) /\
  RDFDatastore.has (MudWorld.store carried) (MudWorld.entityUri "player-2")
    mudVocab.inventory (MudWorld.entityUri "item-4") None = true /\
  RDFDatastore.has (MudWorld.store w') (MudWorld.entityUri "player-2")
    mudVocab.inventory (MudWorld.entityUri "item-4") None = true /\
  MudWorld.getPlayerInventory w' "player-2" = ["item-4"] /\
  MudWorld.getPlayerInventory w' "player-3" = ["item-4"].
Proof. vm_compute. repeat split. left. reflexivity. Qed.

(** An identifier the store knows nothing about. *)
Lemma getters_not_found_witness :
  let none p :=
    RDFDatastore.getObjects (MudWorld.store fixture) (MudWorld.entityUri "item-7")
      p None = [] in
  none mudVocab.name /\ none mudVocab.description /\ none mudVocab.location /\
  none mudVocab.portable /\
  MudWorld.getRoomName fixture "item-7" = None /\
  MudWorld.getItemName fixture "item-7" = None /\
  MudWorld.getRoomDescription fixture "item-7" = None /\
  MudWorld.getItemDescription fixture "item-7" = None /\
  MudWorld.getPlayerLocation fixture "item-7" = None /\
  MudWorld.isItemPortable fixture "item-7" = false.
Proof.
  cbv zeta.
  assert (H1 : RDFDatastore.getObjects (MudWorld.store fixture)
                 (MudWorld.entityUri "item-7") mudVocab.name None = [])
    by (vm_compute; reflexivity).
  assert (H2 : RDFDatastore.getObjects (MudWorld.store fixture)
                 (MudWorld.entityUri "item-7") mudVocab.description None = [])
    by (vm_compute; reflexivity).
  assert (H3 : RDFDatastore.getObjects (MudWorld.store fixture)
                 (MudWorld.entityUri "item-7") mudVocab.location None = [])
    by (vm_compute; reflexivity).
  assert (H4 : RDFDatastore.getObjects (MudWorld.store fixture)
                 (MudWorld.entityUri "item-7") mudVocab.portable None = [])
    by (vm_compute; reflexivity).
  pose proof (MudWorldFacts.getters_not_found fixture "item-7") as H.
  cbv zeta in H. destruct H as (Ha & Hb & Hc & Hd).
  destruct (Ha H1) as [Ea1 Ea2], (Hb H2) as [Eb1 Eb2].
  pose proof (Hc H3) as Ec. pose proof (Hd H4) as Ed.
  split; [exact H1 |]. split; [exact H2 |]. split; [exact H3 |].
  split; [exact H4 |]. split; [exact Ea1 |]. split; [exact Ea2 |].
  split; [exact Eb1 |]. split; [exact Eb2 |]. split; [exact Ec | exact Ed].
Defined.

(** C3 (as stated) fails for [isItemPortable]: with no portable statement
    it answers [false], which is also its answer for the rock, whose
    portable statement exists and says false. *)
Lemma isItemPortable_not_found_is_false :
  RDFDatastore.getObjects (MudWorld.store MudWorld.new) (MudWorld.entityUri "item-1")
    mudVocab.portable None = [] /\
  RDFDatastore.getObjects (MudWorld.store rockOnly) (MudWorld.entityUri "item-1")
    mudVocab.portable None = [utils.createBooleanLiteral false] /\
  MudWorld.isItemPortable MudWorld.new "item-1" = false /\
  MudWorld.isItemPortable rockOnly "item-1" = false /\
  MudWorld.isItemPortable MudWorld.new "item-1"
  = MudWorld.isItemPortable rockOnly "item-1".
Proof. vm_compute. repeat split. Qed.

(** The rock is not portable, the test item is. *)
Lemma take_item_witness :
  let out := CommandProcessor.processCommand CommandProcessor.new furnished
               "player-3" " Take  test item" in
  Js.split_ws (Js.trim " Take  test item") = ["Take"; "test"; "item"] /\
  triples_only (MudWorld.store furnished) = true /\
  MudWorld.getPlayerLocation furnished "player-3" = Some "room-1" /\
  MudWorld.isItemPortable furnished "item-4" = true /\
  In "item-4" (MudWorld.getRoomItems furnished "room-1") /\
  success (snd out) = true /\
  ~ In "item-4" (MudWorld.getRoomItems (fst out) "room-1") /\
  In "item-4" (MudWorld.getPlayerInventory (fst out) "player-3").
Proof.
  assert (Hs : Js.split_ws (Js.trim " Take  test item") = ["Take"; "test"; "item"])
    by reflexivity.
  assert (Hverb : In (Js.toLowerCase "Take") ["take"; "get"; "pickup"])
    by (left; reflexivity).
  assert (Hargs : ["test"; "item"] <> []) by discriminate.
  assert (Ht : triples_only (MudWorld.store furnished) = true)
    by (vm_compute; reflexivity).
  assert (Hloc : MudWorld.getPlayerLocation furnished "player-3" = Some "room-1")
    by (vm_compute; reflexivity).
  assert (Hwf : forallb is_entity_node
                  (RDFDatastore.getObjects (MudWorld.store furnished)
                     (MudWorld.entityUri "room-1") mudVocab.contains None) = true)
    by (vm_compute; reflexivity).
  assert (Hfind : CommandProcessor.findItem furnished
                    (Js.toLowerCase (Js.join " " ["test"; "item"]))
                    (MudWorld.getRoomItems furnished "room-1") = Some "item-4")
    by (vm_compute; reflexivity).
  assert (Hplaced : RDFDatastore.has (MudWorld.store furnished)
                      (MudWorld.entityUri "item-4") mudVocab.location
                      (MudWorld.entityUri "room-1") None = true)
    by (vm_compute; reflexivity).
  assert (Hp : MudWorld.isItemPortable furnished "item-4" = true)
    by (vm_compute; reflexivity).
  pose proof (CommandProcessorFacts.take_item furnished "player-3"
                " Take  test item" "Take" ["test"; "item"] "room-1" "item-4"
                Hs Hverb Hargs Ht Hloc Hwf Hfind Hplaced) as H.
  cbv zeta in H. rewrite Hp in H. destruct H as (Hin & Hok & Hgone & Hhas).
  cbv zeta. split; [exact Hs |]. split; [exact Ht |]. split; [exact Hloc |].
  split; [exact Hp |]. split; [exact Hin |]. split; [exact Hok |].
  split; [exact Hgone | exact Hhas].
Defined.

(** C5 (as stated) fails: the room of [keyRoom] contains the keyhole, whose
    name matches the argument [key] and which is not portable; yet
    [take key] succeeds and changes both listings, because the search
    stops at the key, which is listed first. *)
Lemma take_passes_over_second_match :
  let out := CommandProcessor.processCommand CommandProcessor.new keyRoom
               "player-3" "take key" in
  MudWorld.getPlayerLocation keyRoom "player-3" = Some "room-1" /\
  In "item-5" (MudWorld.getRoomItems keyRoom "room-1") /\
  MudWorld.getItemName keyRoom "item-5" = Some "keyhole" /\
  CommandProcessor.nameMatches keyRoom "key" "item-5" = true /\
  MudWorld.isItemPortable keyRoom "item-5" = false /\
  success (snd out) = true /\
  MudWorld.getRoomItems (fst out) "room-1"
  <> MudWorld.getRoomItems keyRoom "room-1" /\
  MudWorld.getPlayerInventory (fst out) "player-3"
  <> MudWorld.getPlayerInventory keyRoom "player-3".
Proof.
  vm_compute. split; [reflexivity |]. split; [right; left; reflexivity |].
  split; [reflexivity |]. split; [reflexivity |]. split; [reflexivity |].
  split; [reflexivity |]. split; intros H; discriminate H.
Qed.

(** Only blanks and a tab. *)
Lemma processCommand_blank_witness :
  Js.all_ws ("  " +:+ Js.ch 9 +:+ " ") = true /\
  CommandProcessor.processCommand CommandProcessor.new fixture "player-3"
    ("  " +:+ Js.ch 9 +:+ " ")
  = (fixture, mkResult false "Please enter a command.").
Proof.
  assert (H : Js.all_ws ("  " +:+ Js.ch 9 +:+ " ") = true) by reflexivity.
  split; [exact H |].
  exact (proj2 (CommandProcessorFacts.processCommand_blank
                  CommandProcessor.new fixture "player-3" _ H)).
Defined.

(** The second room has no north exit yet. *)
Lemma connectRooms_one_way_witness :
  valid_id "room-1" = true /\
  RDFDatastore.getObjects (MudWorld.store fixture) (MudWorld.entityUri "room-2")
    (mudVocab.exit north) None = [] /\
  let w' := MudWorld.connectRooms fixture "room-2" north "room-1" in
  MudWorld.exits_get (MudWorld.getRoomExits w' "room-2") north = Some "room-1" /\
  MudWorld.exits_get (MudWorld.getRoomExits w' "room-1") south
  = MudWorld.exits_get (MudWorld.getRoomExits fixture "room-1") south.
Proof.
  assert (Hv : valid_id "room-1" = true) by reflexivity.
  assert (Hn : RDFDatastore.getObjects (MudWorld.store fixture)
                 (MudWorld.entityUri "room-2") (mudVocab.exit north) None = [])
    by (vm_compute; reflexivity).
  pose proof (MudWorldFacts.connectRooms_one_way fixture "room-2" "room-1" north
                Hv Hn) as H.
  cbv zeta in H. destruct H as (Hget & _ & Hframe).
  split; [exact Hv |]. split; [exact Hn |]. cbv zeta. split; [exact Hget |].
  apply Hframe. left. discriminate.
Defined.

(** C7 (as stated) fails: room-1 already has a north exit to room-2; after
    [connectRooms(room-1, north, room-3)] the map of [getRoomExits(room-1)]
    still sends north to room-2 and has no pair (north, room-3). *)
Lemma connectRooms_second_exit_not_listed :
  let w' := MudWorld.connectRooms crossroads "room-1" north "room-3" in
  RDFDatastore.has (MudWorld.store w') (MudWorld.entityUri "room-1")
    (mudVocab.exit north) (MudWorld.entityUri "room-3") None = true /\
  MudWorld.getRoomExits w' "room-1" = [(north, "room-2")] /\
  ~ In (north, "room-3") (MudWorld.getRoomExits w' "room-1").
Proof.
  vm_compute. repeat split. intros [H | []]. discriminate H.
Qed.

(** The carrier has no location statement. *)
Lemma dropItem_without_location_witness :
  RDFDatastore.getObjects (MudWorld.store adrift) (MudWorld.entityUri "player-9")
    mudVocab.location None = [] /\
  MudWorld.dropItem adrift "player-9" "item-1" = adrift /\
  MudWorld.getPlayerInventory (MudWorld.dropItem adrift "player-9" "item-1")
    "player-9" = ["item-1"].
Proof.
  assert (Hn : RDFDatastore.getObjects (MudWorld.store adrift)
                 (MudWorld.entityUri "player-9") mudVocab.location None = [])
    by (vm_compute; reflexivity).
  destruct (MudWorldFacts.dropItem_without_location adrift "player-9" "item-1" Hn)
    as [E Hinv].
  split; [exact Hn |]. split; [exact E |]. rewrite Hinv.
  vm_compute. reflexivity.
Defined.

(** A run that fails after one decoded statement leaves the store alone. *)
Example parse_error_leaves_store :
  RDFDatastore.parseFromString brokenRun 0 (MudWorld.store fixture)
    "<http://example.org/person2> <" None
  = (MudWorld.store fixture, Rejected "Unexpected end of input").
Proof. reflexivity. Qed.

(** A run that ends well: the statement is merged, and the prefix [ex] is
    in the table with [undefined] where its IRI should be. *)
Lemma parseFromString_commits_witness :
  let data := "@prefix ex: <http://example.org/> . ex:person1 ex:knows ex:person2 ." in
  let out := RDFDatastore.parseFromString goodRun 0 (MudWorld.store fixture)
               data None in
  ParserRun (goodRun 0 data "turtle") [knows]
    (inr (Some {[ "ex" := "http://example.org/" ]})) /\
  snd out = Resolved /\
  holds (RDFDatastore.store (fst out)) knows = true /\
  RDFDatastore.getPrefixes (fst out) !! "ex" = Some Js.undefined /\
  RDFDatastore.getPrefixes (fst out) !! "ex" <> Some (Some "http://example.org/").
Proof.
  intros data out.
  assert (Hrun : ParserRun (goodRun 0 data "turtle") [knows]
                   (inr (Some {[ "ex" := "http://example.org/" ]})))
    by (apply run_quad, run_end).
  split; [exact Hrun |].
  pose proof (RDFDatastoreFacts.parseFromString_commits goodRun 0
                (MudWorld.store fixture) data None _ _ Hrun) as H.
  fold out in H. destruct out as [d' promise].
  destruct H as (Hp & Hq & Hpf & _).
  assert (Hex : RDFDatastore.getPrefixes d' !! "ex" = Some Js.undefined).
  { apply (Hpf "ex" "http://example.org/"). simpl. apply lookup_singleton_eq. }
  split; [exact Hp |]. split; [apply Hq; left; now left |].
  split; [exact Hex |]. cbn [fst]. rewrite Hex. discriminate.
Defined.

(** Every statement of the fixture lacks an explicit graph. *)
Lemma getStats_counts_default_graph_witness :
  triples_only (MudWorld.store fixture) = true /\
  RDFDatastore.size (MudWorld.store fixture) = 11 /\
  graphCount (RDFDatastore.getStats (MudWorld.store fixture)) = 1.
Proof.
  assert (Ht : triples_only (MudWorld.store fixture) = true)
    by (vm_compute; reflexivity).
  assert (Hs : RDFDatastore.size (MudWorld.store fixture) = 11)
    by (vm_compute; reflexivity).
  split; [exact Ht |]. split; [exact Hs |].
  apply (RDFDatastoreFacts.getStats_counts_default_graph _ Ht).
  rewrite Hs. discriminate.
Defined.

End Examples.


(** * Further properties of the modelled code *)

(** ** Counting and bulk operations of the datastore *)

Module RDFDatastoreLaws.
Section Laws.
Context {N3 : N3Store}.

(** Two listings without repeats that have the same members are equally
    long. *)
Lemma same_members_length {A} (l l' : list A) :
  List.NoDup l -> List.NoDup l' -> (forall x, In x l <-> In x l') ->
  length l = length l'.
Proof.
  intros Hl Hl' H. apply Permutation.Permutation_length.
  now apply Stdlib.Sorting.Permutation.NoDup_Permutation.
Qed.

Lemma no_members_nil {A} (l : list A) : (forall x, ~ In x l) -> l = [].
Proof.
  destruct l as [| a l]; [reflexivity |]. intros H. destruct (H a). now left.
Qed.

Lemma count_members (st : Store) (l : list Quad) :
  List.NoDup l -> (forall q, In q l <-> holds st q = true) ->
  count st = length l.
Proof.
  intros Hl H. rewrite count_spec. apply same_members_length.
  - apply getQuads_NoDup.
  - exact Hl.
  - intros q. rewrite getQuads_spec, matches_all, H. tauto.
Qed.

Lemma count_addQuad_absent (st : Store) (q : Quad) :
  holds st q = false -> count (addQuad q st) = S (count st).
Proof.
  intros Hq.
  rewrite (count_members (addQuad q st) (q :: getQuads None None None None st)).
  - simpl. now rewrite count_spec.
  - constructor; [| apply getQuads_NoDup].
    rewrite getQuads_spec. intros [H _]. congruence.
  - intros x. simpl. rewrite getQuads_spec, matches_all, holds_addQuad,
      orb_true_iff, quad_eqb_eq. tauto.
Qed.

Lemma count_removeQuad_present (st : Store) (q : Quad) :
  holds st q = true -> count st = S (count (removeQuad q st)).
Proof.
  intros Hq.
  rewrite (count_members st (q :: getQuads None None None None (removeQuad q st))).
  - simpl. now rewrite count_spec.
  - constructor; [| apply getQuads_NoDup].
    rewrite getQuads_spec, holds_removeQuad, quad_eqb_refl. simpl.
    intros [H _]. discriminate.
  - intros x. simpl. rewrite getQuads_spec, matches_all, holds_removeQuad,
      andb_true_iff, negb_true_iff, quad_eqb_neq.
    destruct (Quad_eq_dec q x) as [<- | Hne]; [tauto |]. tauto.
Qed.

(** X1: [size] after [addTriple] and [removeTriple]: adding a statement
    that is not held grows the store by one and adding a held one leaves
    the size; removing a held statement shrinks the store by one and
    removing one that is not held leaves the size. *)
Theorem size_addTriple_removeTriple (d : RDFDatastore.t) (s p o : Term)
    (g : option Term) :
  RDFDatastore.size (RDFDatastore.addTriple d s p o g)
  = (if RDFDatastore.has d s p o g then RDFDatastore.size d
     else S (RDFDatastore.size d)) /\
  RDFDatastore.size d
  = (if RDFDatastore.has d s p o g
     then S (RDFDatastore.size (RDFDatastore.removeTriple d s p o g))
     else RDFDatastore.size (RDFDatastore.removeTriple d s p o g)).
Proof.
  unfold RDFDatastore.size, RDFDatastore.has, RDFDatastore.addTriple,
    RDFDatastore.removeTriple. cbn [RDFDatastore.store]. rewrite !quad_opt.
  destruct (holds (RDFDatastore.store d) (quad s p o g)) eqn:H; split.
  - now rewrite addQuad_present.
  - now apply count_removeQuad_present.
  - now apply count_addQuad_absent.
  - now rewrite removeQuad_absent.
Qed.

(** X2: [clear] leaves no statement: the size is 0, [has] is false for
    every statement, every pattern matches nothing, and the prefix table
    is the one before. *)
Theorem clear_empties (d : RDFDatastore.t) :
  RDFDatastore.size (RDFDatastore.clear d) = 0 /\
  (forall s p o g, RDFDatastore.has (RDFDatastore.clear d) s p o g = false) /\
  (forall pattern, RDFDatastore.match_ (RDFDatastore.clear d) pattern = []) /\
  RDFDatastore.getPrefixes (RDFDatastore.clear d) = RDFDatastore.getPrefixes d.
Proof.
  assert (Hnone : forall q,
             holds (RDFDatastore.store (RDFDatastore.clear d)) q = false).
  { intros q. destruct (holds _ q) eqn:H; [| reflexivity].
    unfold RDFDatastore.clear in H. cbn [RDFDatastore.store] in H.
    apply holds_fold_removeQuad in H as [Hnot Hq]. exfalso. apply Hnot.
    apply getQuads_spec. now rewrite matches_all. }
  split; [| split; [| split]].
  - unfold RDFDatastore.size. rewrite (count_members _ []).
    + reflexivity.
    + constructor.
    + intros q. rewrite Hnone. simpl. split; [tauto | discriminate].
  - intros s p o g. unfold RDFDatastore.has. rewrite quad_opt. apply Hnone.
  - intros pattern. apply no_members_nil. intros q Hq.
    unfold RDFDatastore.match_ in Hq. apply getQuads_spec in Hq as [Hq _].
    rewrite Hnone in Hq. discriminate.
  - reflexivity.
Qed.

(** X3: [removeMatches] removes the statements that match the pattern and
    no other: afterwards the pattern matches nothing, and a statement is
    held exactly when it was held before and does not match. *)
Theorem removeMatches_exact (d : RDFDatastore.t) (pattern : QueryPattern) :
  RDFDatastore.match_ (RDFDatastore.removeMatches d pattern) pattern = [] /\
  (forall q,
     holds (RDFDatastore.store (RDFDatastore.removeMatches d pattern)) q
     = holds (RDFDatastore.store d) q
       && negb (matches (pat_subject pattern) (pat_predicate pattern)
                        (pat_object pattern) (pat_graph pattern) q)) /\
  RDFDatastore.size (RDFDatastore.removeMatches d pattern)
  + length (RDFDatastore.match_ d pattern) = RDFDatastore.size d.
Proof.
  assert (Hq : forall q,
    holds (RDFDatastore.store (RDFDatastore.removeMatches d pattern)) q
    = holds (RDFDatastore.store d) q
      && negb (matches (pat_subject pattern) (pat_predicate pattern)
                       (pat_object pattern) (pat_graph pattern) q)).
  { intros q. apply bool_iff. unfold RDFDatastore.removeMatches.
    cbn [RDFDatastore.store]. rewrite holds_fold_removeQuad.
    unfold RDFDatastore.match_. rewrite getQuads_spec, andb_true_iff,
      negb_true_iff.
    destruct (matches _ _ _ _ q); intuition congruence. }
  split; [| split; [exact Hq |]].
  - apply no_members_nil. intros q Hin. unfold RDFDatastore.match_ in Hin.
    apply getQuads_spec in Hin as [Hh Hm]. rewrite Hq, Hm in Hh.
    rewrite andb_false_r in Hh. discriminate.
  - unfold RDFDatastore.size.
    rewrite (count_members (RDFDatastore.store d)
               (getQuads None None None None
                  (RDFDatastore.store (RDFDatastore.removeMatches d pattern))
                ++ RDFDatastore.match_ d pattern)%list).
    + rewrite length_app. now rewrite count_spec.
    + apply Stdlib.Lists.List.NoDup_app; [apply getQuads_NoDup | apply getQuads_NoDup |].
      intros q H1 H2. apply getQuads_spec in H1 as [H1 _].
      unfold RDFDatastore.match_ in H2. apply getQuads_spec in H2 as [_ H2].
      rewrite Hq, H2, andb_false_r in H1. discriminate.
    + intros q. rewrite in_app_iff, getQuads_spec, matches_all, Hq,
        andb_true_iff, negb_true_iff. unfold RDFDatastore.match_.
      rewrite getQuads_spec.
      destruct (matches _ _ _ _ q); intuition congruence.
Qed.

Lemma fold_addQuad_present (qs : list Quad) (st : Store) :
  (forall q, In q qs -> holds st q = true) ->
  fold_left (fun st q => addQuad q st) qs st = st.
Proof.
  induction qs as [| x qs IH]; intros H; simpl; [reflexivity |].
  rewrite addQuad_present by (apply H; now left).
  apply IH. intros q Hq. apply H. now right.
Qed.

Lemma count_addQuad_bounds (st : Store) (q : Quad) :
  count st <= count (addQuad q st) <= S (count st).
Proof.
  destruct (holds st q) eqn:H.
  - rewrite addQuad_present by exact H. lia.
  - rewrite count_addQuad_absent by exact H. lia.
Qed.

Lemma count_fold_addQuad_bounds (qs : list Quad) (st : Store) :
  count st <= count (fold_left (fun st q => addQuad q st) qs st)
  <= count st + length qs.
Proof.
  revert st. induction qs as [| x qs IH]; intros st; simpl; [lia |].
  pose proof (IH (addQuad x st)). pose proof (count_addQuad_bounds st x). lia.
Qed.

(** X4: [new RDFDatastore(quads)] holds exactly the given quads, a
    repeated one once: a statement is held when it is in the list, and the
    size is the number of distinct quads of the list. *)
Theorem new_holds_initial (initial : list Quad) :
  (forall q, holds (RDFDatastore.store (RDFDatastore.new initial)) q = true <->
             In q initial) /\
  RDFDatastore.size (RDFDatastore.new initial)
  = length (nodup Quad_eq_dec initial).
Proof.
  assert (H : forall q,
             holds (RDFDatastore.store (RDFDatastore.new initial)) q = true <->
             In q initial).
  { intros q. unfold RDFDatastore.new. cbn [RDFDatastore.store].
    rewrite holds_fold_addQuad, holds_empty. intuition congruence. }
  split; [exact H |]. unfold RDFDatastore.size. apply count_members.
  - apply NoDup_nodup.
  - intros q. now rewrite nodup_In, H.
Qed.

(** X5: [addQuads] adds every quad of the list and nothing else, never
    shrinks the store, grows it by at most the length of the list, and
    changes nothing when it is repeated. *)
Theorem addQuads_merges (d : RDFDatastore.t) (qs : list Quad) :
  (forall q, holds (RDFDatastore.store (RDFDatastore.addQuads d qs)) q = true <->
             In q qs \/ holds (RDFDatastore.store d) q = true) /\
  RDFDatastore.size d <= RDFDatastore.size (RDFDatastore.addQuads d qs)
  <= RDFDatastore.size d + length qs /\
  RDFDatastore.addQuads (RDFDatastore.addQuads d qs) qs
  = RDFDatastore.addQuads d qs.
Proof.
  split; [| split].
  - intros q. apply holds_fold_addQuad.
  - apply count_fold_addQuad_bounds.
  - unfold RDFDatastore.addQuads. cbn [RDFDatastore.store RDFDatastore.prefixes].
    f_equal. apply fold_addQuad_present. intros q Hq.
    apply holds_fold_addQuad. now left.
Qed.

Lemma mergePrefixes_present (l : list (string * string)) (d : RDFDatastore.t) :
  (forall k u, (k, u) ∈ l -> RDFDatastore.prefixes d !! k = Some Js.undefined) ->
  RDFDatastoreFacts.mergePrefixes d l = d.
Proof.
  revert d. induction l as [| [k u] l IH]; intros d H; [reflexivity |].
  unfold RDFDatastoreFacts.mergePrefixes in *. simpl.
  assert (E : RDFDatastore.setPrefix d k (Js.string_value u) = d).
  { destruct d as [st pf]. unfold RDFDatastore.setPrefix. simpl. f_equal.
    apply insert_id. apply (H k u). apply elem_of_cons. now left. }
  rewrite E. apply IH. intros k' u' Hin. apply (H k' u').
  apply elem_of_cons. now right.
Qed.

Lemma commit_again (d : RDFDatastore.t) (qs : list Quad)
    (pf1 pf2 : option (gmap string string)) :
  dom (default ∅ pf2) =@{gset string} dom (default ∅ pf1) ->
  RDFDatastoreFacts.commit (RDFDatastoreFacts.commit d qs pf1) qs pf2
  = RDFDatastoreFacts.commit d qs pf1.
Proof.
  intros Hdom.
  assert (Hadd : forall d', (forall q, In q qs ->
                               holds (RDFDatastore.store d') q = true) ->
                            RDFDatastore.addQuads d' qs = d').
  { intros [st p] H. unfold RDFDatastore.addQuads. simpl. f_equal.
    now apply fold_addQuad_present. }
  assert (Hheld : forall q, In q qs ->
            holds (RDFDatastore.store (RDFDatastoreFacts.commit d qs pf1)) q
            = true).
  { intros q Hq. unfold RDFDatastoreFacts.commit.
    destruct pf1; [rewrite RDFDatastoreFacts.mergePrefixes_store |];
      apply holds_fold_addQuad; now left. }
  destruct pf2 as [m2 |]; unfold RDFDatastoreFacts.commit at 1;
    rewrite (Hadd _ Hheld); [| reflexivity].
  apply mergePrefixes_present. intros k u Hin.
  apply elem_of_map_to_list in Hin.
  assert (Hk : k ∈ dom (default ∅ pf1)).
  { rewrite <- Hdom. simpl. apply elem_of_dom. now exists u. }
  destruct pf1 as [m1 |]; simpl in Hk.
  - apply elem_of_dom in Hk as [u1 Hu1]. unfold RDFDatastoreFacts.commit.
    apply (RDFDatastoreFacts.mergePrefixes_declared _ _ k u1).
    + apply NoDup_fst_map_to_list.
    + now apply elem_of_map_to_list.
  - rewrite dom_empty in Hk. now apply elem_of_empty in Hk.
Qed.

(** X23: parsing a text again.  When a second parse of [data] ends without
    an error and decodes the statements and declares the prefixes that the
    first parse did (as it does for a text without blank nodes), it
    resolves and leaves the datastore exactly as the first parse left it:
    no statement and no entry of the prefix table changes. *)
Theorem parseFromString_twice
    (parser : nat -> string -> string -> list ParseEvent) (nth1 nth2 : nat)
    (d : RDFDatastore.t) (data : string) (format : option string)
    (qs : list Quad) (pf : option (gmap string string)) :
  ParserRun (parser nth1 data (match format with Some f => f | None => "turtle" end))
            qs (inr pf) ->
  ParserRun (parser nth2 data (match format with Some f => f | None => "turtle" end))
            qs (inr pf) ->
  let d1 := fst (RDFDatastore.parseFromString parser nth1 d data format) in
  RDFDatastore.parseFromString parser nth2 d1 data format = (d1, Resolved).
Proof.
  intros Hrun1 Hrun2. unfold RDFDatastore.parseFromString. cbv zeta.
  rewrite (RDFDatastoreFacts.onParse_run _ _ _ Hrun1). cbn [fst RDFDatastore.ps_this].
  rewrite (RDFDatastoreFacts.onParse_run _ _ _ Hrun2). simpl.
  now rewrite commit_again by reflexivity.
Qed.

End Laws.
End RDFDatastoreLaws.

(** ** Identifiers of the entity model *)

(** A string without the character [c]. *)
Fixpoint lacks (c : ascii) (s : string) : bool :=
  match s with
  | EmptyString => true
  | String a s' => negb (Ascii.eqb a c) && lacks c s'
  end.

Section IdentifierLaws.

Lemma lacks_app (c : ascii) (a b : string) :
  lacks c (a +:+ b) = lacks c a && lacks c b.
Proof.
  induction a as [| x a IH]; simpl; [reflexivity |].
  now rewrite IH, andb_assoc.
Qed.

Lemma lacks_dash_digits (d : Decimal.uint) :
  lacks "-"%char (NilEmpty.string_of_uint d) = true.
Proof. induction d; simpl; auto. Qed.

Lemma lacks_dash_num (n : nat) : lacks "-"%char (Js.num n) = true.
Proof.
  unfold Js.num, NilZero.string_of_uint.
  destruct (Nat.to_uint n) eqn:E; try reflexivity;
    rewrite <- E; apply lacks_dash_digits.
Qed.

(** Reading a counter back from its decimal text. *)
Lemma num_inj (a b : nat) : Js.num a = Js.num b -> a = b.
Proof.
  assert (H : forall n,
             match NilZero.uint_of_string (Js.num n) with
             | Some d => Nat.of_uint d
             | None => 0
             end = n).
  { intros n. unfold Js.num.
    destruct (Nat.to_uint n) eqn:E;
      try (rewrite NilZero.usu by discriminate; rewrite <- E;
           apply DecimalNat.Unsigned.of_to).
    simpl. rewrite <- (DecimalNat.Unsigned.of_to n), E. reflexivity. }
  intros E. rewrite <- (H a), <- (H b), E. reflexivity.
Qed.

(** The text after the last [-] and the text before it are determined. *)
Lemma app_dash_inj (a b x y : string) :
  lacks "-"%char x = true -> lacks "-"%char y = true ->
  a +:+ "-" +:+ x = b +:+ "-" +:+ y -> a = b /\ x = y.
Proof.
  intros Hx Hy. revert b. induction a as [| c a IH]; intros [| c' b] E.
  - change (String "-"%char x = String "-"%char y) in E.
    injection E as E. auto.
  - change (String "-"%char x = String c' (b +:+ "-" +:+ y)) in E.
    injection E as Ec E. rewrite E, lacks_app in Hx. simpl in Hx.
    rewrite andb_false_r in Hx. discriminate.
  - change (String c (a +:+ "-" +:+ x) = String "-"%char y) in E.
    injection E as Ec E. rewrite <- E, lacks_app in Hy. simpl in Hy.
    rewrite andb_false_r in Hy. discriminate.
  - change (String c (a +:+ "-" +:+ x) = String c' (b +:+ "-" +:+ y)) in E.
    injection E as -> E. destruct (IH _ E) as [-> ->]. auto.
Qed.

Lemma generateId_eq {N3 : N3Store} (w1 w2 : MudWorld.t) (t1 t2 : string) :
  snd (MudWorld.generateId w1 t1) = snd (MudWorld.generateId w2 t2) ->
  t1 = t2 /\ MudWorld.entityCounter w1 = MudWorld.entityCounter w2.
Proof.
  unfold MudWorld.generateId. cbn [snd]. intros E.
  apply app_dash_inj in E as [-> E]; try apply lacks_dash_num.
  apply num_inj in E. split; [reflexivity | congruence].
Qed.

(** X6: [generateId] never gives one identifier twice: identifiers made at
    different counter values differ, whatever the kinds, and each call
    raises the counter by one, so the identifier of the next call differs
    from the one just made. *)
Theorem generateId_unique {N3 : N3Store} (w1 w2 : MudWorld.t) (t1 t2 : string) :
  MudWorld.entityCounter w1 < MudWorld.entityCounter w2 ->
  snd (MudWorld.generateId w1 t1) <> snd (MudWorld.generateId w2 t2) /\
  MudWorld.entityCounter (fst (MudWorld.generateId w2 t2))
  = S (MudWorld.entityCounter w2) /\
  snd (MudWorld.generateId w1 t1)
  <> snd (MudWorld.generateId (fst (MudWorld.generateId w1 t1)) t2).
Proof.
  intros Hlt. split; [| split].
  - intros E. apply generateId_eq in E as [_ E]. lia.
  - reflexivity.
  - intros E. apply generateId_eq in E as [_ E]. simpl in E. lia.
Qed.

End IdentifierLaws.

(** ** Creation, placement and movement in the entity model *)

(** The predicates that only the [create] methods write. *)
Definition describing (p : Term) : bool :=
  term_eqb p rdfTypes.type || term_eqb p mudVocab.name
  || term_eqb p mudVocab.description || term_eqb p mudVocab.portable.

Module MudWorldLaws.
Section Laws.
Context {N3 : N3Store}.

Local Abbreviation held w q :=
  (holds (RDFDatastore.store (MudWorld.store w)) q = true).

(** Every describing statement of the world is about an identifier that
    the counter has already passed. *)
Definition Counted (w : MudWorld.t) : Prop :=
  forall q, held w q -> describing (predicate q) = true ->
            exists t k, subject q = MudWorld.entityUri (t +:+ "-" +:+ Js.num k) /\
                        k <= MudWorld.entityCounter w.

Lemma exit_not_describing (d : ExitDirection) :
  describing (mudVocab.exit d) = false.
Proof. destruct d; reflexivity. Qed.

Lemma Counted_keep (w w' : MudWorld.t) :
  MudWorld.entityCounter w <= MudWorld.entityCounter w' ->
  (forall q, held w' q -> describing (predicate q) = true -> held w q) ->
  Counted w -> Counted w'.
Proof.
  intros Hc Hold Hw q Hq Hd.
  destruct (Hw q (Hold q Hq Hd) Hd) as (t & k & E & Hk).
  exists t, k. split; [exact E | lia].
Qed.

Lemma Counted_create (w : MudWorld.t) (type : string) (d : RDFDatastore.t) :
  Counted w ->
  (forall q, holds (RDFDatastore.store d) q = true ->
             describing (predicate q) = true ->
             subject q = MudWorld.entityUri (snd (MudWorld.generateId w type)) \/
             held w q) ->
  Counted (MudWorld.with_store (fst (MudWorld.generateId w type)) d).
Proof.
  intros Hw Hd q Hq Hp. cbn [MudWorld.with_store MudWorld.store] in Hq.
  destruct (Hd q Hq Hp) as [E | Hold].
  - exists type, (S (MudWorld.entityCounter w)). split; [exact E | simpl; lia].
  - destruct (Hw q Hold Hp) as (t & k & E & Hk).
    exists t, k. split; [exact E | simpl; lia].
Qed.

Lemma Built_Counted (w : MudWorld.t) : Built w -> Counted w.
Proof.
  induction 1 as [| w n d _ IH | w a dir b _ IH | w n d pt _ IH | w i r _ IH
                  | w n r _ IH | w p r _ IH | w p i _ IH | w p i _ IH
                  | w p i _ IH].
  - intros q Hq. simpl in Hq. rewrite holds_empty in Hq. discriminate.
  - unfold MudWorld.createRoom.
    change (MudWorld.generateId w "room")
      with (fst (MudWorld.generateId w "room"), snd (MudWorld.generateId w "room")).
    cbn [fst]. apply Counted_create; [exact IH |]. intros q Hq _.
    rewrite !holds_addTriple_iff in Hq.
    destruct Hq as [-> | [-> | [-> | Hq]]]; auto.
  - apply (Counted_keep w); [simpl; lia | | exact IH]. intros q Hq Hd.
    unfold MudWorld.connectRooms, MudWorld.with_store in Hq.
    cbn [MudWorld.store] in Hq. apply holds_addTriple_iff in Hq as [-> | Hq];
      [| exact Hq].
    simpl in Hd. rewrite exit_not_describing in Hd. discriminate.
  - unfold MudWorld.createItem.
    change (MudWorld.generateId w "item")
      with (fst (MudWorld.generateId w "item"), snd (MudWorld.generateId w "item")).
    cbn [fst]. apply Counted_create; [exact IH |]. intros q Hq _.
    rewrite !holds_addTriple_iff in Hq.
    destruct Hq as [-> | [-> | [-> | [-> | Hq]]]]; auto.
  - apply (Counted_keep w); [simpl; lia | | exact IH]. intros q Hq Hd.
    unfold MudWorld.placeItem, MudWorld.with_store in Hq.
    cbn [MudWorld.store] in Hq. rewrite !holds_addTriple_iff in Hq.
    destruct Hq as [-> | [-> | Hq]]; [discriminate Hd | discriminate Hd | exact Hq].
  - unfold MudWorld.createPlayer.
    change (MudWorld.generateId w "player")
      with (fst (MudWorld.generateId w "player"),
            snd (MudWorld.generateId w "player")).
    cbn [fst]. apply Counted_create; [exact IH |]. intros q Hq _.
    rewrite !holds_addTriple_iff in Hq.
    destruct Hq as [-> | [-> | [-> | Hq]]]; auto.
  - apply (Counted_keep w); [simpl; lia | | exact IH]. intros q Hq Hd.
    apply MudWorldFacts.holds_movePlayer in Hq as [-> | [Hq _]];
      [discriminate Hd | exact Hq].
  - apply (Counted_keep w); [simpl; lia | | exact IH]. intros q Hq Hd.
    apply MudWorldFacts.holds_addToInventory in Hq as [-> | [-> | [Hq _]]];
      [discriminate Hd | discriminate Hd | exact Hq].
  - apply (Counted_keep w); [simpl; lia | | exact IH]. intros q Hq Hd.
    unfold MudWorld.removeFromInventory, MudWorld.with_store in Hq.
    cbn [MudWorld.store] in Hq. rewrite !holds_removeTriple_iff in Hq. tauto.
  - unfold MudWorld.dropItem.
    destruct (MudWorld.getPlayerLocation w p) as [[| c s] |]; try exact IH.
    apply (Counted_keep w); [simpl; lia | | exact IH]. intros q Hq Hd.
    unfold MudWorld.placeItem, MudWorld.removeFromInventory,
      MudWorld.with_store in Hq.
    cbn [MudWorld.store] in Hq.
    rewrite !holds_addTriple_iff, !holds_removeTriple_iff in Hq.
    destruct Hq as [-> | [-> | Hq]]; [discriminate Hd | discriminate Hd | tauto].
Qed.

(** A built world holds no describing statement about the identifier that
    [generateId] hands out next. *)
Lemma Built_next_unused (w : MudWorld.t) (type : string) (p o g : Term) :
  Built w -> describing p = true ->
  holds (RDFDatastore.store (MudWorld.store w))
    (mkQuad (MudWorld.entityUri (snd (MudWorld.generateId w type))) p o g) = false.
Proof.
  intros Hb Hp. destruct (holds _ _) eqn:H; [exfalso | reflexivity].
  destruct (Built_Counted w Hb _ H Hp) as (t & k & E & Hk). simpl in E.
  apply entityUri_inj in E. unfold MudWorld.generateId in E. cbn [snd] in E.
  apply app_dash_inj in E as [_ E]; try apply lacks_dash_num.
  apply num_inj in E. lia.
Qed.

Lemma createBooleanLiteral_true (b : bool) :
  String.eqb (value (utils.createBooleanLiteral b)) "true" = b.
Proof. now destruct b. Qed.

(** The objects listed for a subject and predicate after one triple about
    them is added to a store that had none. *)
Lemma getObjects_first (d d' : RDFDatastore.t) (s p o : Term) :
  (forall o' g', holds (RDFDatastore.store d) (mkQuad s p o' g') = false) ->
  (forall q, holds (RDFDatastore.store d') q = true ->
             q = quad s p o None \/ predicate q <> p \/
             holds (RDFDatastore.store d) q = true) ->
  holds (RDFDatastore.store d') (quad s p o None) = true ->
  RDFDatastore.getObjects d' s p None = [o].
Proof.
  intros Hnone Hnew Hheld. apply getObjects_single with (g := DefaultGraph).
  - exact Hheld.
  - intros o' g' H. destruct (Hnew _ H) as [E | [E | E]].
    + unfold quad in E. injection E as -> ->. auto.
    + now destruct E.
    + rewrite Hnone in E. discriminate.
Qed.

(** X7: in a world built by the entity model, [createRoom] returns a
    well-formed identifier under which [getRoomName] and
    [getRoomDescription] give back exactly the name and the description. *)
Theorem createRoom_roundtrip (w : MudWorld.t) (name description : string) :
  Built w ->
  let w' := fst (MudWorld.createRoom w name description) in
  let id := snd (MudWorld.createRoom w name description) in
  MudWorld.getRoomName w' id = Some name /\
  MudWorld.getRoomDescription w' id = Some description /\
  valid_id id = true.
Proof.
  intros Hb w' id.
  assert (Hid : id = snd (MudWorld.generateId w "room")) by reflexivity.
  split; [| split].
  - unfold MudWorld.getRoomName.
    rewrite (getObjects_first (MudWorld.store w) _ _ _
               (utils.createLiteral name None)); [reflexivity | | |].
    + intros o' g'. rewrite Hid. now apply Built_next_unused.
    + intros q Hq. unfold w', MudWorld.createRoom in Hq. simpl in Hq.
      rewrite !holds_addQuad, !orb_true_iff, !quad_eqb_eq in Hq.
      destruct Hq as [<- | [<- | [<- | Hq]]]; auto;
        right; left; simpl; discriminate.
    + unfold w', MudWorld.createRoom. simpl.
      rewrite !holds_addQuad, !orb_true_iff, !quad_eqb_eq. auto.
  - unfold MudWorld.getRoomDescription.
    rewrite (getObjects_first (MudWorld.store w) _ _ _
               (utils.createLiteral description None)); [reflexivity | | |].
    + intros o' g'. rewrite Hid. now apply Built_next_unused.
    + intros q Hq. unfold w', MudWorld.createRoom in Hq. simpl in Hq.
      rewrite !holds_addQuad, !orb_true_iff, !quad_eqb_eq in Hq.
      destruct Hq as [<- | [<- | [<- | Hq]]]; auto;
        right; left; simpl; discriminate.
    + unfold w', MudWorld.createRoom. simpl.
      rewrite !holds_addQuad, !orb_true_iff, !quad_eqb_eq. auto.
  - rewrite Hid. now apply generateId_valid.
Qed.

(** X8: in a world built by the entity model, [createItem] returns a
    well-formed identifier under which [getItemName], [getItemDescription]
    and [isItemPortable] give back the name, the description and the
    portability flag, which is true when the flag is left out. *)
Theorem createItem_roundtrip (w : MudWorld.t) (name description : string)
    (portable : option bool) :
  Built w ->
  let w' := fst (MudWorld.createItem w name description portable) in
  let id := snd (MudWorld.createItem w name description portable) in
  MudWorld.getItemName w' id = Some name /\
  MudWorld.getItemDescription w' id = Some description /\
  MudWorld.isItemPortable w' id
  = match portable with Some b => b | None => true end /\
  valid_id id = true.
Proof.
  intros Hb w' id.
  assert (Hid : id = snd (MudWorld.generateId w "item")) by reflexivity.
  split; [| split; [| split]].
  - unfold MudWorld.getItemName.
    rewrite (getObjects_first (MudWorld.store w) _ _ _
               (utils.createLiteral name None)); [reflexivity | | |].
    + intros o' g'. rewrite Hid. now apply Built_next_unused.
    + intros q Hq. unfold w', MudWorld.createItem in Hq. simpl in Hq.
      rewrite !holds_addQuad, !orb_true_iff, !quad_eqb_eq in Hq.
      destruct Hq as [<- | [<- | [<- | [<- | Hq]]]]; auto;
        right; left; simpl; discriminate.
    + unfold w', MudWorld.createItem. simpl.
      rewrite !holds_addQuad, !orb_true_iff, !quad_eqb_eq. auto.
  - unfold MudWorld.getItemDescription.
    rewrite (getObjects_first (MudWorld.store w) _ _ _
               (utils.createLiteral description None)); [reflexivity | | |].
    + intros o' g'. rewrite Hid. now apply Built_next_unused.
    + intros q Hq. unfold w', MudWorld.createItem in Hq. simpl in Hq.
      rewrite !holds_addQuad, !orb_true_iff, !quad_eqb_eq in Hq.
      destruct Hq as [<- | [<- | [<- | [<- | Hq]]]]; auto;
        right; left; simpl; discriminate.
    + unfold w', MudWorld.createItem. simpl.
      rewrite !holds_addQuad, !orb_true_iff, !quad_eqb_eq. auto.
  - unfold MudWorld.isItemPortable.
    rewrite (getObjects_first (MudWorld.store w) _ _ _
               (utils.createBooleanLiteral
                  (match portable with Some b => b | None => true end)));
      [apply createBooleanLiteral_true | | |].
    + intros o' g'. rewrite Hid. now apply Built_next_unused.
    + intros q Hq. unfold w', MudWorld.createItem in Hq. simpl in Hq.
      rewrite !holds_addQuad, !orb_true_iff, !quad_eqb_eq in Hq.
      destruct Hq as [<- | [<- | [<- | [<- | Hq]]]]; auto;
        right; left; simpl; discriminate.
    + unfold w', MudWorld.createItem. simpl.
      rewrite !holds_addQuad, !orb_true_iff, !quad_eqb_eq. auto.
  - rewrite Hid. now apply generateId_valid.
Qed.

(** X9: [createPlayer] puts the new player in the starting room: when the
    store holds no location statement for the new identifier yet and the
    room identifier is well formed, [getPlayerLocation] of the returned
    identifier is the starting room. *)
Theorem createPlayer_location (w : MudWorld.t) (name startingRoomId : string) :
  valid_id startingRoomId = true ->
  RDFDatastore.getObjects (MudWorld.store w)
    (MudWorld.entityUri (snd (MudWorld.generateId w "player")))
    mudVocab.location None = [] ->
  let w' := fst (MudWorld.createPlayer w name startingRoomId) in
  let id := snd (MudWorld.createPlayer w name startingRoomId) in
  MudWorld.getPlayerLocation w' id = Some startingRoomId /\
  valid_id id = true.
Proof.
  intros Hv Hnone w' id. rewrite getObjects_nil in Hnone.
  assert (Hid : id = snd (MudWorld.generateId w "player")) by reflexivity.
  split; [| rewrite Hid; now apply generateId_valid].
  unfold MudWorld.getPlayerLocation.
  rewrite (getObjects_first (MudWorld.store w) _ _ _
             (MudWorld.entityUri startingRoomId)).
  - rewrite (lastSegment_entityUri _ (valid_id_no_slash _ Hv)).
    now apply or_else_valid.
  - intros o' g'. rewrite Hid. apply Hnone.
  - intros q Hq. unfold w', MudWorld.createPlayer in Hq. simpl in Hq.
    rewrite !holds_addQuad, !orb_true_iff, !quad_eqb_eq in Hq.
    destruct Hq as [<- | [<- | [<- | Hq]]]; auto;
      right; left; simpl; discriminate.
  - unfold w', MudWorld.createPlayer. simpl.
    rewrite !holds_addQuad, !orb_true_iff, !quad_eqb_eq. auto.
Qed.

Lemma nodeIds_mono (id : string) (l l' : list Term) :
  (forall o, In o l -> In o l') ->
  In id (MudWorld.nodeIds l) -> In id (MudWorld.nodeIds l').
Proof.
  unfold MudWorld.nodeIds. rewrite !in_map_iff.
  intros H (o & E & Hin). exists o. auto.
Qed.

(** X10: [placeItem] lists the item in the room and records the room as
    its location, and it removes nothing: every statement held before is
    still held, so an item placed earlier in another room stays listed
    there as well. *)
Theorem placeItem_lists (w : MudWorld.t) (itemId roomId : string) :
  valid_id itemId = true ->
  let w' := MudWorld.placeItem w itemId roomId in
  In itemId (MudWorld.getRoomItems w' roomId) /\
  RDFDatastore.has (MudWorld.store w') (MudWorld.entityUri itemId)
    mudVocab.location (MudWorld.entityUri roomId) None = true /\
  (forall q, held w q -> held w' q) /\
  (forall other, In itemId (MudWorld.getRoomItems w other) ->
                 In itemId (MudWorld.getRoomItems w' other)).
Proof.
  intros Hv w'.
  assert (Hkeep : forall q, held w q -> held w' q).
  { intros q Hq. unfold w', MudWorld.placeItem, MudWorld.with_store.
    cbn [MudWorld.store]. rewrite !holds_addTriple_iff. auto. }
  split; [| split; [| split; [exact Hkeep |]]].
  - unfold MudWorld.getRoomItems. apply nodeIds_entityUri; [exact Hv |].
    apply In_getObjects. exists DefaultGraph.
    unfold w', MudWorld.placeItem, MudWorld.with_store. cbn [MudWorld.store].
    rewrite !holds_addTriple_iff. now left.
  - unfold RDFDatastore.has, w', MudWorld.placeItem, MudWorld.with_store.
    cbn [MudWorld.store]. rewrite !holds_addTriple_iff. right. now left.
  - intros other. unfold MudWorld.getRoomItems. apply nodeIds_mono.
    intros o Ho. apply In_getObjects in Ho as [g Hg].
    apply In_getObjects. exists g. now apply Hkeep.
Qed.

Lemma holds_removeFromInventory (w : MudWorld.t) (playerId itemId : string)
    (q : Quad) :
  held (MudWorld.removeFromInventory w playerId itemId) q <->
  q <> quad (MudWorld.entityUri playerId) mudVocab.inventory
         (MudWorld.entityUri itemId) None /\
  q <> quad (MudWorld.entityUri itemId) mudVocab.location
         (MudWorld.entityUri playerId) None /\
  held w q.
Proof.
  unfold MudWorld.removeFromInventory, MudWorld.with_store.
  cbn [MudWorld.store]. rewrite !holds_removeTriple_iff. tauto.
Qed.

(** An identifier listed among entity nodes names exactly its own node. *)
Lemma listed_entity_node (id : string) (nodes : list Term) :
  forallb is_entity_node nodes = true ->
  In id (MudWorld.nodeIds nodes) -> In (MudWorld.entityUri id) nodes.
Proof.
  intros Hwf Hin. unfold MudWorld.nodeIds in Hin.
  apply in_map_iff in Hin as (o & Ho & Hin).
  rewrite forallb_forall in Hwf.
  destruct (CommandProcessorFacts.is_entity_node_spec _ (Hwf _ Hin))
    as (id' & Hv & ->).
  rewrite (lastSegment_entityUri _ (valid_id_no_slash _ Hv)) in Ho.
  rewrite or_else_valid in Ho by exact Hv. now subst id'.
Qed.

(** X12: [removeFromInventory] takes the item out of the inventory listing
    of the player and deletes the statement that locates the item at the
    player; every other item stays listed.  The world holds default-graph
    statements only and the inventory holds entity nodes. *)
Theorem removeFromInventory_unlists (w : MudWorld.t) (playerId itemId : string) :
  triples_only (MudWorld.store w) = true ->
  forallb is_entity_node
    (RDFDatastore.getObjects (MudWorld.store w) (MudWorld.entityUri playerId)
       mudVocab.inventory None) = true ->
  let w' := MudWorld.removeFromInventory w playerId itemId in
  ~ In itemId (MudWorld.getPlayerInventory w' playerId) /\
  ~ In (MudWorld.entityUri playerId)
      (RDFDatastore.getObjects (MudWorld.store w') (MudWorld.entityUri itemId)
         mudVocab.location None) /\
  (forall other, other <> itemId ->
     In other (MudWorld.getPlayerInventory w playerId) ->
     In other (MudWorld.getPlayerInventory w' playerId)).
Proof.
  intros Ht Hwf w'. split; [| split].
  - intros Hin. unfold MudWorld.getPlayerInventory in Hin.
    assert (Hsub : forall o,
              In o (RDFDatastore.getObjects (MudWorld.store w')
                      (MudWorld.entityUri playerId) mudVocab.inventory None) ->
              In o (RDFDatastore.getObjects (MudWorld.store w)
                      (MudWorld.entityUri playerId) mudVocab.inventory None)).
    { intros o Ho. apply In_getObjects in Ho as [g Hg].
      apply holds_removeFromInventory in Hg as (_ & _ & Hg).
      apply In_getObjects. eauto. }
    assert (Hwf' : forallb is_entity_node
                     (RDFDatastore.getObjects (MudWorld.store w')
                        (MudWorld.entityUri playerId) mudVocab.inventory None)
                   = true).
    { rewrite forallb_forall in *. auto. }
    apply (listed_entity_node _ _ Hwf') in Hin.
    apply In_getObjects in Hin as [g Hg].
    pose proof Hg as Hg'.
    apply holds_removeFromInventory in Hg' as (Hne & _ & Hold).
    pose proof (triples_only_graph _ _ Ht Hold) as Eg. simpl in Eg. subst g.
    now apply Hne.
  - intros Hin. apply In_getObjects in Hin as [g Hg].
    pose proof Hg as Hg'.
    apply holds_removeFromInventory in Hg' as (_ & Hne & Hold).
    pose proof (triples_only_graph _ _ Ht Hold) as Eg. simpl in Eg. subst g.
    now apply Hne.
  - intros other Hne Hin. unfold MudWorld.getPlayerInventory in *.
    apply (listed_entity_node _ _ Hwf) in Hin.
    assert (Hv : valid_id other = true).
    { rewrite forallb_forall in Hwf.
      destruct (CommandProcessorFacts.is_entity_node_spec _ (Hwf _ Hin))
        as (id' & Hv & E).
      apply entityUri_inj in E. now subst id'. }
    apply nodeIds_entityUri; [exact Hv |].
    apply In_getObjects in Hin as [g Hg]. apply In_getObjects. exists g.
    apply holds_removeFromInventory. repeat split; [| | exact Hg].
    + intros E. unfold quad in E. injection E as E _.
      apply Hne. now apply entityUri_inj.
    + intros E. discriminate E.
Qed.

Lemma dropItem_located (w : MudWorld.t) (playerId itemId roomId : string) :
  MudWorld.getPlayerLocation w playerId = Some roomId ->
  MudWorld.dropItem w playerId itemId
  = MudWorld.placeItem (MudWorld.removeFromInventory w playerId itemId)
      itemId roomId.
Proof.
  intros Hloc. unfold MudWorld.dropItem. rewrite Hloc.
  destruct (CommandProcessorFacts.getPlayerLocation_nonempty _ _ _ Hloc)
    as (c & s & ->). reflexivity.
Qed.

Lemma holds_dropItem (w : MudWorld.t) (playerId itemId roomId : string)
    (q : Quad) :
  MudWorld.getPlayerLocation w playerId = Some roomId ->
  (held (MudWorld.dropItem w playerId itemId) q <->
   q = quad (MudWorld.entityUri roomId) mudVocab.contains
         (MudWorld.entityUri itemId) None \/
   q = quad (MudWorld.entityUri itemId) mudVocab.location
         (MudWorld.entityUri roomId) None \/
   held (MudWorld.removeFromInventory w playerId itemId) q).
Proof.
  intros Hloc. rewrite (dropItem_located _ _ _ _ Hloc).
  unfold MudWorld.placeItem, MudWorld.with_store. cbn [MudWorld.store].
  now rewrite !holds_addTriple_iff.
Qed.

(** What [dropItem] does for a player who has a location. *)
Lemma dropItem_effect (w : MudWorld.t) (playerId itemId roomId : string) :
  triples_only (MudWorld.store w) = true ->
  MudWorld.getPlayerLocation w playerId = Some roomId ->
  valid_id itemId = true ->
  forallb is_entity_node
    (RDFDatastore.getObjects (MudWorld.store w) (MudWorld.entityUri playerId)
       mudVocab.inventory None) = true ->
  let w' := MudWorld.dropItem w playerId itemId in
  In itemId (MudWorld.getRoomItems w' roomId) /\
  ~ In itemId (MudWorld.getPlayerInventory w' playerId) /\
  RDFDatastore.has (MudWorld.store w') (MudWorld.entityUri itemId)
    mudVocab.location (MudWorld.entityUri roomId) None = true.
Proof.
  intros Ht Hloc Hv Hwf w'. split; [| split].
  - unfold MudWorld.getRoomItems. apply nodeIds_entityUri; [exact Hv |].
    apply In_getObjects. exists DefaultGraph.
    apply (holds_dropItem _ _ _ _ _ Hloc). now left.
  - intros Hin. unfold MudWorld.getPlayerInventory in Hin.
    assert (Hold : forall o g,
              held w' (mkQuad (MudWorld.entityUri playerId)
                         mudVocab.inventory o g) ->
              held (MudWorld.removeFromInventory w playerId itemId)
                (mkQuad (MudWorld.entityUri playerId) mudVocab.inventory o g)).
    { intros o g Hg. apply (holds_dropItem _ _ _ _ _ Hloc) in Hg.
      destruct Hg as [E | [E | Hg]];
        [discriminate E | discriminate E | exact Hg]. }
    assert (Hwf' : forallb is_entity_node
                     (RDFDatastore.getObjects (MudWorld.store w')
                        (MudWorld.entityUri playerId) mudVocab.inventory None)
                   = true).
    { rewrite forallb_forall in *. intros o Ho. apply Hwf.
      apply In_getObjects in Ho as [g Hg]. apply Hold in Hg.
      apply holds_removeFromInventory in Hg as (_ & _ & Hg).
      apply In_getObjects. eauto. }
    apply (listed_entity_node _ _ Hwf') in Hin.
    apply In_getObjects in Hin as [g Hg]. apply Hold in Hg.
    apply holds_removeFromInventory in Hg as (Hne & _ & Hg).
    pose proof (triples_only_graph _ _ Ht Hg) as Eg. simpl in Eg. subst g.
    now apply Hne.
  - unfold RDFDatastore.has. apply (holds_dropItem _ _ _ _ _ Hloc).
    right. now left.
Qed.

Lemma getObjects_remove_locations_other (player : Term) (ls : list Term)
    (d : RDFDatastore.t) (s p : Term) :
  s <> player \/ p <> mudVocab.location ->
  RDFDatastore.getObjects
    (fold_left
       (fun d oldLocation =>
          RDFDatastore.removeTriple d player mudVocab.location oldLocation None)
       ls d) s p None
  = RDFDatastore.getObjects d s p None.
Proof.
  intros H. revert d. induction ls as [| x ls IH]; intros d; simpl;
    [reflexivity |].
  rewrite IH. now apply getObjects_removeTriple_other.
Qed.

Lemma getObjects_movePlayer_other (w : MudWorld.t) (playerId roomId : string)
    (s p : Term) :
  s <> MudWorld.entityUri playerId \/ p <> mudVocab.location ->
  RDFDatastore.getObjects (MudWorld.store (MudWorld.movePlayer w playerId roomId))
    s p None
  = RDFDatastore.getObjects (MudWorld.store w) s p None.
Proof.
  intros H. unfold MudWorld.movePlayer, MudWorld.with_store.
  cbn [MudWorld.store]. rewrite getObjects_addTriple_other by exact H.
  now apply getObjects_remove_locations_other.
Qed.

Lemma exit_not_location (d : ExitDirection) : mudVocab.exit d <> mudVocab.location.
Proof. destruct d; discriminate. Qed.

Lemma exit_not_contains (d : ExitDirection) : mudVocab.exit d <> mudVocab.contains.
Proof. destruct d; discriminate. Qed.

(** The map of exits depends only on the six listings of exit objects. *)
Lemma getRoomExits_ext (w w' : MudWorld.t) (roomId : string) :
  (forall d, RDFDatastore.getObjects (MudWorld.store w')
               (MudWorld.entityUri roomId) (mudVocab.exit d) None
             = RDFDatastore.getObjects (MudWorld.store w)
                 (MudWorld.entityUri roomId) (mudVocab.exit d) None) ->
  MudWorld.getRoomExits w' roomId = MudWorld.getRoomExits w roomId.
Proof.
  intros H. unfold MudWorld.getRoomExits. cbn [fold_left].
  now rewrite (H north), (H south), (H east), (H west), (H up), (H down).
Qed.

(** X13: [movePlayer] changes nothing but the location of the player: the
    exits, items, name and description of every room, the name and
    portability of every item, every inventory and the location of every
    other identifier are as before, and so is the counter. *)
Theorem movePlayer_frame (w : MudWorld.t) (playerId roomId id : string) :
  let w' := MudWorld.movePlayer w playerId roomId in
  MudWorld.getRoomExits w' id = MudWorld.getRoomExits w id /\
  MudWorld.getRoomItems w' id = MudWorld.getRoomItems w id /\
  MudWorld.getRoomName w' id = MudWorld.getRoomName w id /\
  MudWorld.getRoomDescription w' id = MudWorld.getRoomDescription w id /\
  MudWorld.isItemPortable w' id = MudWorld.isItemPortable w id /\
  MudWorld.getPlayerInventory w' id = MudWorld.getPlayerInventory w id /\
  (id <> playerId ->
   MudWorld.getPlayerLocation w' id = MudWorld.getPlayerLocation w id) /\
  MudWorld.entityCounter w' = MudWorld.entityCounter w.
Proof.
  intros w'. repeat split.
  - apply getRoomExits_ext. intros d. apply getObjects_movePlayer_other.
    right. apply exit_not_location.
  - unfold MudWorld.getRoomItems, w'.
    rewrite getObjects_movePlayer_other; [reflexivity | right; discriminate].
  - unfold MudWorld.getRoomName, w'.
    rewrite getObjects_movePlayer_other; [reflexivity | right; discriminate].
  - unfold MudWorld.getRoomDescription, w'.
    rewrite getObjects_movePlayer_other; [reflexivity | right; discriminate].
  - unfold MudWorld.isItemPortable, w'.
    rewrite getObjects_movePlayer_other; [reflexivity | right; discriminate].
  - unfold MudWorld.getPlayerInventory, w'.
    rewrite getObjects_movePlayer_other; [reflexivity | right; discriminate].
  - intros Hne. unfold MudWorld.getPlayerLocation, w'.
    rewrite getObjects_movePlayer_other; [reflexivity |].
    left. intros E. apply Hne. now apply entityUri_inj.
Qed.

Lemma getObjects_remove_holders_other (item : Term) (ls : list Term)
    (d : RDFDatastore.t) (s p : Term) :
  s <> item \/ p <> mudVocab.location ->
  ~ In s ls \/ p <> mudVocab.contains ->
  RDFDatastore.getObjects
    (fold_left
       (fun d location =>
          let d' := RDFDatastore.removeTriple d item mudVocab.location
                      location None in
          RDFDatastore.removeTriple d' location mudVocab.contains item None)
       ls d) s p None
  = RDFDatastore.getObjects d s p None.
Proof.
  intros H1 H2. revert d. induction ls as [| x ls IH]; intros d; simpl;
    [reflexivity |].
  rewrite IH.
  - rewrite getObjects_removeTriple_other.
    + now apply getObjects_removeTriple_other.
    + destruct H2 as [H2 | H2]; [left | now right].
      intros ->. apply H2. now left.
  - destruct H2 as [H2 | H2]; [left | now right].
    intros Hin. apply H2. now right.
Qed.

Lemma getObjects_addToInventory_other (w : MudWorld.t)
    (playerId itemId : string) (s p : Term) :
  p <> mudVocab.location -> p <> mudVocab.inventory ->
  ~ In s (RDFDatastore.getObjects (MudWorld.store w)
            (MudWorld.entityUri itemId) mudVocab.location None)
  \/ p <> mudVocab.contains ->
  RDFDatastore.getObjects
    (MudWorld.store (MudWorld.addToInventory w playerId itemId)) s p None
  = RDFDatastore.getObjects (MudWorld.store w) s p None.
Proof.
  intros Hl Hi Hc. unfold MudWorld.addToInventory, MudWorld.with_store.
  cbn [MudWorld.store].
  rewrite !getObjects_addTriple_other by (right; assumption).
  apply getObjects_remove_holders_other; [now right | exact Hc].
Qed.

(** X14: [addToInventory] leaves the rest of the world alone: the exits,
    name and description of every room and the portability of every item
    are as before, and a room that did not hold the item lists the same
    items as before. *)
Theorem addToInventory_frame (w : MudWorld.t) (playerId itemId id : string) :
  let w' := MudWorld.addToInventory w playerId itemId in
  MudWorld.getRoomExits w' id = MudWorld.getRoomExits w id /\
  MudWorld.getRoomName w' id = MudWorld.getRoomName w id /\
  MudWorld.getRoomDescription w' id = MudWorld.getRoomDescription w id /\
  MudWorld.isItemPortable w' id = MudWorld.isItemPortable w id /\
  (~ In (MudWorld.entityUri id)
       (RDFDatastore.getObjects (MudWorld.store w) (MudWorld.entityUri itemId)
          mudVocab.location None) ->
   MudWorld.getRoomItems w' id = MudWorld.getRoomItems w id) /\
  MudWorld.entityCounter w' = MudWorld.entityCounter w.
Proof.
  intros w'. repeat split.
  - apply getRoomExits_ext. intros d.
    apply getObjects_addToInventory_other;
      [apply exit_not_location | destruct d; discriminate
       | right; apply exit_not_contains].
  - unfold MudWorld.getRoomName, w'.
    rewrite getObjects_addToInventory_other;
      [reflexivity | discriminate | discriminate | right; discriminate].
  - unfold MudWorld.getRoomDescription, w'.
    rewrite getObjects_addToInventory_other;
      [reflexivity | discriminate | discriminate | right; discriminate].
  - unfold MudWorld.isItemPortable, w'.
    rewrite getObjects_addToInventory_other;
      [reflexivity | discriminate | discriminate | right; discriminate].
  - intros Hnot. unfold MudWorld.getRoomItems, w'.
    rewrite getObjects_addToInventory_other;
      [reflexivity | discriminate | discriminate | now left].
Qed.

(** X21: the keys of the map that [getRoomExits] returns are exactly the
    directions in which the room has at least one exit statement, each
    once and in the fixed order north, south, east, west, up, down. *)
Theorem getRoomExits_keys (w : MudWorld.t) (roomId : string) :
  map fst (MudWorld.getRoomExits w roomId)
  = List.filter
      (fun d =>
         match RDFDatastore.getObjects (MudWorld.store w)
                 (MudWorld.entityUri roomId) (mudVocab.exit d) None with
         | [] => false
         | _ :: _ => true
         end)
      [north; south; east; west; up; down].
Proof.
  unfold MudWorld.getRoomExits. cbn [fold_left List.filter].
  repeat match goal with
         | |- context [RDFDatastore.getObjects ?a ?b ?c ?e] =>
             destruct (RDFDatastore.getObjects a b c e)
         end; reflexivity.
Qed.

Lemma str_app_assoc (a b c : string) : (a +:+ b) +:+ c = a +:+ (b +:+ c).
Proof.
  induction a as [| x a IH]; [reflexivity |].
  change (String x ((a +:+ b) +:+ c) = String x (a +:+ (b +:+ c))).
  now rewrite IH.
Qed.

Lemma split_nonempty (s : string) : Js.split "/"%char s <> [].
Proof.
  induction s as [| c s IH]; simpl; [discriminate |].
  destruct (Ascii.eqb c "/"); [discriminate |].
  destruct (Js.split "/"%char s); [contradiction | discriminate].
Qed.

Lemma split_single (s h : string) :
  Js.split "/"%char s = [h] -> no_slash s = true.
Proof.
  revert h. induction s as [| c s IH]; intros h; simpl; [reflexivity |].
  destruct (Ascii.eqb c "/") eqn:Ec; simpl.
  - intros E. injection E as _ E. now destruct (split_nonempty s).
  - destruct (Js.split "/"%char s) as [| h' t] eqn:Es; [now destruct (split_nonempty s) |].
    intros E. injection E as _ ->. now apply (IH h').
Qed.

Lemma pop_cons (a : string) (l : list string) :
  l <> [] -> Js.pop (a :: l) = Js.pop l.
Proof. destruct l; [contradiction | reflexivity]. Qed.

(** The last segment of a text that ends in [/] followed by a text
    without [/]. *)
Lemma pop_split_app (x b : string) :
  no_slash b = true ->
  Js.pop (Js.split "/"%char (x +:+ "/" +:+ b)) = Some b.
Proof.
  intros Hb. induction x as [| c x IH].
  - change (Js.pop (EmptyString :: Js.split "/"%char b) = Some b).
    now rewrite (split_no_sep _ Hb).
  - change (Js.pop (Js.split "/"%char (String c (x +:+ "/" +:+ b))) = Some b).
    simpl. destruct (Ascii.eqb c "/").
    + rewrite pop_cons by apply split_nonempty. exact IH.
    + destruct (Js.split "/"%char (x +:+ "/" +:+ b)) as [| h t] eqn:Es;
        [now destruct (split_nonempty (x +:+ "/" +:+ b)) |].
      destruct t as [| h' t].
      * apply split_single in Es. rewrite no_slash_app in Es. simpl in Es.
        rewrite andb_false_r in Es. discriminate.
      * exact IH.
Qed.

(** The location listing after [movePlayer] in a world of default-graph
    statements. *)
Lemma movePlayer_objects (w : MudWorld.t) (playerId roomId : string) :
  triples_only (MudWorld.store w) = true ->
  RDFDatastore.getObjects (MudWorld.store (MudWorld.movePlayer w playerId roomId))
    (MudWorld.entityUri playerId) mudVocab.location None
  = [MudWorld.entityUri roomId].
Proof.
  intros Ht. apply getObjects_single with (g := DefaultGraph).
  - apply MudWorldFacts.holds_movePlayer. now left.
  - intros o g H. apply MudWorldFacts.holds_movePlayer in H as [E | [Hh Hall]].
    + unfold quad in E. injection E as -> ->. auto.
    + exfalso. pose proof (triples_only_graph _ _ Ht Hh) as Eg. simpl in Eg.
      subst g. apply (Hall o); [| reflexivity].
      apply In_getObjects. now exists DefaultGraph.
Qed.

(** X22: an identifier is read back as the last path segment of its URI,
    so a room identifier that contains [/] is cut: after [movePlayer] to
    the identifier [a/b], where [b] is not empty and has no [/],
    [getPlayerLocation] returns [b]. *)
Theorem movePlayer_slash_cut (w : MudWorld.t) (playerId a b : string) :
  triples_only (MudWorld.store w) = true ->
  no_slash b = true ->
  b <> EmptyString ->
  MudWorld.getPlayerLocation
    (MudWorld.movePlayer w playerId (a +:+ "/" +:+ b)) playerId
  = Some b.
Proof.
  intros Ht Hb Hne. unfold MudWorld.getPlayerLocation.
  rewrite (movePlayer_objects _ _ _ Ht). unfold MudWorld.lastSegment.
  unfold MudWorld.entityUri, utils.createNamedNode. cbn [value].
  rewrite <- str_app_assoc. rewrite (pop_split_app _ _ Hb).
  destruct b; [contradiction | reflexivity].
Qed.

End Laws.
End MudWorldLaws.

(** ** Dispatch and the handlers *)

Module CommandProcessorLaws.
Section Laws.
Context {N3 : N3Store}.

Lemma split_ws_nonempty (s : string) : Js.split_ws s <> [].
Proof.
  induction s as [| c s IH]; simpl; [discriminate |].
  destruct (Js.is_ws c).
  - destruct (Js.starts_ws s); [exact IH | discriminate].
  - destruct (Js.split_ws s); [contradiction | discriminate].
Qed.

Lemma split_ws_blank (s : string) :
  Js.split_ws s = [EmptyString] -> s = EmptyString.
Proof.
  induction s as [| c s IH]; [reflexivity |]. simpl.
  destruct (Js.is_ws c).
  - destruct (Js.starts_ws s) eqn:Es.
    + intros E. rewrite (IH E) in Es. discriminate.
    + intros E. injection E as E. now destruct (split_ws_nonempty s).
  - destruct (Js.split_ws s); intros E; discriminate E.
Qed.

(** What [processCommand] does once the first word names a handler. *)
Lemma processCommand_handler (commands : CommandProcessor.t) (w : MudWorld.t)
    (playerId input verb : string) (args : list string) (command : Command) :
  Js.split_ws (Js.trim input) = verb :: args ->
  Js.trim input <> EmptyString ->
  map_get commands (Js.toLowerCase verb) = Some command ->
  CommandProcessor.processCommand commands w playerId input
  = CommandProcessor.execute commands command w playerId args.
Proof.
  intros Hs Hne Hget. unfold CommandProcessor.processCommand,
    CommandProcessor.dispatch.
  destruct (Js.trim input) as [| c t] eqn:Et; [contradiction |].
  rewrite Hs. cbn [hd tl]. now rewrite Hget.
Qed.

Lemma toLowerCase_empty (s : string) :
  Js.toLowerCase s = EmptyString -> s = EmptyString.
Proof. destruct s; [reflexivity | discriminate]. Qed.

Lemma dispatch_words (commands : CommandProcessor.t) (input verb : string)
    (args : list string) :
  Js.split_ws (Js.trim input) = verb :: args ->
  CommandProcessor.dispatch commands input
  = match verb, args with
    | EmptyString, [] => NoInput
    | _, _ =>
        match map_get commands (Js.toLowerCase verb) with
        | None => UnknownCommand (Js.toLowerCase verb)
        | Some command => Handler command args
        end
    end.
Proof.
  intros Hs. unfold CommandProcessor.dispatch.
  destruct (Js.trim input) as [| c t] eqn:Et.
  - simpl in Hs. injection Hs as <- <-. reflexivity.
  - rewrite Hs. cbn [hd tl].
    destruct verb as [| v vs]; [| reflexivity].
    destruct args as [| a args]; [| reflexivity].
    apply split_ws_blank in Hs. discriminate.
Qed.

(** X19: [processCommand] looks only at the words of the input and at the
    first word without regard to letter case: two inputs with the same
    words, up to the case of the first, get the same answer from the same
    world, whatever blanks surround or separate the words. *)
Theorem processCommand_words (commands : CommandProcessor.t) (w : MudWorld.t)
    (playerId input1 input2 verb1 verb2 : string) (args : list string) :
  Js.split_ws (Js.trim input1) = verb1 :: args ->
  Js.split_ws (Js.trim input2) = verb2 :: args ->
  Js.toLowerCase verb1 = Js.toLowerCase verb2 ->
  CommandProcessor.processCommand commands w playerId input1
  = CommandProcessor.processCommand commands w playerId input2.
Proof.
  intros H1 H2 Hv. unfold CommandProcessor.processCommand.
  rewrite (dispatch_words _ _ _ _ H1), (dispatch_words _ _ _ _ H2), Hv.
  destruct verb1 as [| a1 v1], verb2 as [| a2 v2]; try reflexivity;
    discriminate Hv.
Qed.

(** X17: a command of the file's own handler classes that reports failure
    has not changed the world.  This holds for every registry of these
    handlers, the default one among them, under whatever keys they are
    registered, and for every world, actor and input. *)
Theorem failure_keeps_world (commands : CommandProcessor.t) (w : MudWorld.t)
    (playerId input : string) :
  success (snd (CommandProcessor.processCommand commands w playerId input))
  = false ->
  fst (CommandProcessor.processCommand commands w playerId input) = w.
Proof.
  unfold CommandProcessor.processCommand.
  destruct (CommandProcessor.dispatch commands input) as [| name | c args];
    [reflexivity | reflexivity |].
  destruct c; cbn [CommandProcessor.execute fst snd]; try reflexivity.
  - unfold CommandProcessor.GoCommand_execute, CommandProcessor.moveInDirection.
    destruct (MudWorld.getPlayerLocation w playerId) as [[| rc rs] |];
      try reflexivity.
    destruct args as [| a args]; [reflexivity |].
    destruct (directionMap (Js.toLowerCase a)) as [d |];
      [| destruct (inheritedProperty (Js.toLowerCase a)); reflexivity].
    destruct (MudWorld.exits_get _ d) as [[| tc ts] |]; try reflexivity.
    simpl. discriminate.
  - unfold CommandProcessor.moveInDirection.
    destruct (MudWorld.getPlayerLocation w playerId) as [[| rc rs] |];
      try reflexivity.
    destruct (MudWorld.exits_get _ direction) as [[| tc ts] |]; try reflexivity.
    simpl. discriminate.
  - unfold CommandProcessor.TakeCommand_execute.
    destruct args as [| a args]; [reflexivity |].
    destruct (MudWorld.getPlayerLocation w playerId) as [[| rc rs] |];
      try reflexivity.
    destruct (CommandProcessor.findItem _ _ _) as [[| ic it] |]; try reflexivity.
    destruct (MudWorld.isItemPortable _ _); simpl; [discriminate | reflexivity].
  - unfold CommandProcessor.DropCommand_execute.
    destruct args as [| a args]; [reflexivity |].
    destruct (CommandProcessor.findItem _ _ _) as [[| ic it] |]; try reflexivity.
    simpl. discriminate.
Qed.

Lemma pop_split_no_slash (s x : string) :
  Js.pop (Js.split "/"%char s) = Some x -> no_slash x = true.
Proof.
  revert x. induction s as [| c s IH]; intros x; simpl.
  - intros [= <-]. reflexivity.
  - destruct (Ascii.eqb c "/") eqn:Ec.
    + rewrite MudWorldLaws.pop_cons by apply MudWorldLaws.split_nonempty.
      apply IH.
    + destruct (Js.split "/"%char s) as [| h t] eqn:Es;
        [now destruct (MudWorldLaws.split_nonempty s) |].
      destruct t as [| h' t].
      * intros [= <-]. simpl. rewrite Ec. simpl. now apply IH.
      * intros H. apply IH. exact H.
Qed.

(** The target that the map of exits gives for a direction has no [/]. *)
Lemma exit_target_no_slash (w : MudWorld.t) (roomId target : string)
    (d : ExitDirection) :
  MudWorld.exits_get (MudWorld.getRoomExits w roomId) d = Some target ->
  no_slash target = true.
Proof.
  rewrite MudWorldFacts.exits_get_getRoomExits.
  destruct (RDFDatastore.getObjects _ _ _ _) as [| x l]; [discriminate |].
  unfold MudWorld.lastSegment.
  destruct (Js.pop (Js.split "/"%char (value x))) as [[| c s] |] eqn:E; simpl;
    intros [= <-]; try reflexivity.
  now apply (pop_split_no_slash (value x)).
Qed.

(** X15: [go <direction>] for a player who is in a room.  When the map of
    exits of the room gives a target for the direction, the command
    succeeds, the world is the one after [movePlayer] to the target and
    [getPlayerLocation] returns the target; otherwise the command fails
    with [You can't go <direction> from here.] and the world is as it
    was.  The world holds default-graph statements only. *)
Theorem go_direction (w : MudWorld.t) (playerId input verb a : string)
    (rest : list string) (roomId : string) (d : ExitDirection) :
  Js.split_ws (Js.trim input) = verb :: a :: rest ->
  Js.toLowerCase verb = "go" ->
  directionMap (Js.toLowerCase a) = Some d ->
  triples_only (MudWorld.store w) = true ->
  MudWorld.getPlayerLocation w playerId = Some roomId ->
  let out := CommandProcessor.processCommand CommandProcessor.new w playerId input in
  match MudWorld.exits_get (MudWorld.getRoomExits w roomId) d with
  | Some (String c s) =>
      success (snd out) = true /\
      fst out = MudWorld.movePlayer w playerId (String c s) /\
      MudWorld.getPlayerLocation (fst out) playerId = Some (String c s)
  | _ =>
      out = (w, mkResult false ("You can't go " +:+ direction_name d
                                +:+ " from here."))
  end.
Proof.
  intros Hs Hverb Hd Ht Hloc out.
  destruct (CommandProcessorFacts.getPlayerLocation_nonempty _ _ _ Hloc)
    as (rc & rs & Er).
  assert (Eout : out = CommandProcessor.moveInDirection w playerId d).
  { unfold out. rewrite (processCommand_handler _ _ _ _ verb (a :: rest) GoCommand).
    - cbn [CommandProcessor.execute]. unfold CommandProcessor.GoCommand_execute.
      rewrite Hloc, Er, Hd. reflexivity.
    - exact Hs.
    - intros E. rewrite E in Hs. discriminate Hs.
    - rewrite Hverb. reflexivity. }
  rewrite Eout. unfold CommandProcessor.moveInDirection. rewrite Hloc, Er, <- Er.
  destruct (MudWorld.exits_get (MudWorld.getRoomExits w roomId) d)
    as [[| c s] |] eqn:Ex; try reflexivity.
  cbn [fst snd success]. split; [reflexivity |]. split; [reflexivity |].
  unfold MudWorld.getPlayerLocation.
  rewrite (MudWorldLaws.movePlayer_objects _ _ _ Ht).
  rewrite (lastSegment_entityUri _ (exit_target_no_slash _ _ _ _ Ex)).
  reflexivity.
Qed.

(** X16: a bare direction word is [go] with that word: for each of the six
    directions, its name and its first letter alone give the answer of
    [go] followed by the name, from every world and for every actor. *)
Theorem direction_shortcut (w : MudWorld.t) (playerId : string)
    (d : ExitDirection) :
  let go := CommandProcessor.processCommand CommandProcessor.new w playerId
              ("go " +:+ direction_name d) in
  CommandProcessor.processCommand CommandProcessor.new w playerId
    (direction_name d) = go /\
  CommandProcessor.processCommand CommandProcessor.new w playerId
    (String.substring 0 1 (direction_name d)) = go /\
  go = CommandProcessor.GoCommand_execute w playerId [direction_name d].
Proof.
  assert (Hgo : CommandProcessor.GoCommand_execute w playerId [direction_name d]
                = CommandProcessor.moveInDirection w playerId d).
  { unfold CommandProcessor.GoCommand_execute, CommandProcessor.moveInDirection.
    destruct (MudWorld.getPlayerLocation w playerId) as [[| c s] |];
      destruct d; reflexivity. }
  cbv zeta. rewrite Hgo. unfold CommandProcessor.processCommand.
  destruct d;
    (split; [| split]);
    repeat match goal with
           | |- context [CommandProcessor.dispatch ?c ?i] =>
               let v := eval vm_compute in (CommandProcessor.dispatch c i) in
               change (CommandProcessor.dispatch c i) with v
           end;
    cbn [CommandProcessor.execute];
    first [reflexivity | exact Hgo | symmetry; exact Hgo].
Qed.

(** The default registry sends [drop], in any letter case, to the drop
    handler with the remaining words. *)
Lemma processCommand_drop (w : MudWorld.t) (playerId input verb : string)
    (args : list string) :
  Js.split_ws (Js.trim input) = verb :: args ->
  Js.toLowerCase verb = "drop" ->
  CommandProcessor.processCommand CommandProcessor.new w playerId input
  = CommandProcessor.DropCommand_execute w playerId args.
Proof.
  intros Hs Hv. rewrite (processCommand_handler _ _ _ _ verb args DropCommand).
  - reflexivity.
  - exact Hs.
  - intros E. rewrite E in Hs. simpl in Hs. injection Hs as <- _. discriminate Hv.
  - rewrite Hv. reflexivity.
Qed.

(** X11: [drop <item>] for a player who is in a room and carries an item
    that the words select (the first listed item of the inventory whose
    name includes them): the command succeeds, the world is the one after
    [dropItem], the item has left [getPlayerInventory] of the actor and is
    listed in [getRoomItems] of the room the player is in.  The world holds
    default-graph statements only and the inventory holds entity nodes. *)
Theorem drop_item (w : MudWorld.t) (playerId input verb : string)
    (args : list string) (roomId itemId : string) :
  Js.split_ws (Js.trim input) = verb :: args ->
  Js.toLowerCase verb = "drop" ->
  args <> [] ->
  triples_only (MudWorld.store w) = true ->
  MudWorld.getPlayerLocation w playerId = Some roomId ->
  forallb is_entity_node
    (RDFDatastore.getObjects (MudWorld.store w) (MudWorld.entityUri playerId)
       mudVocab.inventory None) = true ->
  CommandProcessor.findItem w (Js.toLowerCase (Js.join " " args))
    (MudWorld.getPlayerInventory w playerId) = Some itemId ->
  let out := CommandProcessor.processCommand CommandProcessor.new w playerId input in
  In itemId (MudWorld.getPlayerInventory w playerId) /\
  snd out = mkResult true ("You drop the "
                           +:+ Js.show (MudWorld.getItemName w itemId) +:+ ".") /\
  fst out = MudWorld.dropItem w playerId itemId /\
  ~ In itemId (MudWorld.getPlayerInventory (fst out) playerId) /\
  In itemId (MudWorld.getRoomItems (fst out) roomId).
Proof.
  intros Hs Hverb Hargs Ht Hloc Hwf Hfind out.
  destruct (CommandProcessorFacts.findItem_In _ _ _ _ Hfind) as [Hin _].
  split; [exact Hin |].
  assert (Hv : valid_id itemId = true).
  { unfold MudWorld.getPlayerInventory in Hin.
    apply (MudWorldLaws.listed_entity_node _ _ Hwf) in Hin.
    rewrite forallb_forall in Hwf.
    destruct (CommandProcessorFacts.is_entity_node_spec _ (Hwf _ Hin))
      as (id' & Hv & E).
    apply entityUri_inj in E. now subst id'. }
  destruct (valid_id_nonempty _ Hv) as (ic & it & Ei).
  assert (Eout : out =
    (MudWorld.dropItem w playerId itemId,
     CommandProcessor.ok ("You drop the "
                          +:+ Js.show (MudWorld.getItemName w itemId) +:+ "."))).
  { unfold out. rewrite (processCommand_drop _ _ _ _ _ Hs Hverb).
    unfold CommandProcessor.DropCommand_execute.
    destruct args as [| a args]; [contradiction |].
    rewrite Hfind. rewrite Ei. reflexivity. }
  rewrite Eout. cbn [fst snd].
  destruct (MudWorldLaws.dropItem_effect w playerId itemId roomId Ht Hloc Hv Hwf)
    as (Hroom & Hgone & _).
  repeat split; assumption.
Qed.

(** X18: [drop] does not look at the player's location.  For a player
    without a location statement who carries the item that the words
    select, the command still answers [You drop the <name>.] with success,
    and the world is unchanged: the item stays in the inventory. *)
Theorem drop_without_location (w : MudWorld.t) (playerId input verb : string)
    (args : list string) (c : ascii) (itemId : string) :
  Js.split_ws (Js.trim input) = verb :: args ->
  Js.toLowerCase verb = "drop" ->
  args <> [] ->
  RDFDatastore.getObjects (MudWorld.store w) (MudWorld.entityUri playerId)
    mudVocab.location None = [] ->
  CommandProcessor.findItem w (Js.toLowerCase (Js.join " " args))
    (MudWorld.getPlayerInventory w playerId) = Some (String c itemId) ->
  CommandProcessor.processCommand CommandProcessor.new w playerId input
  = (w, mkResult true
          ("You drop the "
           +:+ Js.show (MudWorld.getItemName w (String c itemId)) +:+ ".")).
Proof.
  intros Hs Hverb Hargs Hnone Hfind.
  rewrite (processCommand_drop _ _ _ _ _ Hs Hverb).
  unfold CommandProcessor.DropCommand_execute.
  destruct args as [| a args]; [contradiction |].
  rewrite Hfind. unfold MudWorld.dropItem, MudWorld.getPlayerLocation.
  rewrite Hnone. reflexivity.
Qed.

Lemma map_get_map_set {V} (m : list (string * V)) (k k' : string) (v : V) :
  map_get (map_set m k v) k'
  = if String.eqb k k' then Some v else map_get m k'.
Proof.
  induction m as [| [k0 v0] m IH]; simpl.
  - reflexivity.
  - destruct (String.eqb k0 k) eqn:E0; simpl.
    + apply String.eqb_eq in E0. subst k0.
      destruct (String.eqb k k'); reflexivity.
    + destruct (String.eqb k0 k') eqn:E1; [| exact IH].
      apply String.eqb_eq in E1. subst k'.
      rewrite String.eqb_sym, E0. reflexivity.
Qed.

Lemma map_get_fold_set {V} (keys : list string) (m : list (string * V))
    (v : V) (k : string) :
  map_get (fold_left (fun m a => map_set m (Js.toLowerCase a) v) keys m) k
  = if existsb (fun a => String.eqb (Js.toLowerCase a) k) keys
    then Some v else map_get m k.
Proof.
  revert m. induction keys as [| a keys IH]; intros m; simpl; [reflexivity |].
  rewrite IH, map_get_map_set.
  destruct (String.eqb (Js.toLowerCase a) k); simpl; [| reflexivity].
  now destruct (existsb _ keys).
Qed.

(** X20: after [registerCommand] the lower-cased name and every
    lower-cased alias of the handler lead to it, replacing whatever was
    registered under those keys, and every other key leads where it led
    before. *)
Theorem registerCommand_lookup (commands : CommandProcessor.t)
    (command : Command) (k : string) :
  map_get (CommandProcessor.registerCommand commands command) k
  = if existsb (fun a => String.eqb (Js.toLowerCase a) k)
         (command_name command :: command_aliases command)
    then Some command
    else map_get commands k.
Proof.
  unfold CommandProcessor.registerCommand.
  rewrite map_get_fold_set, map_get_map_set. simpl.
  destruct (existsb _ (command_aliases command));
    destruct (String.eqb (Js.toLowerCase (command_name command)) k); reflexivity.
Qed.

(** X24: a first word that the registry does not know is answered with the
    failure [Unknown command: <word>. Type 'help' for a list of commands.],
    the word in lower case, and the world is returned as it was. *)
Theorem unknown_command (commands : CommandProcessor.t) (w : MudWorld.t)
    (playerId input : string) (c : ascii) (verb : string) (args : list string) :
  Js.split_ws (Js.trim input) = String c verb :: args ->
  map_get commands (Js.toLowerCase (String c verb)) = None ->
  CommandProcessor.processCommand commands w playerId input
  = (w, mkResult false
          ("Unknown command: " +:+ Js.toLowerCase (String c verb)
           +:+ ". Type 'help' for a list of commands.")).
Proof.
  intros Hs Hget. unfold CommandProcessor.processCommand.
  rewrite (dispatch_words _ _ _ _ Hs). cbv iota. now rewrite Hget.
Qed.

(** X25: a command word without arguments.  [take], [get] and [pickup]
    answer [Take what? Please specify an item.] and [drop] answers
    [Drop what? Please specify an item.] before looking at the world;
    [go] looks for the player's location first and answers
    [You are nowhere!] when there is none, [Go where? ...] otherwise.
    The world is unchanged in each case. *)
Theorem missing_argument (w : MudWorld.t) (playerId input verb : string) :
  Js.split_ws (Js.trim input) = [verb] ->
  In (Js.toLowerCase verb) ["take"; "get"; "pickup"; "drop"; "go"] ->
  CommandProcessor.processCommand CommandProcessor.new w playerId input
  = (w, mkResult false
          (if String.eqb (Js.toLowerCase verb) "drop"
           then "Drop what? Please specify an item."
           else if String.eqb (Js.toLowerCase verb) "go"
           then match MudWorld.getPlayerLocation w playerId with
                | Some (String _ _) =>
                    "Go where? Please specify a direction (north, south, east, west, up, down)."
                | _ => "You are nowhere!"
                end
           else "Take what? Please specify an item.")).
Proof.
  intros Hs Hv. unfold CommandProcessor.processCommand.
  rewrite (dispatch_words _ _ _ _ Hs).
  destruct Hv as [E | [E | [E | [E | [E | []]]]]]; rewrite <- E;
    destruct verb as [| vc vs]; try discriminate E; try reflexivity.
  cbn [CommandProcessor.execute]. unfold CommandProcessor.GoCommand_execute.
  change (map_get CommandProcessor.new "go") with (Some GoCommand).
  cbv iota. cbn [CommandProcessor.execute].
  unfold CommandProcessor.GoCommand_execute.
  destruct (MudWorld.getPlayerLocation w playerId) as [[| rc rs] |]; reflexivity.
Qed.

End Laws.
End CommandProcessorLaws.

(** * The laws on concrete worlds *)

Module LawExamples.

#[local] Existing Instance ListStore.

(** One room, built from the empty world. *)
Definition hall : MudWorld.t :=
  fst (MudWorld.createRoom MudWorld.new "Hall" "A hall.").

(** The player of the fixture carries the test item. *)
Definition holding : MudWorld.t :=
  let (w1, item) := MudWorld.createItem Examples.fixture "Test Item"
                      "A portable test item" (Some true) in
  MudWorld.addToInventory w1 "player-3" item.

(** A lamp carried by an identifier that has no location statement. *)
Definition ghost : MudWorld.t :=
  let (w1, item) := MudWorld.createItem MudWorld.new "lamp" "A lamp." None in
  MudWorld.addToInventory w1 "ghost" item.

Example worlds_of_the_laws :
  MudWorld.getRoomName hall "room-1" = Some "Hall" /\
  MudWorld.getPlayerInventory holding "player-3" = ["item-4"] /\
  MudWorld.getPlayerLocation holding "player-3" = Some "room-1" /\
  MudWorld.getPlayerInventory ghost "ghost" = ["item-1"] /\
  MudWorld.getPlayerLocation ghost "ghost" = None.
Proof. vm_compute. repeat split. Qed.

(** The empty world and the fixture, whose counter stands at three. *)
Lemma generateId_unique_witness :
  MudWorld.entityCounter MudWorld.new < MudWorld.entityCounter Examples.fixture /\
  snd (MudWorld.generateId MudWorld.new "room")
  <> snd (MudWorld.generateId Examples.fixture "room") /\
  MudWorld.entityCounter (fst (MudWorld.generateId Examples.fixture "room"))
  = S (MudWorld.entityCounter Examples.fixture) /\
  snd (MudWorld.generateId MudWorld.new "room")
  <> snd (MudWorld.generateId (fst (MudWorld.generateId MudWorld.new "room")) "room").
Proof.
  assert (H : MudWorld.entityCounter MudWorld.new
              < MudWorld.entityCounter Examples.fixture)
    by (vm_compute; lia).
  split; [exact H |].
  exact (generateId_unique MudWorld.new Examples.fixture "room" "room" H).
Defined.

(** A second room after the hall. *)
Lemma createRoom_roundtrip_witness :
  Built hall /\
  let w' := fst (MudWorld.createRoom hall "Library" "Rows of books.") in
  let id := snd (MudWorld.createRoom hall "Library" "Rows of books.") in
  MudWorld.getRoomName w' id = Some "Library" /\
  MudWorld.getRoomDescription w' id = Some "Rows of books." /\
  valid_id id = true.
Proof.
  assert (H : Built hall) by (apply built_createRoom, built_new).
  split; [exact H |].
  exact (MudWorldLaws.createRoom_roundtrip hall "Library" "Rows of books." H).
Defined.

(** An item created in the hall without saying whether it is portable. *)
Lemma createItem_roundtrip_witness :
  Built hall /\
  let w' := fst (MudWorld.createItem hall "coin" "A coin." None) in
  let id := snd (MudWorld.createItem hall "coin" "A coin." None) in
  MudWorld.getItemName w' id = Some "coin" /\
  MudWorld.getItemDescription w' id = Some "A coin." /\
  MudWorld.isItemPortable w' id = true /\
  valid_id id = true.
Proof.
  assert (H : Built hall) by (apply built_createRoom, built_new).
  split; [exact H |].
  exact (MudWorldLaws.createItem_roundtrip hall "coin" "A coin." None H).
Defined.

(** A player who starts in the hall. *)
Lemma createPlayer_location_witness :
  valid_id "room-1" = true /\
  RDFDatastore.getObjects (MudWorld.store hall)
    (MudWorld.entityUri (snd (MudWorld.generateId hall "player")))
    mudVocab.location None = [] /\
  let w' := fst (MudWorld.createPlayer hall "Ann" "room-1") in
  let id := snd (MudWorld.createPlayer hall "Ann" "room-1") in
  MudWorld.getPlayerLocation w' id = Some "room-1" /\
  valid_id id = true.
Proof.
  assert (H1 : valid_id "room-1" = true) by reflexivity.
  assert (H2 : RDFDatastore.getObjects (MudWorld.store hall)
                 (MudWorld.entityUri (snd (MudWorld.generateId hall "player")))
                 mudVocab.location None = [])
    by (vm_compute; reflexivity).
  split; [exact H1 |]. split; [exact H2 |].
  exact (MudWorldLaws.createPlayer_location hall "Ann" "room-1" H1 H2).
Defined.

(** The test item, already in the first room, is placed in the second. *)
Lemma placeItem_lists_witness :
  valid_id "item-4" = true /\
  let w' := MudWorld.placeItem Examples.furnished "item-4" "room-2" in
  In "item-4" (MudWorld.getRoomItems w' "room-2") /\
  RDFDatastore.has (MudWorld.store w') (MudWorld.entityUri "item-4")
    mudVocab.location (MudWorld.entityUri "room-2") None = true /\
  (forall q, holds (RDFDatastore.store (MudWorld.store Examples.furnished)) q = true ->
             holds (RDFDatastore.store (MudWorld.store w')) q = true) /\
  (forall other, In "item-4" (MudWorld.getRoomItems Examples.furnished other) ->
                 In "item-4" (MudWorld.getRoomItems w' other)).
Proof.
  assert (H : valid_id "item-4" = true) by reflexivity.
  split; [exact H |].
  exact (MudWorldLaws.placeItem_lists Examples.furnished "item-4" "room-2" H).
Defined.

(** The first player of [carried] gives up the coin. *)
Lemma removeFromInventory_unlists_witness :
  triples_only (MudWorld.store Examples.carried) = true /\
  forallb is_entity_node
    (RDFDatastore.getObjects (MudWorld.store Examples.carried)
       (MudWorld.entityUri "player-2") mudVocab.inventory None) = true /\
  let w' := MudWorld.removeFromInventory Examples.carried "player-2" "item-4" in
  ~ In "item-4" (MudWorld.getPlayerInventory w' "player-2") /\
  ~ In (MudWorld.entityUri "player-2")
      (RDFDatastore.getObjects (MudWorld.store w') (MudWorld.entityUri "item-4")
         mudVocab.location None) /\
  (forall other, other <> "item-4" ->
     In other (MudWorld.getPlayerInventory Examples.carried "player-2") ->
     In other (MudWorld.getPlayerInventory w' "player-2")).
Proof.
  assert (H1 : triples_only (MudWorld.store Examples.carried) = true)
    by (vm_compute; reflexivity).
  assert (H2 : forallb is_entity_node
                 (RDFDatastore.getObjects (MudWorld.store Examples.carried)
                    (MudWorld.entityUri "player-2") mudVocab.inventory None) = true)
    by (vm_compute; reflexivity).
  split; [exact H1 |]. split; [exact H2 |].
  exact (MudWorldLaws.removeFromInventory_unlists Examples.carried
           "player-2" "item-4" H1 H2).
Defined.

(** A room identifier with a slash in it. *)
Lemma movePlayer_slash_cut_witness :
  triples_only (MudWorld.store Examples.fixture) = true /\
  no_slash "stairs" = true /\
  "stairs" <> EmptyString /\
  MudWorld.getPlayerLocation
    (MudWorld.movePlayer Examples.fixture "player-3" ("cellar" +:+ "/" +:+ "stairs"))
    "player-3"
  = Some "stairs".
Proof.
  assert (H1 : triples_only (MudWorld.store Examples.fixture) = true)
    by (vm_compute; reflexivity).
  assert (H2 : no_slash "stairs" = true) by reflexivity.
  assert (H3 : "stairs" <> EmptyString) by discriminate.
  split; [exact H1 |]. split; [exact H2 |]. split; [exact H3 |].
  exact (MudWorldLaws.movePlayer_slash_cut Examples.fixture "player-3"
           "cellar" "stairs" H1 H2 H3).
Defined.

(** The same command typed carefully and carelessly. *)
Lemma processCommand_words_witness :
  Js.split_ws (Js.trim " Take  test item") = ["Take"; "test"; "item"] /\
  Js.split_ws (Js.trim "take test item") = ["take"; "test"; "item"] /\
  Js.toLowerCase "Take" = Js.toLowerCase "take" /\
  CommandProcessor.processCommand CommandProcessor.new Examples.furnished
    "player-3" " Take  test item"
  = CommandProcessor.processCommand CommandProcessor.new Examples.furnished
      "player-3" "take test item".
Proof.
  assert (H1 : Js.split_ws (Js.trim " Take  test item") = ["Take"; "test"; "item"])
    by reflexivity.
  assert (H2 : Js.split_ws (Js.trim "take test item") = ["take"; "test"; "item"])
    by reflexivity.
  assert (H3 : Js.toLowerCase "Take" = Js.toLowerCase "take") by reflexivity.
  split; [exact H1 |]. split; [exact H2 |]. split; [exact H3 |].
  exact (CommandProcessorLaws.processCommand_words CommandProcessor.new
           Examples.furnished "player-3" " Take  test item" "take test item"
           "Take" "take" ["test"; "item"] H1 H2 H3).
Defined.

(** The rock cannot be taken. *)
Lemma failure_keeps_world_witness :
  success (snd (CommandProcessor.processCommand CommandProcessor.new
                  Examples.furnished "player-3" "take heavy rock")) = false /\
  fst (CommandProcessor.processCommand CommandProcessor.new
         Examples.furnished "player-3" "take heavy rock") = Examples.furnished.
Proof.
  assert (H : success (snd (CommandProcessor.processCommand CommandProcessor.new
                              Examples.furnished "player-3" "take heavy rock"))
              = false)
    by (vm_compute; reflexivity).
  split; [exact H |].
  exact (CommandProcessorLaws.failure_keeps_world CommandProcessor.new
           Examples.furnished "player-3" "take heavy rock" H).
Defined.

(** North of the first room lies the second. *)
Lemma go_direction_witness :
  let out := CommandProcessor.processCommand CommandProcessor.new
               Examples.fixture "player-3" "  Go   NORTH " in
  Js.split_ws (Js.trim "  Go   NORTH ") = ["Go"; "NORTH"] /\
  Js.toLowerCase "Go" = "go" /\
  directionMap (Js.toLowerCase "NORTH") = Some north /\
  triples_only (MudWorld.store Examples.fixture) = true /\
  MudWorld.getPlayerLocation Examples.fixture "player-3" = Some "room-1" /\
  MudWorld.exits_get (MudWorld.getRoomExits Examples.fixture "room-1") north
  = Some "room-2" /\
  success (snd out) = true /\
  fst out = MudWorld.movePlayer Examples.fixture "player-3" "room-2" /\
  MudWorld.getPlayerLocation (fst out) "player-3" = Some "room-2".
Proof.
  assert (H1 : Js.split_ws (Js.trim "  Go   NORTH ") = ["Go"; "NORTH"])
    by reflexivity.
  assert (H2 : Js.toLowerCase "Go" = "go") by reflexivity.
  assert (H3 : directionMap (Js.toLowerCase "NORTH") = Some north) by reflexivity.
  assert (H4 : triples_only (MudWorld.store Examples.fixture) = true)
    by (vm_compute; reflexivity).
  assert (H5 : MudWorld.getPlayerLocation Examples.fixture "player-3"
               = Some "room-1")
    by (vm_compute; reflexivity).
  assert (H6 : MudWorld.exits_get
                 (MudWorld.getRoomExits Examples.fixture "room-1") north
               = Some "room-2")
    by (vm_compute; reflexivity).
  pose proof (CommandProcessorLaws.go_direction Examples.fixture "player-3"
                "  Go   NORTH " "Go" "NORTH" [] "room-1" north
                H1 H2 H3 H4 H5) as H.
  cbv zeta in H. rewrite H6 in H. destruct H as (Ha & Hb & Hc).
  cbv zeta. split; [exact H1 |]. split; [exact H2 |]. split; [exact H3 |].
  split; [exact H4 |]. split; [exact H5 |]. split; [exact H6 |].
  split; [exact Ha |]. split; [exact Hb | exact Hc].
Defined.

(** The drop test of the repository. *)
Lemma drop_item_witness :
  let out := CommandProcessor.processCommand CommandProcessor.new holding
               "player-3" "drop test item" in
  Js.split_ws (Js.trim "drop test item") = ["drop"; "test"; "item"] /\
  triples_only (MudWorld.store holding) = true /\
  MudWorld.getPlayerLocation holding "player-3" = Some "room-1" /\
  forallb is_entity_node
    (RDFDatastore.getObjects (MudWorld.store holding)
       (MudWorld.entityUri "player-3") mudVocab.inventory None) = true /\
  CommandProcessor.findItem holding (Js.toLowerCase (Js.join " " ["test"; "item"]))
    (MudWorld.getPlayerInventory holding "player-3") = Some "item-4" /\
  In "item-4" (MudWorld.getPlayerInventory holding "player-3") /\
  snd out = mkResult true ("You drop the "
                           +:+ Js.show (MudWorld.getItemName holding "item-4")
                           +:+ ".") /\
  fst out = MudWorld.dropItem holding "player-3" "item-4" /\
  ~ In "item-4" (MudWorld.getPlayerInventory (fst out) "player-3") /\
  In "item-4" (MudWorld.getRoomItems (fst out) "room-1").
Proof.
  assert (H1 : Js.split_ws (Js.trim "drop test item") = ["drop"; "test"; "item"])
    by reflexivity.
  assert (H2 : Js.toLowerCase "drop" = "drop") by reflexivity.
  assert (H3 : ["test"; "item"] <> []) by discriminate.
  assert (H4 : triples_only (MudWorld.store holding) = true)
    by (vm_compute; reflexivity).
  assert (H5 : MudWorld.getPlayerLocation holding "player-3" = Some "room-1")
    by (vm_compute; reflexivity).
  assert (H6 : forallb is_entity_node
                 (RDFDatastore.getObjects (MudWorld.store holding)
                    (MudWorld.entityUri "player-3") mudVocab.inventory None) = true)
    by (vm_compute; reflexivity).
  assert (H7 : CommandProcessor.findItem holding
                 (Js.toLowerCase (Js.join " " ["test"; "item"]))
                 (MudWorld.getPlayerInventory holding "player-3") = Some "item-4")
    by (vm_compute; reflexivity).
  pose proof (CommandProcessorLaws.drop_item holding "player-3" "drop test item"
                "drop" ["test"; "item"] "room-1" "item-4"
                H1 H2 H3 H4 H5 H6 H7) as H.
  cbv zeta in H. destruct H as (Ha & Hb & Hc & Hd & He).
  cbv zeta. split; [exact H1 |]. split; [exact H4 |]. split; [exact H5 |].
  split; [exact H6 |]. split; [exact H7 |]. split; [exact Ha |].
  split; [exact Hb |]. split; [exact Hc |]. split; [exact Hd | exact He].
Defined.

(** The ghost has a lamp and no location. *)
Lemma drop_without_location_witness :
  Js.split_ws (Js.trim "drop lamp") = ["drop"; "lamp"] /\
  RDFDatastore.getObjects (MudWorld.store ghost) (MudWorld.entityUri "ghost")
    mudVocab.location None = [] /\
  CommandProcessor.findItem ghost (Js.toLowerCase (Js.join " " ["lamp"]))
    (MudWorld.getPlayerInventory ghost "ghost") = Some "item-1" /\
  CommandProcessor.processCommand CommandProcessor.new ghost "ghost" "drop lamp"
  = (ghost, mkResult true
              ("You drop the "
               +:+ Js.show (MudWorld.getItemName ghost "item-1") +:+ ".")).
Proof.
  assert (H1 : Js.split_ws (Js.trim "drop lamp") = ["drop"; "lamp"])
    by reflexivity.
  assert (H2 : Js.toLowerCase "drop" = "drop") by reflexivity.
  assert (H3 : ["lamp"] <> []) by discriminate.
  assert (H4 : RDFDatastore.getObjects (MudWorld.store ghost)
                 (MudWorld.entityUri "ghost") mudVocab.location None = [])
    by (vm_compute; reflexivity).
  assert (H5 : CommandProcessor.findItem ghost
                 (Js.toLowerCase (Js.join " " ["lamp"]))
                 (MudWorld.getPlayerInventory ghost "ghost") = Some "item-1")
    by (vm_compute; reflexivity).
  split; [exact H1 |]. split; [exact H4 |]. split; [exact H5 |].
  exact (CommandProcessorLaws.drop_without_location ghost "ghost" "drop lamp"
           "drop" ["lamp"] "i"%char "tem-1" H1 H2 H3 H4 H5).
Defined.

(** A text without blank nodes, parsed into the fixture's datastore twice. *)
Lemma parseFromString_twice_witness :
  let data := "@prefix ex: <http://example.org/> . ex:person1 ex:knows ex:person2 ." in
  let pf := Some {[ "ex" := "http://example.org/" ]} in
  ParserRun (Examples.goodRun 0 data "turtle") [Examples.knows] (inr pf) /\
  ParserRun (Examples.goodRun 1 data "turtle") [Examples.knows] (inr pf) /\
  let d1 := fst (RDFDatastore.parseFromString Examples.goodRun 0
                   (MudWorld.store Examples.fixture) data None) in
  RDFDatastore.parseFromString Examples.goodRun 1 d1 data None = (d1, Resolved).
Proof.
  intros data pf.
  assert (H1 : ParserRun (Examples.goodRun 0 data "turtle") [Examples.knows]
                 (inr pf))
    by (apply run_quad, run_end).
  assert (H2 : ParserRun (Examples.goodRun 1 data "turtle") [Examples.knows]
                 (inr pf))
    by (apply run_quad, run_end).
  split; [exact H1 |]. split; [exact H2 |].
  exact (RDFDatastoreLaws.parseFromString_twice Examples.goodRun 0 1
           (MudWorld.store Examples.fixture) data None _ _ H1 H2).
Defined.

(** Nobody has registered [dance]. *)
Lemma unknown_command_witness :
  Js.split_ws (Js.trim "Dance now") = ["Dance"; "now"] /\
  map_get CommandProcessor.new (Js.toLowerCase "Dance") = None /\
  CommandProcessor.processCommand CommandProcessor.new Examples.fixture
    "player-3" "Dance now"
  = (Examples.fixture,
     mkResult false
       ("Unknown command: " +:+ Js.toLowerCase "Dance"
        +:+ ". Type 'help' for a list of commands.")).
Proof.
  assert (H1 : Js.split_ws (Js.trim "Dance now") = ["Dance"; "now"])
    by reflexivity.
  assert (H2 : map_get CommandProcessor.new (Js.toLowerCase "Dance") = None)
    by reflexivity.
  split; [exact H1 |]. split; [exact H2 |].
  exact (CommandProcessorLaws.unknown_command CommandProcessor.new
           Examples.fixture "player-3" "Dance now" "D"%char "ance" ["now"] H1 H2).
Defined.

(** [go] alone, typed by the ghost, who is nowhere. *)
Lemma missing_argument_witness :
  Js.split_ws (Js.trim " GO ") = ["GO"] /\
  In (Js.toLowerCase "GO") ["take"; "get"; "pickup"; "drop"; "go"] /\
  MudWorld.getPlayerLocation ghost "ghost" = None /\
  CommandProcessor.processCommand CommandProcessor.new ghost "ghost" " GO "
  = (ghost, mkResult false "You are nowhere!").
Proof.
  assert (H1 : Js.split_ws (Js.trim " GO ") = ["GO"]) by reflexivity.
  assert (H2 : In (Js.toLowerCase "GO") ["take"; "get"; "pickup"; "drop"; "go"])
    by (do 4 right; left; reflexivity).
  assert (H3 : MudWorld.getPlayerLocation ghost "ghost" = None)
    by (vm_compute; reflexivity).
  pose proof (CommandProcessorLaws.missing_argument ghost "ghost" " GO " "GO"
                H1 H2) as H.
  rewrite H3 in H.
  split; [exact H1 |]. split; [exact H2 |]. split; [exact H3 | exact H].
Defined.

End LawExamples.
